(** * Transit: extinction grid, checkpoint files and slant-path integration

    A shallow embedding of [transit/src/extinction.c] and [slantpath.c]
    (the radiative-transfer code of the Transit package) together with
    the properties their design document states about them.

    Conventions of the embedding.
    - A C [double] ([PREC_RES], [PREC_VOIGT], [PREC_VOIGTP], [PREC_ATM])
      is an IEEE-754 binary64 value: Rocq's primitive [float].
    - A C [int] or [long] is a [Z]; where the source converts between
      widths or can leave the range, the two's-complement wrap-around is
      written out with [wrap32] and [wrap64].
    - A C array is a [list]; a pointer into it is the list with an offset.
    - [transiterror(TERR_CRITICAL, ...)] ends the run: the embedded
      function returns [Critical].  [TERR_WARNING] only logs.
    - Functions of libm and GSL, and helpers of the repository that are
      not part of the two source files ([voigtn], [downsample],
      [valueinarray], [interp_parab]), are parameters of the sections.
      The two searches [binsearchapprox] and [binsearch], whose results
      decide some of the properties, are modelled from the design
      document and marked as such.
    - Streams are POSIX streams: the bytes written are the bytes read. *)

From Stdlib Require Import ZArith List Lia Bool Floats Ascii String.
From Stdlib Require Strings.Byte.
From stdpp Require Import base list gmap strings.

Local Open Scope Z_scope.

(** ** Machine arithmetic *)

Module CTypes.

(** Two's-complement wrap-around of a [w]-bit signed integer. *)
Definition wrap (w : Z) (z : Z) : Z :=
  (z + 2 ^ (w - 1)) mod 2 ^ w - 2 ^ (w - 1).

Definition wrap32 : Z -> Z := wrap 32.
Definition wrap64 : Z -> Z := wrap 64.

Definition INT_MAX : Z := 2 ^ 31 - 1.
Definition LONG_MIN : Z := - 2 ^ 63.
Definition LONG_MAX : Z := 2 ^ 63 - 1.

(** The integer part (rounding toward zero) of a finite double. *)
Definition SFtrunc (f : spec_float) : option Z :=
  match f with
  | S754_zero _ => Some 0
  | S754_finite s m e =>
      let v := Z.shiftl (Z.pos m) e in
      Some (if s then - v else v)
  | S754_infinity _ | S754_nan => None
  end.

(** [(long)x] for a double [x].  C defines the conversion only when the
    integer part fits; on x86-64 the instruction behind it ([cvttsd2si])
    gives [LONG_MIN] in every other case, which is what the model takes. *)
Definition double_to_long (x : float) : Z :=
  match SFtrunc (Prim2SF x) with
  | Some z => if (LONG_MIN <=? z) && (z <=? LONG_MAX) then z else LONG_MIN
  | None => LONG_MIN
  end.

(** [(double)n] for an integer [n] of absolute value below 2^63. *)
Definition long_to_double (z : Z) : float :=
  if z <? 0 then (- PrimFloat.of_uint63 (Uint63.of_Z (- z)))%float
  else PrimFloat.of_uint63 (Uint63.of_Z z).

(** libm's [fabs], [fmax] and [fmin] (a NaN argument is ignored by the
    last two when the other one is a number). *)
Definition fabs (x : float) : float := PrimFloat.abs x.

Definition fmax (x y : float) : float :=
  if PrimFloat.is_nan x then y
  else if PrimFloat.is_nan y then x
  else if PrimFloat.ltb x y then y else x.

Definition fmin (x y : float) : float :=
  if PrimFloat.is_nan x then y
  else if PrimFloat.is_nan y then x
  else if PrimFloat.ltb y x then y else x.

(** Array read [a[i]]; the value read outside the array is not defined by
    C and is taken to be [d]. *)
Definition get {A} (d : A) (a : list A) (i : Z) : A :=
  if i <? 0 then d else nth (Z.to_nat i) a d.

Definition fget : list float -> Z -> float := get 0%float.
Definition zget : list Z -> Z -> Z := get 0.

(** Array write [a[i] = v]. *)
Definition set {A} (a : list A) (i : Z) (v : A) : list A :=
  if i <? 0 then a else <[Z.to_nat i := v]> a.

(** How a routine that may call [transiterror(TERR_CRITICAL, ...)] ends. *)
Inductive outcome (A : Type) : Type :=
| Ok (a : A)
| Critical (msg : string).
Arguments Ok {A} a.
Arguments Critical {A} msg.

End CTypes.
Import CTypes.

(** ** The order of doubles

    Facts about [<] and [<=] on doubles that the searches rely on,
    obtained from the specification of the comparisons on
    [spec_float].  A double [x] is a number (not a NaN) exactly when
    [x <= x]. *)

Module FloatOrder.

Definition is_num (x : float) : Prop := PrimFloat.leb x x = true.

Ltac sf_split :=
  simpl; try discriminate; try reflexivity;
  repeat match goal with
  | |- context [Pos.compare_cont Eq ?a ?b] => fold (Pos.compare a b)
  end;
  repeat match goal with
  | |- context [Z.compare ?a ?b] => destruct (Z.compare_spec a b)
  end; simpl; try discriminate; try reflexivity; try lia;
  repeat match goal with
  | |- context [Pos.compare ?a ?b] => destruct (Pos.compare_spec a b)
  end; simpl; try discriminate; try reflexivity; try lia.

Ltac sf_cases2 x y :=
  destruct x as [[]|[]| |[] ? ?], y as [[]|[]| |[] ? ?]; sf_split.

Ltac sf_cases3 x y z :=
  destruct x as [[]|[]| |[] ? ?], y as [[]|[]| |[] ? ?],
           z as [[]|[]| |[] ? ?]; sf_split.

Lemma SFleb_trans x y z :
  SFleb x y = true -> SFleb y z = true -> SFleb x z = true.
Proof. unfold SFleb. sf_cases3 x y z. Qed.

Lemma SFltb_leb_trans x y z :
  SFltb x y = true -> SFleb y z = true -> SFltb x z = true.
Proof. unfold SFleb, SFltb. sf_cases3 x y z. Qed.

Lemma SFleb_ltb_trans x y z :
  SFleb x y = true -> SFltb y z = true -> SFltb x z = true.
Proof. unfold SFleb, SFltb. sf_cases3 x y z. Qed.

Lemma SFleb_refl_l x y : SFleb x y = true -> SFleb x x = true.
Proof. unfold SFleb. sf_cases2 x y. Qed.

Lemma SFleb_refl_r x y : SFleb x y = true -> SFleb y y = true.
Proof. unfold SFleb. sf_cases2 x y. Qed.

Lemma SFltb_leb x y : SFltb x y = true -> SFleb x y = true.
Proof. unfold SFleb, SFltb. sf_cases2 x y. Qed.

Lemma SFltb_leb_false x y : SFltb x y = true -> SFleb y x = false.
Proof. unfold SFleb, SFltb. sf_cases2 x y. Qed.

Lemma SFleb_ltb_false x y : SFleb x y = true -> SFltb y x = false.
Proof. unfold SFleb, SFltb. sf_cases2 x y. Qed.

Lemma SFleb_false_ltb x y :
  SFleb x x = true -> SFleb y y = true -> SFleb x y = false -> SFltb y x = true.
Proof. unfold SFleb, SFltb. sf_cases2 x y. Qed.

Lemma SFltb_false_leb x y :
  SFleb x x = true -> SFleb y y = true -> SFltb x y = false -> SFleb y x = true.
Proof. unfold SFleb, SFltb. sf_cases2 x y. Qed.

Lemma SFeqb_leb x y : SFeqb x y = true -> SFleb x y = true /\ SFleb y x = true.
Proof. unfold SFleb, SFeqb. split; revert H; sf_cases2 x y. Qed.

Lemma leb_trans x y z :
  PrimFloat.leb x y = true -> PrimFloat.leb y z = true ->
  PrimFloat.leb x z = true.
Proof. rewrite !FloatAxioms.leb_spec. apply SFleb_trans. Qed.

Lemma ltb_leb_trans x y z :
  PrimFloat.ltb x y = true -> PrimFloat.leb y z = true ->
  PrimFloat.ltb x z = true.
Proof. rewrite !FloatAxioms.leb_spec, !FloatAxioms.ltb_spec. apply SFltb_leb_trans. Qed.

Lemma leb_ltb_trans x y z :
  PrimFloat.leb x y = true -> PrimFloat.ltb y z = true ->
  PrimFloat.ltb x z = true.
Proof. rewrite !FloatAxioms.leb_spec, !FloatAxioms.ltb_spec. apply SFleb_ltb_trans. Qed.

Lemma leb_is_num_l x y : PrimFloat.leb x y = true -> is_num x.
Proof. unfold is_num. rewrite !FloatAxioms.leb_spec. apply SFleb_refl_l. Qed.

Lemma leb_is_num_r x y : PrimFloat.leb x y = true -> is_num y.
Proof. unfold is_num. rewrite !FloatAxioms.leb_spec. apply SFleb_refl_r. Qed.

Lemma ltb_leb x y : PrimFloat.ltb x y = true -> PrimFloat.leb x y = true.
Proof. rewrite FloatAxioms.leb_spec, FloatAxioms.ltb_spec. apply SFltb_leb. Qed.

Lemma ltb_leb_false x y :
  PrimFloat.ltb x y = true -> PrimFloat.leb y x = false.
Proof. rewrite FloatAxioms.leb_spec, FloatAxioms.ltb_spec. apply SFltb_leb_false. Qed.

Lemma leb_ltb_false x y :
  PrimFloat.leb x y = true -> PrimFloat.ltb y x = false.
Proof. rewrite FloatAxioms.leb_spec, FloatAxioms.ltb_spec. apply SFleb_ltb_false. Qed.

Lemma leb_false_ltb x y :
  is_num x -> is_num y -> PrimFloat.leb x y = false ->
  PrimFloat.ltb y x = true.
Proof. unfold is_num. rewrite !FloatAxioms.leb_spec, FloatAxioms.ltb_spec. apply SFleb_false_ltb. Qed.

Lemma ltb_false_leb x y :
  is_num x -> is_num y -> PrimFloat.ltb x y = false ->
  PrimFloat.leb y x = true.
Proof. unfold is_num. rewrite !FloatAxioms.leb_spec, FloatAxioms.ltb_spec. apply SFltb_false_leb. Qed.

Lemma eqb_leb x y :
  PrimFloat.eqb x y = true ->
  PrimFloat.leb x y = true /\ PrimFloat.leb y x = true.
Proof. rewrite !FloatAxioms.leb_spec, FloatAxioms.eqb_spec. apply SFeqb_leb. Qed.

End FloatOrder.

(** ** Array reads after writes *)

Module ArrayFacts.

Lemma get_set_eq {A} (d : A) (a : list A) (i : Z) (v : A) :
  0 <= i < Z.of_nat (length a) -> get d (set a i v) i = v.
Proof.
  intros Hi. unfold get, set.
  destruct (Z.ltb_spec i 0); [lia|].
  rewrite nth_lookup, list_lookup_insert_eq by lia. reflexivity.
Qed.

Lemma get_set_ne {A} (d : A) (a : list A) (i j : Z) (v : A) :
  i <> j -> get d (set a i v) j = get d a j.
Proof.
  intros Hne. unfold get, set.
  destruct (Z.ltb_spec i 0); [reflexivity|].
  destruct (Z.ltb_spec j 0); [reflexivity|].
  rewrite !nth_lookup, list_lookup_insert_ne by lia. reflexivity.
Qed.

Lemma length_set {A} (a : list A) (i : Z) (v : A) :
  length (set a i v) = length a.
Proof.
  unfold set. destruct (i <? 0); [reflexivity|]. apply length_insert.
Qed.

(** Writing back the value that was read restores the array. *)
Lemma set_set_get {A} (d : A) (a : list A) (i : Z) (v : A) :
  set (set a i v) i (get d a i) = a.
Proof.
  unfold set, get. destruct (Z.ltb_spec i 0); [reflexivity|].
  rewrite list_insert_insert_eq.
  destruct (a !! Z.to_nat i) as [x|] eqn:Hx.
  - rewrite nth_lookup, Hx. cbn [default]. apply list_insert_id. exact Hx.
  - apply list_insert_ge. apply lookup_ge_None. exact Hx.
Qed.

End ArrayFacts.

(** ** Profile synthesizer: [getprofile] *)

Module Profile.

Section GetProfile.

(** [voigtn] of the [pu] library: [voigtn nwn dwn alphaL alphaD vpro eps
    flags] fills the profile array it is handed and returns its status (1
    on success).  It is given as the status and the stores [vpro[i] = v]
    it performs, in order.  [_voigt_maxelements] and [VOIGT_QUICK] come
    from its header. *)
Variable voigtn :
  Z -> float -> float -> float -> list float -> Z -> Z -> Z * list (Z * float).
Variable _voigt_maxelements : Z.
Variable VOIGT_QUICK : Z.

(** [(long)(x + 0.5)]: the rounding [getprofile] applies to the number of
    spacings in the half width. *)
Definition round_half (x : float) : Z := double_to_long (x + 0.5)%float.

(** [2*(long)(wvgt/dwn+0.5) + 1], computed in [long] and stored in the
    [int] variable [nvgt]. *)
Definition nvgt_raw (dwn dop lor ta : float) : Z :=
  let bigalpha := if PrimFloat.ltb dop lor then lor else dop in
  let wvgt := (bigalpha * ta)%float in
  wrap32 (wrap64 (wrap64 (2 * round_half (wvgt / dwn)%float) + 1)).

(** The two adjustments of the point count. *)
Definition nvgt_clamp (nvgt nwave : Z) : Z :=
  let nvgt := if nvgt <? 2 then 3 else nvgt in
  if nvgt >? wrap32 (2 * nwave) then wrap32 (wrap32 (2 * nwave) + 1) else nvgt.

Definition profile_points (dwn dop lor ta : float) (nwave : Z) : Z :=
  nvgt_clamp (nvgt_raw dwn dop lor ta) nwave.

Definition store (a : list float) (w : Z * float) : list float :=
  set a (fst w) (snd w).

(** [getprofile]: the profile left in [*pr] and the returned half size. *)
Definition getprofile (dwn dop lor ta : float) (nwave : Z)
  : outcome (list float * Z) :=
  let nvgt := profile_points dwn dop lor ta nwave in
  if nvgt <? 0 then
    Critical "Number of Voigt bins are not positive."
  else
    let pr := repeat 0%float (Z.to_nat nvgt) in
    let '(j, stores) :=
      voigtn nvgt (dwn * long_to_double (Z.quot nvgt 2))%float lor dop pr (-1)
             (if nvgt >? _voigt_maxelements then VOIGT_QUICK else 0) in
    if negb (j =? 1) then Critical "voigtn2() returned error code."
    else Ok (fold_left store stores pr, Z.quot nvgt 2).

End GetProfile.

(** A stand-in for [voigtn] that succeeds and writes a flat profile. *)
Definition voigtn_flat (nwn : Z) (dwn alphaL alphaD : float)
  (vpro : list float) (eps flags : Z) : Z * list (Z * float) :=
  (1, map (fun i => (Z.of_nat i, 1%float)) (seq 0 (Z.to_nat nwn))).

Example nvgt_raw_ex : nvgt_raw 0.5%float 1%float 2%float 3%float = 25.
Proof. vm_compute. reflexivity. Qed.

Example getprofile_ex :
  getprofile voigtn_flat 1000 1 0.5%float 0.125%float 0.0625%float 2%float 100
  = Ok ([1; 1; 1]%float, 1).
Proof. vm_compute. reflexivity. Qed.

Example getprofile_clamped_ex :
  getprofile voigtn_flat 1000 1 0.5%float 10%float 0.25%float 2%float 2
  = Ok ([1; 1; 1; 1; 1]%float, 2).
Proof. vm_compute. reflexivity. Qed.

(** *** Properties *)

Lemma wrap_range w z : 1 <= w -> - 2 ^ (w - 1) <= wrap w z < 2 ^ (w - 1).
Proof.
  intros Hw. unfold wrap.
  assert (H2 : 2 ^ w = 2 * 2 ^ (w - 1)).
  { replace w with (Z.succ (w - 1)) at 1 by lia. apply Z.pow_succ_r. lia. }
  assert (Hp : 0 < 2 ^ (w - 1)) by (apply Z.pow_pos_nonneg; lia).
  pose proof (Z.mod_pos_bound (z + 2 ^ (w - 1)) (2 ^ w) ltac:(lia)). lia.
Qed.

Lemma wrap_id w z :
  1 <= w -> - 2 ^ (w - 1) <= z < 2 ^ (w - 1) -> wrap w z = z.
Proof.
  intros Hw Hz. unfold wrap.
  assert (H2 : 2 ^ w = 2 * 2 ^ (w - 1)).
  { replace w with (Z.succ (w - 1)) at 1 by lia. apply Z.pow_succ_r. lia. }
  rewrite Z.mod_small by lia. lia.
Qed.

Lemma wrap_odd w z : 2 <= w -> Z.odd (wrap w z) = Z.odd z.
Proof.
  intros Hw. unfold wrap.
  assert (H2 : 2 ^ w = 2 * 2 ^ (w - 1)).
  { replace w with (Z.succ (w - 1)) at 1 by lia. apply Z.pow_succ_r. lia. }
  assert (H1 : 2 ^ (w - 1) = 2 * 2 ^ (w - 2)).
  { replace (w - 1) with (Z.succ (w - 2)) at 1 by lia. apply Z.pow_succ_r. lia. }
  assert (Hp : 0 < 2 ^ (w - 2)) by (apply Z.pow_pos_nonneg; lia).
  rewrite Z.mod_eq by lia.
  set (q := (z + 2 ^ (w - 1)) / 2 ^ w).
  replace (z + 2 ^ (w - 1) - 2 ^ w * q - 2 ^ (w - 1))
    with (z + 2 * (- (2 * 2 ^ (w - 2) * q))) by lia.
  apply Z.odd_add_mul_2.
Qed.

Lemma nvgt_raw_odd dwn dop lor ta : Z.odd (nvgt_raw dwn dop lor ta) = true.
Proof.
  unfold nvgt_raw, wrap32, wrap64.
  rewrite !wrap_odd by lia.
  rewrite Z.odd_add, wrap_odd by lia.
  rewrite Z.odd_mul. reflexivity.
Qed.

Lemma nvgt_raw_exact dwn dop lor ta :
  let bigalpha := if PrimFloat.ltb dop lor then lor else dop in
  let k := round_half (bigalpha * ta / dwn)%float in
  - 2 ^ 30 <= k < 2 ^ 30 ->
  nvgt_raw dwn dop lor ta = 2 * k + 1.
Proof.
  intros bigalpha k Hk. unfold nvgt_raw, wrap32, wrap64. fold bigalpha k.
  assert (E30 : 2 ^ 30 = 1073741824) by reflexivity.
  rewrite (wrap_id 64 (2 * k)) by (change (2 ^ (64 - 1)) with 9223372036854775808; lia).
  rewrite (wrap_id 64) by (change (2 ^ (64 - 1)) with 9223372036854775808; lia).
  apply wrap_id; [lia|]. change (2 ^ (32 - 1)) with 2147483648. lia.
Qed.

Lemma nvgt_clamp_cases raw nwave :
  1 <= nwave <= 2 ^ 30 - 1 ->
  nvgt_clamp raw nwave =
    let base := if raw <? 2 then 3 else raw in
    if base >? 2 * nwave then 2 * nwave + 1 else base.
Proof.
  intros Hn. unfold nvgt_clamp, wrap32.
  assert (E30 : 2 ^ 30 = 1073741824) by reflexivity.
  rewrite (wrap_id 32 (2 * nwave)) by (change (2 ^ (32 - 1)) with 2147483648; lia).
  rewrite (wrap_id 32) by (change (2 ^ (32 - 1)) with 2147483648; lia).
  reflexivity.
Qed.

Lemma length_fold_store stores pr :
  length (fold_left store stores pr) = length pr.
Proof.
  revert pr. induction stores as [|w stores IH]; intros pr; simpl; [reflexivity|].
  rewrite IH. unfold store, set. destruct (fst w <? 0); [reflexivity|].
  apply length_insert.
Qed.

(** C2, amended.  For a maximum half size [nwave] between 1 and 2^30 - 1
    (so that [2*nwave + 1] is an [int]) and whatever the spacing, the
    widths and the range factor are, the point count [n] of [getprofile]
    is odd, at least 3 and at most [2*nwave + 1]; it is the stored value
    of [2*round(w/spacing) + 1] (that number itself while the rounded
    ratio stays below 2^30 in size), replaced by 3 when it is below 2 and
    by [2*nwave + 1] when it exceeds [2*nwave]; and when [voigtn] reports
    success the call returns a profile of [n] entries and the half size
    [n / 2]. *)
Theorem getprofile_point_count
    (voigtn : Z -> float -> float -> float -> list float -> Z -> Z ->
              Z * list (Z * float))
    (vmax vquick : Z) (dwn dop lor ta : float) (nwave : Z) :
  1 <= nwave <= 2 ^ 30 - 1 ->
  let w := ((if PrimFloat.ltb dop lor then lor else dop) * ta)%float in
  let raw := nvgt_raw dwn dop lor ta in
  let n := profile_points dwn dop lor ta nwave in
  Z.odd n = true /\ (3 <= n <= 2 * nwave + 1) /\
  ((- 2 ^ 30 <= round_half (w / dwn)%float < 2 ^ 30) ->
   raw = 2 * round_half (w / dwn)%float + 1) /\
  (raw < 2 -> n = 3) /\
  (2 <= raw <= 2 * nwave -> n = raw) /\
  (2 * nwave < raw -> n = 2 * nwave + 1) /\
  (forall stores,
     voigtn n (dwn * long_to_double (Z.quot n 2))%float lor dop
            (repeat 0%float (Z.to_nat n)) (-1)
            (if n >? vmax then vquick else 0) = (1, stores) ->
     exists pr, getprofile voigtn vmax vquick dwn dop lor ta nwave
                = Ok (pr, Z.quot n 2) /\ Z.of_nat (length pr) = n).
Proof.
  intros Hn w raw n.
  assert (E30 : 2 ^ 30 = 1073741824) by reflexivity.
  pose proof (nvgt_raw_odd dwn dop lor ta) as Hodd. fold raw in Hodd.
  assert (Hcases : n = let base := if raw <? 2 then 3 else raw in
                       if base >? 2 * nwave then 2 * nwave + 1 else base)
    by exact (nvgt_clamp_cases raw nwave Hn).
  cbv zeta in Hcases.
  assert (Hraw1 : raw <> 2) by (intros E; rewrite E in Hodd; discriminate).
  assert (Hodd_n : Z.odd n = true).
  { rewrite Hcases.
    destruct (raw <? 2); destruct (_ >? _); try assumption; try reflexivity;
      rewrite Z.add_comm, Z.odd_add_mul_2; reflexivity. }
  assert (Hrange : 3 <= n <= 2 * nwave + 1).
  { rewrite Hcases.
    destruct (Z.ltb_spec raw 2);
      match goal with |- context [?a >? ?b] => destruct (Z.gtb_spec a b) end; lia. }
  repeat split; try assumption; try lia.
  - apply nvgt_raw_exact.
  - intros H. rewrite Hcases.
    destruct (Z.ltb_spec raw 2); [|lia].
    destruct (Z.gtb_spec 3 (2 * nwave)); lia.
  - intros H. rewrite Hcases.
    destruct (Z.ltb_spec raw 2); [lia|].
    destruct (Z.gtb_spec raw (2 * nwave)); lia.
  - intros H. rewrite Hcases.
    destruct (Z.ltb_spec raw 2);
      match goal with |- context [?a >? ?b] => destruct (Z.gtb_spec a b) end; lia.
  - intros stores Hv. unfold getprofile. fold n.
    destruct (Z.ltb_spec n 0); [lia|].
    rewrite Hv. simpl.
    eexists; split; [reflexivity|].
    rewrite length_fold_store, repeat_length. lia.
Qed.

(** The theorem at a half size of 100, a spacing of 0.5 and widths 0.125
    and 0.0625 with range factor 2. *)
Lemma getprofile_point_count_witness :
  1 <= 100 <= 2 ^ 30 - 1 /\
  Z.odd (profile_points 0.5%float 0.125%float 0.0625%float 2%float 100) = true.
Proof.
  split; [vm_compute; split; discriminate|].
  apply (getprofile_point_count voigtn_flat 1000 1
           0.5%float 0.125%float 0.0625%float 2%float 100).
  vm_compute; split; discriminate.
Defined.

(** C2 as stated fails for a maximum half size whose double leaves the
    [int] range: with [nwave = 2^30] the product [2*nwave] wraps to
    [INT_MIN], the count becomes [INT_MIN + 1] and [getprofile] stops in
    its negative-size check. *)
Lemma getprofile_point_count_counterexample :
  getprofile voigtn_flat 1000 1 1%float 1%float 1%float 1%float (2 ^ 30)
    = Critical "Number of Voigt bins are not positive." /\
  ~ (forall (dwn dop lor ta : float) (nwave : Z),
       PrimFloat.ltb 0 dop = true -> PrimFloat.ltb 0 lor = true ->
       1 <= nwave <= INT_MAX ->
       let n := profile_points dwn dop lor ta nwave in
       Z.odd n = true /\ (3 <= n <= 2 * nwave + 1)).
Proof.
  split; [vm_compute; reflexivity|].
  intros H.
  specialize (H 1%float 1%float 1%float 1%float (2 ^ 30)
                eq_refl eq_refl ltac:(vm_compute; split; discriminate)).
  vm_compute in H. destruct H as [_ [H _]]. apply H. reflexivity.
Qed.

(** *** How a call ends *)

Lemma nvgt_clamp_signed raw nwave :
  - 2 ^ 30 <= nwave <= 2 ^ 30 - 1 ->
  nvgt_clamp raw nwave =
    let base := if raw <? 2 then 3 else raw in
    if base >? 2 * nwave then 2 * nwave + 1 else base.
Proof.
  intros Hn. unfold nvgt_clamp, wrap32.
  assert (E30 : 2 ^ 30 = 1073741824) by reflexivity.
  rewrite (wrap_id 32 (2 * nwave)) by (change (2 ^ (32 - 1)) with 2147483648; lia).
  rewrite (wrap_id 32) by (change (2 ^ (32 - 1)) with 2147483648; lia).
  reflexivity.
Qed.

(** For a maximum half size [nwave] whose double is an [int], the call
    ends in one of three ways.  A negative [nwave] always gives the error
    about the number of bins, whatever the widths are; otherwise that
    error never occurs, and the call fails exactly when [voigtn] does not
    report 1.  When it succeeds the half size [hs] it returns is between
    0 and [nwave] (at least 1 when [nwave] is) and the profile has
    [2*hs + 1] entries. *)
Theorem getprofile_outcome
    (voigtn : Z -> float -> float -> float -> list float -> Z -> Z ->
              Z * list (Z * float))
    (vmax vquick : Z) (dwn dop lor ta : float) (nwave : Z) :
  - 2 ^ 30 <= nwave <= 2 ^ 30 - 1 ->
  let n := profile_points dwn dop lor ta nwave in
  let status :=
    fst (voigtn n (dwn * long_to_double (Z.quot n 2))%float lor dop
                (repeat 0%float (Z.to_nat n)) (-1)
                (if n >? vmax then vquick else 0)) in
  (nwave < 0 ->
   getprofile voigtn vmax vquick dwn dop lor ta nwave
   = Critical "Number of Voigt bins are not positive.") /\
  (0 <= nwave -> status <> 1 ->
   getprofile voigtn vmax vquick dwn dop lor ta nwave
   = Critical "voigtn2() returned error code.") /\
  (0 <= nwave -> status = 1 ->
   exists pr hs,
     getprofile voigtn vmax vquick dwn dop lor ta nwave = Ok (pr, hs) /\
     0 <= hs <= nwave /\ (1 <= nwave -> 1 <= hs) /\
     Z.of_nat (length pr) = 2 * hs + 1).
Proof.
  intros Hn n status.
  assert (E30 : 2 ^ 30 = 1073741824) by reflexivity.
  pose proof (nvgt_raw_odd dwn dop lor ta) as Hodd.
  set (raw := nvgt_raw dwn dop lor ta) in Hodd.
  assert (Hcases : n = let base := if raw <? 2 then 3 else raw in
                       if base >? 2 * nwave then 2 * nwave + 1 else base)
    by exact (nvgt_clamp_signed raw nwave Hn).
  cbv zeta in Hcases.
  assert (Hodd_n : Z.odd n = true).
  { rewrite Hcases.
    destruct (raw <? 2);
      match goal with |- context [?a >? ?b] => destruct (a >? b) end;
      try assumption; try reflexivity;
      rewrite Z.add_comm, Z.odd_add_mul_2; reflexivity. }
  assert (Hneg : nwave < 0 -> n < 0).
  { intros H. rewrite Hcases.
    destruct (Z.ltb_spec raw 2);
      match goal with |- context [?a >? ?b] => destruct (Z.gtb_spec a b) end; lia. }
  assert (Hpos : 0 <= nwave -> 1 <= n <= 2 * nwave + 1).
  { intros H. rewrite Hcases.
    destruct (Z.ltb_spec raw 2);
      match goal with |- context [?a >? ?b] => destruct (Z.gtb_spec a b) end; lia. }
  assert (Hbig : 1 <= nwave -> 3 <= n).
  { assert (Hraw : raw <> 2) by (intros E; rewrite E in Hodd; discriminate).
    intros H. rewrite Hcases.
    destruct (Z.ltb_spec raw 2);
      match goal with |- context [?a >? ?b] => destruct (Z.gtb_spec a b) end; lia. }
  repeat apply conj.
  - intros H. unfold getprofile. fold n.
    destruct (Z.ltb_spec n 0); [reflexivity|]. specialize (Hneg H). lia.
  - intros H Hst. unfold getprofile. fold n.
    destruct (Z.ltb_spec n 0); [specialize (Hpos H); lia|].
    subst status.
    destruct (voigtn n _ lor dop _ (-1) _) as [j stores]. cbn [fst] in Hst.
    destruct (Z.eqb_spec j 1); [contradiction|]. reflexivity.
  - intros H Hst. unfold getprofile. fold n.
    destruct (Z.ltb_spec n 0); [specialize (Hpos H); lia|].
    subst status.
    destruct (voigtn n _ lor dop _ (-1) _) as [j stores]. cbn [fst] in Hst.
    subst j. cbn [Z.eqb Pos.eqb negb].
    eexists _, _. split; [reflexivity|].
    specialize (Hpos H).
    assert (Hq : n = 2 * Z.quot n 2 + 1).
    { rewrite Z.quot_div_nonneg by lia.
      pose proof (Z.div_mod n 2 ltac:(lia)) as Hdm.
      rewrite Zmod_odd, Hodd_n in Hdm. lia. }
    rewrite length_fold_store, repeat_length.
    repeat apply conj; try lia.
Qed.

(** A half size of 100 with a spacing of 0.5 and the flat stand-in. *)
Lemma getprofile_outcome_witness :
  exists pr hs,
    getprofile voigtn_flat 1000 1 0.5%float 0.125%float 0.0625%float 2%float 100
    = Ok (pr, hs) /\
    0 <= hs <= 100 /\ (1 <= 100 -> 1 <= hs) /\
    Z.of_nat (length pr) = 2 * hs + 1.
Proof.
  destruct (getprofile_outcome voigtn_flat 1000 1 0.5%float 0.125%float
              0.0625%float 2%float 100 ltac:(simpl; lia)) as (_ & _ & H).
  apply H; [lia|reflexivity].
Defined.

End Profile.

(** ** Width-grid lookup: [binsearchapprox] *)

Module WidthGrid.

(** Modelled from the spec: the loop of [binsearchapprox] (see below) on
    the window [lo, hi): the midpoint moves [lo] up while its grid value
    is not above the target, and [hi] down otherwise.  [fuel] bounds the
    number of halvings. *)
Fixpoint floor_search (fuel : nat) (grid : list float) (target : float)
    (lo hi : Z) : Z :=
  match fuel with
  | O => lo
  | S fuel =>
      if hi - lo <=? 1 then lo
      else
        let m := Z.quot (lo + hi) 2 in
        if PrimFloat.leb (fget grid m) target
        then floor_search fuel grid target m hi
        else floor_search fuel grid target lo m
  end.

(** Modelled from the spec: the function [binsearchapprox], which
    [computemolext] and [interpolmolext] call and whose definition is not
    in the two source files.  The design document gives its contract as
    [find_floor_index(sorted_grid, target, lo, hi) -> index] with
    [grid[index] <= target < grid[index+1]], a binary search for the
    nearest grid value below on an ascending grid, where a target below
    [grid[lo]] gives [lo] and a target above [grid[hi-1]] gives [hi-1]. *)
Definition binsearchapprox (grid : list float) (target : float) (lo hi : Z)
  : Z :=
  if PrimFloat.ltb target (fget grid lo) then lo
  else floor_search (Z.to_nat (hi - lo)) grid target lo hi.

(** An ascending grid: each value is at most the next one. *)
Definition ascending (grid : list float) : Prop :=
  forall i, 0 <= i -> i + 1 < Z.of_nat (length grid) ->
    PrimFloat.leb (fget grid i) (fget grid (i + 1)) = true.

Example binsearchapprox_ex :
  map (fun t => binsearchapprox [1; 2; 4; 8]%float t 0 4)
      [0.5; 1; 1.5; 2; 3; 4; 7; 8; 9]%float
  = [0; 0; 0; 1; 1; 2; 2; 3; 3].
Proof. vm_compute. reflexivity. Qed.

(** *** Properties *)

Import FloatOrder.

Lemma ascending_le grid i j :
  ascending grid -> 0 <= i -> i < j -> j < Z.of_nat (length grid) ->
  PrimFloat.leb (fget grid i) (fget grid j) = true.
Proof.
  intros Hasc Hi Hij Hj.
  replace j with (i + 1 + Z.of_nat (Z.to_nat (j - i - 1))) in * by lia.
  induction (Z.to_nat (j - i - 1)) as [|n IH].
  - rewrite Z.add_0_r. apply Hasc; lia.
  - apply leb_trans with (fget grid (i + 1 + Z.of_nat n)).
    + apply IH; lia.
    + replace (i + 1 + Z.of_nat (S n)) with (i + 1 + Z.of_nat n + 1) by lia.
      apply Hasc; lia.
Qed.

Lemma ascending_is_num grid i :
  ascending grid -> 2 <= Z.of_nat (length grid) ->
  0 <= i < Z.of_nat (length grid) -> is_num (fget grid i).
Proof.
  intros Hasc Hlen Hi.
  destruct (Z.eq_dec i 0) as [->|Hne].
  - apply leb_is_num_l with (fget grid (0 + 1)). apply Hasc; lia.
  - apply leb_is_num_r with (fget grid (i - 1)).
    replace i with (i - 1 + 1) at 2 by lia. apply Hasc; lia.
Qed.

(** The loop keeps its window: the value at [lo] is not above the target
    and the value at [hi], when [hi] has moved, is above it. *)
Lemma floor_search_spec fuel grid target lo hi top :
  (forall i, lo <= i < hi -> is_num (fget grid i)) ->
  is_num target ->
  lo < hi -> hi - lo <= Z.of_nat fuel + 1 ->
  0 <= lo ->
  PrimFloat.leb (fget grid lo) target = true ->
  (hi = top \/ PrimFloat.ltb target (fget grid hi) = true) ->
  hi <= top ->
  let k := floor_search fuel grid target lo hi in
  lo <= k < hi /\
  PrimFloat.leb (fget grid k) target = true /\
  (k + 1 = top \/ PrimFloat.ltb target (fget grid (k + 1)) = true).
Proof.
  revert lo hi. induction fuel as [|fuel IH]; intros lo hi Hnum Ht Hlohi Hfuel Hlo Hle Hhi Htop.
  - cbn [floor_search]. assert (hi = lo + 1) by lia. subst hi.
    repeat split; try lia; assumption.
  - cbn [floor_search].
    destruct (Z.leb_spec (hi - lo) 1) as [H1|H1].
    + assert (hi = lo + 1) by lia. subst hi.
      repeat split; try lia; assumption.
    + assert (Hq : lo < Z.quot (lo + hi) 2 < hi).
      { rewrite Z.quot_div_nonneg by lia.
        pose proof (Z.div_mod (lo + hi) 2 ltac:(lia)).
        pose proof (Z.mod_pos_bound (lo + hi) 2 ltac:(lia)). lia. }
      set (m := Z.quot (lo + hi) 2) in *.
      destruct (PrimFloat.leb (fget grid m) target) eqn:Em.
      * destruct (IH m hi) as (Hk & Hkle & Hknext); try assumption; try lia.
        { intros i Hi. apply Hnum. lia. }
        repeat split; try lia; assumption.
      * destruct (IH lo m) as (Hk & Hkle & Hknext); try assumption; try lia.
        { intros i Hi. apply Hnum. lia. }
        { right. apply leb_false_ltb; [apply Hnum; lia|assumption|assumption]. }
        repeat split; try lia; assumption.
Qed.

(** On an ascending window whose last value is below the target the loop
    ends at the last index. *)
Lemma floor_search_above fuel grid target lo hi :
  (forall i, lo <= i < hi -> PrimFloat.leb (fget grid i) target = true) ->
  lo < hi -> hi - lo <= Z.of_nat fuel + 1 -> 0 <= lo ->
  floor_search fuel grid target lo hi = hi - 1.
Proof.
  revert lo. induction fuel as [|fuel IH]; intros lo Hall Hlohi Hfuel Hlo.
  - cbn [floor_search]. lia.
  - cbn [floor_search].
    destruct (Z.leb_spec (hi - lo) 1) as [H1|H1]; [lia|].
    assert (Hq : lo < Z.quot (lo + hi) 2 < hi).
    { rewrite Z.quot_div_nonneg by lia.
      pose proof (Z.div_mod (lo + hi) 2 ltac:(lia)).
      pose proof (Z.mod_pos_bound (lo + hi) 2 ltac:(lia)). lia. }
    rewrite Hall by lia.
    apply IH; try lia. intros i Hi. apply Hall. lia.
Qed.

(** C6.  On an ascending grid [g] and for a target with
    [g[0] <= target <= g[last]], the index [k] that the lookup returns
    over the whole grid has [g[k] <= target] and either [k+1] is the
    length or [g[k+1] > target]; over any window [lo, hi) a target below
    [g[lo]] gives [lo] and a target above [g[hi-1]] gives [hi-1]. *)
Theorem binsearchapprox_floor (grid : list float) (target : float) :
  ascending grid ->
  1 <= Z.of_nat (length grid) ->
  (PrimFloat.leb (fget grid 0) target = true ->
   PrimFloat.leb target (fget grid (Z.of_nat (length grid) - 1)) = true ->
   let k := binsearchapprox grid target 0 (Z.of_nat (length grid)) in
   0 <= k < Z.of_nat (length grid) /\
   PrimFloat.leb (fget grid k) target = true /\
   (k + 1 = Z.of_nat (length grid) \/
    PrimFloat.ltb target (fget grid (k + 1)) = true)) /\
  (forall lo hi, 0 <= lo < hi -> hi <= Z.of_nat (length grid) ->
     (PrimFloat.ltb target (fget grid lo) = true ->
      binsearchapprox grid target lo hi = lo) /\
     (PrimFloat.ltb (fget grid (hi - 1)) target = true ->
      binsearchapprox grid target lo hi = hi - 1)).
Proof.
  intros Hasc Hlen. split.
  - intros Hlo Hhi k. subst k. unfold binsearchapprox.
    rewrite (leb_ltb_false _ _ Hlo).
    rewrite Z.sub_0_r, Nat2Z.id.
    assert (Hnum : forall i, 0 <= i < Z.of_nat (length grid) ->
                             is_num (fget grid i)).
    { intros i Hi.
      destruct (Z.le_gt_cases 2 (Z.of_nat (length grid))) as [H2|H2].
      - apply ascending_is_num; assumption.
      - replace i with 0 by lia. apply (leb_is_num_l _ _ Hlo). }
    apply floor_search_spec; try assumption; try lia.
    apply (leb_is_num_r _ _ Hlo).
  - intros lo hi Hlohi Hhi. split.
    + intros Hbelow. unfold binsearchapprox. rewrite Hbelow. reflexivity.
    + intros Habove. unfold binsearchapprox.
      assert (Hall : forall i, lo <= i < hi ->
                               PrimFloat.leb (fget grid i) target = true).
      { intros i Hi. destruct (Z.eq_dec i (hi - 1)) as [->|Hne].
        - apply ltb_leb. assumption.
        - apply ltb_leb. apply leb_ltb_trans with (fget grid (hi - 1));
            [|assumption].
          apply ascending_le; try assumption; lia. }
      rewrite (leb_ltb_false _ _ (Hall lo ltac:(lia))).
      apply floor_search_above; try assumption; lia.
Qed.

(** The lookup on the grid 1, 2, 4, 8 for the target 3. *)
Lemma binsearchapprox_floor_witness :
  let k := binsearchapprox [1; 2; 4; 8]%float 3%float 0 4 in
  0 <= k < 4 /\
  PrimFloat.leb (fget [1; 2; 4; 8]%float k) 3%float = true /\
  (k + 1 = 4 \/ PrimFloat.ltb 3%float (fget [1; 2; 4; 8]%float (k + 1)) = true).
Proof.
  assert (Hasc : ascending [1; 2; 4; 8]%float).
  { intros i Hi0 Hi. cbn [length] in Hi.
    assert (Hc : i = 0 \/ i = 1 \/ i = 2) by lia.
    destruct Hc as [->|[->| ->]]; vm_compute; reflexivity. }
  destruct (binsearchapprox_floor [1; 2; 4; 8]%float 3%float Hasc
              ltac:(vm_compute; discriminate)) as [H _].
  apply H; vm_compute; reflexivity.
Defined.

End WidthGrid.

(** ** Extinction grid builder: [computemolext] and [interpolmolext] *)

Module Extinction.

(** The parts of the run context the two routines read.  Arrays of
    structures ([isof[i].m], [isov[i].z[r]], [molec[j].d[r]]) are given
    field by field. *)
Record prop_samp := mk_samp {
  samp_n : Z;              (* n: number of elements *)
  samp_d : float;          (* d: spacing *)
  samp_i : float;          (* i: initial value *)
  samp_o : Z;              (* o: oversampling *)
  samp_v : list float      (* v: values *)
}.

Record isotopes := mk_iso {
  n_i : Z;
  imol : list Z;
  isof_m : list float;           (* isof[i].m *)
  isoratio : list float;
  isov_z : list (list float)     (* isov[i].z[r] *)
}.

Record molecules := mk_mol {
  nmol : Z;
  mol_ID : list Z;               (* ID *)
  radius : list float;
  mass : list float;
  molec_d : list (list float)    (* molec[j].d[r] *)
}.

Record line_transition := mk_lt {
  wl : list float;
  wfct : float;
  isoid : list Z;
  gf : list float;
  efct : float;
  elow : list float
}.

Record opacity := mk_op {
  profile : list (list (list float));
  profsize : list (list Z);
  aDop : list float;
  aLor : list float;
  nDop : Z;
  nLor : Z;
  op_temp : list float;          (* temp *)
  Ntemp : Z;
  molID : list Z;
  Nmol : Z;
  Nwave : Z;
  op_o : list (list (list (list float)))   (* o[m][t][r][i] *)
}.

Record extinction := mk_ex {
  ethresh : float;
  computed : list bool
}.

Record transit := mk_tr {
  wns : prop_samp;
  owns : prop_samp;
  atm_t : list float;            (* atm.t *)
  atm_tfct : float;              (* atm.tfct *)
  ndivs : Z;
  odivs : list Z;
  ds_iso : isotopes;
  ds_mol : molecules;
  ds_ex : extinction;
  ds_op : opacity;
  ds_lt : line_transition;       (* ds.li->lt *)
  n_l : Z                        (* ds.li->n_l *)
}.

(** The indices of [for (i = a; i < b; i++)]. *)
Definition zrange (a b : Z) : list Z :=
  map (fun k => a + Z.of_nat k) (seq 0 (Z.to_nat (b - a))).

Definition fget2 (a : list (list float)) (i j : Z) : float :=
  fget (get [] a i) j.
Definition zget2 (a : list (list Z)) (i j : Z) : Z :=
  zget (get [] a i) j.

(** [(int)x] for a double [x], with the x86-64 result outside the range. *)
Definition double_to_int (x : float) : Z :=
  match SFtrunc (Prim2SF x) with
  | Some z => if (- 2 ^ 31 <=? z) && (z <=? INT_MAX) then z else - 2 ^ 31
  | None => - 2 ^ 31
  end.

Definition one_tenth : float := 0x1.999999999999ap-4%float.

(** How a call ends when it need not return: it returns, or it reads or
    writes outside an array, or it divides an integer by zero. *)
Inductive run (A : Type) : Type :=
| Returns (a : A)
| Outside
| DivByZero.

Arguments Returns {A} a.
Arguments Outside {A}.
Arguments DivByZero {A}.

Definition bind {A B} (m : run A) (f : A -> run B) : run B :=
  match m with
  | Returns a => f a
  | Outside => Outside
  | DivByZero => DivByZero
  end.

(** The read [a[i]] of an array of [length a] elements. *)
Definition rd {A} (a : list A) (i : Z) : run A :=
  if (0 <=? i) && (i <? Z.of_nat (length a)) then
    match nth_error a (Z.to_nat i) with
    | Some x => Returns x
    | None => Outside
    end
  else Outside.

(** A loop over [l] whose body may not return. *)
Fixpoint run_fold {A B} (f : A -> B -> run A) (l : list B) (a : A) : run A :=
  match l with
  | [] => Returns a
  | x :: l => bind (f a x) (run_fold f l)
  end.

Section MolExt.

(** libm's [exp]; [downsample] and [valueinarray] of the repository's
    utility files; the physical constants of the headers. *)
Variable exp : float -> float.
Variable downsample : list float -> list float -> Z -> Z -> list float.
Variable valueinarray : list Z -> Z -> Z -> Z.
Variables KB AMU SQRTLN2 LS PI SIGCTE EXPCTE : float.

Local Open Scope float_scope.

Definition layer_temp (tr : transit) (r : Z) : float :=
  fget (atm_t tr) r * atm_tfct tr.

(** *** Widths of the isotopes in the layer *)

Record widths := mk_widths {
  alphal : list float;
  alphad : list float;
  idop : list Z;
  ilor : list Z;
  maxwidth : float;
  minwidth : float
}.

(** The sum over the collision partners [j] that gives [alphal[i]]
    before the factor [florentz]. *)
Definition alphal_sum (tr : transit) (r i : Z) : float :=
  let mol := ds_mol tr in
  let iso := ds_iso tr in
  fold_left
    (fun acc j =>
       let csdiameter := fget (radius mol) j + fget (radius mol) (zget (imol iso) i) in
       acc + fget2 (molec_d mol) j r / fget (mass mol) j * csdiameter * csdiameter *
             PrimFloat.sqrt (1 / fget (isof_m iso) i + 1 / fget (mass mol) j))
    (zrange 0 (nmol mol)) 0.

Definition widths_step (tr : transit) (r : Z) (fdoppler florentz : float)
    (w : widths) (i : Z) : widths :=
  let iso := ds_iso tr in
  let op := ds_op tr in
  let wn0 := fget (samp_v (wns tr)) 0 in
  let al := alphal_sum tr r i * florentz in
  let ad := fdoppler / PrimFloat.sqrt (fget (isof_m iso) i) in
  let maxw := fmax al (ad * wn0) in
  mk_widths (set (alphal w) i al) (set (alphad w) i ad)
            (set (idop w) i (WidthGrid.binsearchapprox (aDop op) (ad * wn0) 0 (nDop op)))
            (set (ilor w) i (WidthGrid.binsearchapprox (aLor op) al 0 (nLor op)))
            maxw (fmin (minwidth w) maxw).

Definition layer_widths (tr : transit) (r : Z) : widths :=
  let temp := layer_temp tr r in
  let niso := Z.to_nat (n_i (ds_iso tr)) in
  let fdoppler := PrimFloat.sqrt (2 * KB * temp / AMU) * SQRTLN2 / LS in
  let florentz := PrimFloat.sqrt (2 * KB * temp / PI / AMU) / (AMU * LS) in
  fold_left (widths_step tr r fdoppler florentz)
    (zrange 0 (n_i (ds_iso tr)))
    (mk_widths (repeat 0 niso) (repeat 0 niso) (repeat 0%Z niso) (repeat 0%Z niso)
               0 1e5).

(** *** Dynamic oversampling factor *)

(** Output and oversampled sampling intervals [dwn] and [odwn]. *)
Definition dwn (tr : transit) : float :=
  samp_d (wns tr) / long_to_double (samp_o (wns tr)).
Definition odwn (tr : transit) : float :=
  samp_d (owns tr) / long_to_double (samp_o (owns tr)).

(** The test of the scan: [odivs[i]*(dwn/owns.o) >= 0.5*minwidth]. *)
Definition too_coarse (tr : transit) (minw : float) (i : Z) : bool :=
  PrimFloat.leb (0.5 * minw)
    (long_to_double (zget (odivs tr) i) * (dwn tr / long_to_double (samp_o (owns tr)))).

(** [for (i=1; i < ndivs; i++) if (...) break;] with [todo] candidates
    still to visit; the result is the final [i]. *)
Fixpoint ofactor_scan (todo : nat) (tr : transit) (minw : float) (i : Z) : Z :=
  match todo with
  | O => i
  | S todo => if too_coarse tr minw i then i
              else ofactor_scan todo tr minw (i + 1)%Z
  end.

Definition ofactor_index (tr : transit) (minw : float) : Z :=
  ofactor_scan (Z.to_nat (ndivs tr - 1)) tr minw 1.

Definition select_ofactor (tr : transit) (minw : float) : Z :=
  zget (odivs tr) (ofactor_index tr minw - 1).

(** Dynamic-sampling interval [ddwn] and number of values [dnwn]. *)
Definition ddwn (tr : transit) (ofactor : Z) : float :=
  odwn tr * long_to_double ofactor.
Definition dnwn (tr : transit) (ofactor : Z) : Z :=
  (1 + Z.quot (samp_n (owns tr) - 1) ofactor)%Z.

(** *** Line strengths *)

Definition line_wavn (tr : transit) (ln : Z) : float :=
  1 / (fget (wl (ds_lt tr)) ln * wfct (ds_lt tr)).

(** The extinction coefficient of line [ln] of isotope [i] at wavenumber
    [wavn], except for the broadening factor. *)
Definition line_strength (tr : transit) (r : Z) (temp : float)
    (ln : Z) (wavn : float) (i : Z) : float :=
  let mol := ds_mol tr in
  let iso := ds_iso tr in
  let lt := ds_lt tr in
  fget2 (molec_d mol) (zget (imol iso) i) r * fget (isoratio iso) i *
  SIGCTE * fget (gf lt) ln *
  exp (- EXPCTE * efct lt * fget (elow lt) ln / temp) *
  (1 - exp (- EXPCTE * wavn / temp)) /
  fget (isof_m iso) i /
  fget2 (isov_z iso) i r.

(** Lines outside the sampled wavenumbers are skipped. *)
Definition out_of_range (tr : transit) (wavn : float) : bool :=
  PrimFloat.ltb wavn (samp_i (wns tr)) ||
  PrimFloat.ltb (fget (samp_v (owns tr)) (samp_n (owns tr) - 1)) wavn.

(** First pass: the largest and smallest line strength [(kmax, kmin)].
    The declaration is [double kmax=0, kmin;]: [kmin] has no value
    ([None]) until a line inside the range assigns it. *)
Definition kmax_step (tr : transit) (r : Z) (temp : float)
    (k : float * option float) (ln : Z) : float * option float :=
  let wavn := line_wavn tr ln in
  let i := zget (isoid (ds_lt tr)) ln in
  if out_of_range tr wavn then k
  else
    let propto_k := line_strength tr r temp ln wavn i in
    if PrimFloat.eqb (fst k) 0 then (propto_k, Some propto_k)
    else (fmax (fst k) propto_k,
          option_map (fun kmin => fmin kmin propto_k) (snd k)).

Definition kmax_kmin (tr : transit) (r : Z) (temp : float)
  : float * option float :=
  fold_left (kmax_step tr r temp) (zrange 0 (n_l tr)) (0, None).

(** *** Second pass: co-adding, culling and the profile *)

(** The guard of the co-adding loop together with the test inside it:
    line [ln+1] exists, belongs to isotope [i], and its wavenumber is
    closer than [odwn] to the oversampled wavenumber [owns.v[iown]]. *)
Definition next_is_same_isotope (tr : transit) (i ln : Z) : bool :=
  negb (ln =? n_l tr - 1)%Z && (zget (isoid (ds_lt tr)) (ln + 1) =? i)%Z.

Definition next_in_same_bin (tr : transit) (iown ln : Z) : bool :=
  PrimFloat.ltb
    (fabs (line_wavn tr (ln + 1) - fget (samp_v (owns tr)) iown))
    (odwn tr).

(** [while (ln != nlines-1 && lt->isoid[ln+1] == i) { ... }]: the line
    index, the tally of co-added lines and [propto_k] when the loop is
    left.  [todo] is the number of lines after [ln]. *)
Fixpoint coadd (todo : nat) (tr : transit) (r : Z) (temp : float)
    (i iown : Z) (ln nadd : Z) (propto_k : float) : Z * Z * float :=
  match todo with
  | O => (ln, nadd, propto_k)
  | S todo =>
      if next_is_same_isotope tr i ln then
        let next_wn := line_wavn tr (ln + 1) in
        if next_in_same_bin tr iown ln then
          coadd todo tr r temp i iown (ln + 1)%Z (nadd + 1)%Z
                (propto_k + line_strength tr r temp (ln + 1) next_wn i)
        else (ln, nadd, propto_k)
      else (ln, nadd, propto_k)
  end.

(** Index of the oversampled wavenumber closest to [wavn]. *)
Definition closest_iown (tr : transit) (wavn : float) : Z :=
  let iown := double_to_int ((wavn - samp_i (wns tr)) / odwn tr) in
  if PrimFloat.ltb (fabs (wavn - fget (samp_v (owns tr)) (iown + 1)))
                   (fabs (wavn - fget (samp_v (owns tr)) iown))
  then (iown + 1)%Z else iown.

(** What the second pass carries from line to line. *)
Record pass2 := mk_pass2 {
  ktmp : list float;
  p_idop : list Z;
  nadd : Z;
  nskip : Z;
  neval : Z
}.

(** Adding the profile of one retained line to [ktmp]. *)
Definition add_profile (tr : transit) (w : widths) (ofactor dnwn_ : Z)
    (i iown idwn : Z) (idop_ : list Z) (propto_k : float)
    (ktmp_ : list float) : list float :=
  let op := ds_op tr in
  let di := zget idop_ i in
  let li := zget (ilor w) i in
  let psize := zget2 (profsize op) di li in
  let subw := (iown - idwn * ofactor)%Z in
  let offset := (ofactor * idwn - psize + subw)%Z in
  let minj := (idwn - Z.quot (psize - subw) ofactor)%Z in
  let maxj := (idwn + Z.quot (psize + subw) ofactor)%Z in
  let minj := if (minj <? 0)%Z then 0%Z else minj in
  let maxj := if (maxj >? dnwn_)%Z then dnwn_ else maxj in
  fold_left
    (fun k j =>
       set k j (fget k j +
                propto_k * fget (get [] (get [] (profile op) di) li)
                                (ofactor * j - offset)))
    (zrange minj maxj) ktmp_.

(** The body of the second loop for line [ln]: the index of the last
    line it consumed and the new state. *)
Definition line_body (tr : transit) (r : Z) (temp : float) (w : widths)
    (ofactor : Z) (kmax : float) (ln : Z) (st : pass2) : Z * pass2 :=
  let wavn := line_wavn tr ln in
  let i := zget (isoid (ds_lt tr)) ln in
  if out_of_range tr wavn then (ln, st)
  else
    let propto_k := line_strength tr r temp ln wavn i in
    let iown := closest_iown tr wavn in
    let '(ln, nadd_, propto_k) :=
      coadd (Z.to_nat (n_l tr - 1 - ln)) tr r temp i iown ln (nadd st) propto_k in
    if PrimFloat.ltb propto_k (ethresh (ds_ex tr) * kmax) then
      (ln, mk_pass2 (ktmp st) (p_idop st) nadd_ (nskip st + 1) (neval st))
    else
      let idwn := double_to_int ((wavn - samp_i (wns tr)) / ddwn tr ofactor) in
      let idop_ :=
        if PrimFloat.leb one_tenth
             (fget (alphad w) i * wavn / fget (alphal w) i)
        then set (p_idop st) i
               (WidthGrid.binsearchapprox (aDop (ds_op tr))
                  (fget (alphad w) i * wavn) 0 (nDop (ds_op tr)))
        else p_idop st in
      (ln, mk_pass2
             (add_profile tr w ofactor (dnwn tr ofactor) i iown idwn idop_
                          propto_k (ktmp st))
             idop_ nadd_ (nskip st) (neval st + 1)).

(** [for (ln=0; ln<nlines; ln++) { ... }] where the body may advance
    [ln] itself; [fuel] bounds the number of rounds. *)
Fixpoint pass2_loop (fuel : nat) (tr : transit) (r : Z) (temp : float)
    (w : widths) (ofactor : Z) (kmax : float) (ln : Z) (st : pass2) : pass2 :=
  match fuel with
  | O => st
  | S fuel =>
      if (ln <? n_l tr)%Z then
        let '(ln', st') := line_body tr r temp w ofactor kmax ln st in
        pass2_loop fuel tr r temp w ofactor kmax (ln' + 1)%Z st'
      else st
  end.

(** [computemolext(tr, r, kiso)]: the returned status, the array [kiso]
    and the extinction structure [tr->ds.ex] afterwards.  The integer
    division of [dnwn = 1 + (onwn-1)/ofactor], the first by the selected
    factor, does not return when the factor is 0.  Reads outside an
    array are not followed here (see [get]); [downsample] is given as
    the row it leaves in [kiso[r]]. *)
Definition computemolext (tr : transit) (r : Z) (kiso : list (list float))
  : run (Z * list (list float) * extinction) :=
  let temp := layer_temp tr r in
  let w := layer_widths tr r in
  let ofactor := select_ofactor tr (minwidth w) in
  if (ofactor =? 0)%Z then DivByZero
  else
    let kmax := fst (kmax_kmin tr r temp) in
    let st :=
      pass2_loop (Z.to_nat (n_l tr)) tr r temp w ofactor kmax 0
        (mk_pass2 (repeat 0 (Z.to_nat (samp_n (owns tr)))) (idop w) 0 0 0) in
    let row := downsample (ktmp st) (get [] kiso r) (dnwn tr ofactor)
                          (Z.quot (samp_o (owns tr)) ofactor) in
    Returns (0%Z, set kiso r row,
             mk_ex (ethresh (ds_ex tr)) (set (computed (ds_ex tr)) r true)).

(** *** Interpolation of the opacity grid *)

Definition interpol_itemp (tr : transit) (temp : float) : Z :=
  let op := ds_op tr in
  let itemp := WidthGrid.binsearchapprox (op_temp op) temp 0 (Ntemp op) in
  if PrimFloat.ltb temp (fget (op_temp op) itemp) then (itemp - 1)%Z else itemp.

Definition interpol_ext (tr : transit) (r : Z) (temp : float) (itemp : Z)
    (m i : Z) : float :=
  let op := ds_op tr in
  let gtemp := op_temp op in
  let o_ := fun t => fget (get [] (get [] (get [] (op_o op) m) t) r) i in
  (o_ itemp * (fget gtemp (itemp + 1) - temp) +
   o_ (itemp + 1)%Z * (temp - fget gtemp itemp)) /
  (fget gtemp (itemp + 1) - fget gtemp itemp).

Definition interpol_row (tr : transit) (r : Z) (temp : float) (itemp : Z)
    (row : list float) : list float :=
  let op := ds_op tr in
  let mol := ds_mol tr in
  fold_left
    (fun row i =>
       fold_left
         (fun row m =>
            let ext := interpol_ext tr r temp itemp m i in
            let imol_ := valueinarray (mol_ID mol) (zget (molID op) m) (nmol mol) in
            set row i (fget row i + fget2 (molec_d mol) imol_ r * ext))
         (zrange 0 (Nmol op)) row)
    (zrange 0 (Nwave op)) row.

Definition interpolmolext (tr : transit) (r : Z) (kiso : list (list float))
  : Z * list (list float) * extinction :=
  let temp := layer_temp tr r in
  let itemp := interpol_itemp tr temp in
  (0%Z, set kiso r (interpol_row tr r temp itemp (get [] kiso r)),
   mk_ex (ethresh (ds_ex tr)) (set (computed (ds_ex tr)) r true)).

(** *** [interpolmolext] with every array access followed

    The same statements with each array as the object it is: a read or
    a write at an index outside the array ends the run in [Outside].
    The searches inside [binsearchapprox] and [valueinarray] and the
    arguments of the [transitprint] message are not followed. *)

(** [kiso[r][i] += mol->molec[imol].d[r] * ext] with [ext] read from
    [o[m][itemp]], [o[m][itemp+1]], [gtemp[itemp]] and [gtemp[itemp+1]]. *)
Definition interpol_cell_run (tr : transit) (r : Z) (temp : float) (itemp : Z)
    (kiso : list (list float)) (i m : Z) : run (list (list float)) :=
  let op := ds_op tr in
  let mol := ds_mol tr in
  let gtemp := op_temp op in
  bind (rd (op_o op) m) (fun om =>
  bind (rd om itemp) (fun o0 =>
  bind (rd o0 r) (fun o0r =>
  bind (rd o0r i) (fun a =>
  bind (rd gtemp (itemp + 1)%Z) (fun t1 =>
  bind (rd om (itemp + 1)%Z) (fun o1 =>
  bind (rd o1 r) (fun o1r =>
  bind (rd o1r i) (fun b =>
  bind (rd gtemp itemp) (fun t0 =>
  let ext := (a * (t1 - temp) + b * (temp - t0)) / (t1 - t0) in
  bind (rd (molID op) m) (fun g =>
  let imol_ := valueinarray (mol_ID mol) g (nmol mol) in
  bind (rd (molec_d mol) imol_) (fun d =>
  bind (rd d r) (fun dr =>
  bind (rd kiso r) (fun row =>
  bind (rd row i) (fun old =>
  Returns (set kiso r (set row i (old + dr * ext))))))))))))))))).

Definition interpol_rows_run (tr : transit) (r : Z) (temp : float) (itemp : Z)
    (kiso : list (list float)) : run (list (list float)) :=
  run_fold
    (fun kiso i =>
       run_fold (fun kiso m => interpol_cell_run tr r temp itemp kiso i m)
                (zrange 0 (Nmol (ds_op tr))) kiso)
    (zrange 0 (Nwave (ds_op tr))) kiso.

Definition interpolmolext_run (tr : transit) (r : Z) (kiso : list (list float))
  : run (Z * list (list float) * extinction) :=
  let op := ds_op tr in
  bind (rd (atm_t tr) r) (fun t =>
  let temp := t * atm_tfct tr in
  let itemp := WidthGrid.binsearchapprox (op_temp op) temp 0 (Ntemp op) in
  bind (rd (op_temp op) itemp) (fun g =>
  let itemp := if PrimFloat.ltb temp g then (itemp - 1)%Z else itemp in
  bind (interpol_rows_run tr r temp itemp kiso) (fun kiso' =>
  if (0 <=? r)%Z && (r <? Z.of_nat (length (computed (ds_ex tr))))%Z then
    Returns (0%Z, kiso',
             mk_ex (ethresh (ds_ex tr)) (set (computed (ds_ex tr)) r true))
  else Outside))).

End MolExt.

(** *** A small layer for examples

    One molecule, one isotope, three lines and a five-point oversampled
    grid, with stand-ins for the external functions. *)

Definition exp_series (x : float) : float := (1 + x + x * x / 2)%float.

Definition downsample_stride (input out : list float) (n scale : Z)
  : list float :=
  map (fun k => fget input (Z.of_nat k * scale)) (seq 0 (length out)).

Definition valueinarray_none (a : list Z) (v n : Z) : Z := 0.

Definition tr_ex : transit :=
  mk_tr (mk_samp 3 1%float 10%float 1 [10; 11; 12]%float)
        (mk_samp 5 1%float 10%float 2 [10; 10.5; 11; 11.5; 12]%float)
        [100]%float 1%float
        2 [1; 2]
        (mk_iso 1 [0] [2]%float [1]%float [[1]%float])
        (mk_mol 1 [7] [1]%float [2]%float [[1]%float])
        (mk_ex 0%float [false])
        (mk_op [[[0.25; 0.5; 0.25]%float]] [[1]] [1]%float [1]%float 1 1
               [50; 150]%float 2 [7] 1 3
               [[[[1; 1; 1]%float]; [[3; 3; 3]%float]]])
        (mk_lt [0.09375; 0.09375; 0.0859375]%float 1%float [0; 0; 0]
               [1; 1; 1]%float 1%float [0; 0; 0]%float)
        3.

Definition computemolext_ex :=
  computemolext exp_series downsample_stride 1 1 1 1 1 1 1 tr_ex 0
                [[0; 0; 0]%float].

Definition interpolmolext_ex :=
  interpolmolext valueinarray_none tr_ex 0 [[0; 0; 0]%float].

Example interpolmolext_ex_row :
  interpolmolext_ex = (0, [[2; 2; 2]%float], mk_ex 0%float [true]).
Proof. vm_compute. reflexivity. Qed.

Example coadd_ex :
  fst (coadd exp_series 1 1 (Z.to_nat (n_l tr_ex - 1 - 0)) tr_ex 0 100%float
             0 1 0 0 1%float)
  = (1, 1).
Proof. vm_compute. reflexivity. Qed.

(** *** Properties *)

Import FloatOrder.

Lemma zrange_nil a b : b <= a -> zrange a b = [].
Proof.
  intros H. unfold zrange. replace (Z.to_nat (b - a)) with O by lia. reflexivity.
Qed.

Lemma zrange_cons a b : a < b -> zrange a b = a :: zrange (a + 1) b.
Proof.
  intros H. unfold zrange.
  replace (Z.to_nat (b - a)) with (S (Z.to_nat (b - (a + 1)))) by lia.
  cbn [seq map]. f_equal; [lia|].
  rewrite <- seq_shift, map_map. apply map_ext. intros k. lia.
Qed.

(** The product that the scan compares with half the minimum width. *)
Definition candidate_step (tr : transit) (j : Z) : float :=
  (long_to_double (zget (odivs tr) j) *
   (dwn tr / long_to_double (samp_o (owns tr))))%float.

Lemma ofactor_scan_spec todo tr minw i :
  let k := ofactor_scan todo tr minw i in
  i <= k <= i + Z.of_nat todo /\
  (forall j, i <= j < k -> too_coarse tr minw j = false) /\
  (k < i + Z.of_nat todo -> too_coarse tr minw k = true).
Proof.
  revert i. induction todo as [|todo IH]; intros i; cbn [ofactor_scan].
  - cbv zeta. repeat split; try lia.
  - destruct (too_coarse tr minw i) eqn:E.
    + cbv zeta. repeat split; try lia. intros _. exact E.
    + specialize (IH (i + 1)). cbv zeta in IH |- *.
      destruct IH as (Hr & Hpass & Hfail).
      repeat split; try lia.
      * intros j Hj. destruct (Z.eq_dec j i) as [->|Hne]; [exact E|].
        apply Hpass. lia.
      * intros Hk. apply Hfail. lia.
Qed.

Section MolExtFacts.

Variable exp : float -> float.
Variable downsample : list float -> list float -> Z -> Z -> list float.
Variable valueinarray : list Z -> Z -> Z -> Z.
Variables KB AMU SQRTLN2 LS PI SIGCTE EXPCTE : float.

(** [propto_k] after the lines [ln+1 .. ln'] have been added to it. *)
Definition merged_strength (tr : transit) (r : Z) (temp : float) (i : Z)
    (ln ln' : Z) (propto_k : float) : float :=
  fold_left
    (fun acc k =>
       (acc + line_strength exp SIGCTE EXPCTE tr r temp (k + 1)
                            (line_wavn tr (k + 1)) i)%float)
    (zrange ln ln') propto_k.

Lemma coadd_spec todo tr r temp i iown ln nadd0 pk0 :
  let res := coadd exp SIGCTE EXPCTE todo tr r temp i iown ln nadd0 pk0 in
  let ln' := fst (fst res) in
  ln <= ln' <= ln + Z.of_nat todo /\
  snd (fst res) = nadd0 + (ln' - ln) /\
  (forall k, ln <= k < ln' ->
     next_is_same_isotope tr i k = true /\ next_in_same_bin tr iown k = true) /\
  (ln' < ln + Z.of_nat todo ->
     next_is_same_isotope tr i ln' = false \/
     next_in_same_bin tr iown ln' = false) /\
  snd res = merged_strength tr r temp i ln ln' pk0.
Proof.
  revert ln nadd0 pk0. induction todo as [|todo IH]; intros ln nadd0 pk0.
  - cbn [coadd fst snd]. cbv zeta. unfold merged_strength.
    rewrite zrange_nil by lia. repeat split; try lia.
  - cbn [coadd].
    destruct (next_is_same_isotope tr i ln) eqn:Eg;
      [destruct (next_in_same_bin tr iown ln) eqn:Eb|].
    + specialize (IH (ln + 1) (nadd0 + 1)
                     (pk0 + line_strength exp SIGCTE EXPCTE tr r temp (ln + 1)
                                          (line_wavn tr (ln + 1)) i)%float).
      cbv zeta in IH |- *.
      destruct IH as (Hr & Hn & Hall & Hstop & Hpk).
      repeat split; try lia.
      * destruct (Z.eq_dec k ln) as [->|Hne]; [exact Eg|]. apply Hall. lia.
      * destruct (Z.eq_dec k ln) as [->|Hne]; [exact Eb|]. apply Hall. lia.
      * intros Hlt. apply Hstop. lia.
      * rewrite Hpk. unfold merged_strength.
        rewrite (zrange_cons ln) by lia. reflexivity.
    + cbn [fst snd]. cbv zeta. unfold merged_strength.
      rewrite zrange_nil by lia. repeat split; try lia. intros _. right. exact Eb.
    + cbn [fst snd]. cbv zeta. unfold merged_strength.
      rewrite zrange_nil by lia. repeat split; try lia. intros _. left. exact Eg.
Qed.

Lemma line_body_advance tr r temp w ofactor kmax ln st :
  ln <= fst (line_body exp SIGCTE EXPCTE tr r temp w ofactor kmax ln st).
Proof.
  unfold line_body.
  destruct (out_of_range tr (line_wavn tr ln)); [cbn [fst]; lia|].
  pose proof (coadd_spec (Z.to_nat (n_l tr - 1 - ln)) tr r temp
                (zget (isoid (ds_lt tr)) ln)
                (closest_iown tr (line_wavn tr ln)) ln (nadd st)
                (line_strength exp SIGCTE EXPCTE tr r temp ln (line_wavn tr ln)
                               (zget (isoid (ds_lt tr)) ln))) as H.
  cbv zeta in H. destruct H as (Hr & _).
  destruct (coadd _ _ _ _ _ _ _ _ _ _ _ _) as [[ln' nadd'] pk'].
  cbn [fst] in Hr.
  destruct (PrimFloat.ltb pk' _); cbn [fst]; lia.
Qed.

(** The rounds allotted to the second loop are enough: more of them
    change nothing. *)
Lemma pass2_loop_fuel fuel extra tr r temp w ofactor kmax ln st :
  n_l tr - ln <= Z.of_nat fuel ->
  pass2_loop exp SIGCTE EXPCTE (fuel + extra) tr r temp w ofactor kmax ln st
  = pass2_loop exp SIGCTE EXPCTE fuel tr r temp w ofactor kmax ln st.
Proof.
  revert ln st. induction fuel as [|fuel IH]; intros ln st Hf.
  - cbn [Nat.add pass2_loop]. destruct extra; cbn [pass2_loop]; [reflexivity|].
    destruct (Z.ltb_spec ln (n_l tr)); [lia|reflexivity].
  - cbn [Nat.add pass2_loop].
    destruct (Z.ltb_spec ln (n_l tr)); [|reflexivity].
    pose proof (line_body_advance tr r temp w ofactor kmax ln st) as Hadv.
    destruct (line_body _ _ _ _ _ _ _ _ _ _ _) as [ln' st'].
    cbn [fst] in Hadv. apply IH. lia.
Qed.

(** The scan of the candidates for any minimum width. *)
Lemma select_ofactor_spec tr minw :
  1 <= ndivs tr ->
  let k := ofactor_index tr minw - 1 in
  0 <= k < ndivs tr /\
  select_ofactor tr minw = zget (odivs tr) k /\
  (forall j, 1 <= j <= k -> too_coarse tr minw j = false) /\
  (k + 1 < ndivs tr -> too_coarse tr minw (k + 1) = true) /\
  ((forall a b, 1 <= a <= b -> b < ndivs tr ->
      PrimFloat.leb (candidate_step tr a) (candidate_step tr b) = true) ->
   forall j, k < j < ndivs tr -> too_coarse tr minw j = true).
Proof.
  intros Hn k. subst k. unfold select_ofactor, ofactor_index.
  pose proof (ofactor_scan_spec (Z.to_nat (ndivs tr - 1)) tr minw 1) as H.
  cbv zeta in H. destruct H as (Hr & Hpass & Hfail).
  set (idx := ofactor_scan (Z.to_nat (ndivs tr - 1)) tr minw 1) in *.
  repeat split; try lia.
  - intros j Hj. apply Hpass. lia.
  - intros Hk. replace (idx - 1 + 1) with idx by lia. apply Hfail. lia.
  - intros Hmono j Hj.
    assert (Hidx : too_coarse tr minw idx = true) by (apply Hfail; lia).
    unfold too_coarse in *. fold (candidate_step tr idx) in Hidx.
    fold (candidate_step tr j).
    destruct (Z.eq_dec j idx) as [->|Hne]; [exact Hidx|].
    apply leb_trans with (candidate_step tr idx); [exact Hidx|].
    apply Hmono; lia.
Qed.

(** C5, amended.  With at least one candidate, the dynamic oversampling
    factor of a layer is the candidate [odivs[k]] that precedes the first
    candidate, in a scan in ascending order that starts at the second
    one, whose product with [dwn/owns.o] is not below half the minimum
    width of the layer (the last candidate when the scan finds none).
    Every candidate from the second up to [odivs[k]] has its product
    below that half width; the candidate after [odivs[k]] has not; and
    when the products ascend along the list no later candidate has, so
    that [odivs[k]] is then the largest tested candidate whose product is
    still below.  The first candidate is never tested.  The dynamic-grid
    spacing is the oversampled spacing [odwn] times the factor. *)
Theorem ofactor_selection tr r :
  1 <= ndivs tr ->
  let minw := minwidth (layer_widths KB AMU SQRTLN2 LS PI tr r) in
  let half := (0.5 * minw)%float in
  let ofactor := select_ofactor tr minw in
  let k := ofactor_index tr minw - 1 in
  0 <= k < ndivs tr /\
  ofactor = zget (odivs tr) k /\
  (forall j, 1 <= j <= k -> PrimFloat.leb half (candidate_step tr j) = false) /\
  (is_num half -> forall j, 1 <= j <= k -> is_num (candidate_step tr j) ->
     PrimFloat.ltb (candidate_step tr j) half = true) /\
  (k + 1 < ndivs tr ->
     PrimFloat.leb half (candidate_step tr (k + 1)) = true) /\
  ((forall a b, 1 <= a <= b -> b < ndivs tr ->
      PrimFloat.leb (candidate_step tr a) (candidate_step tr b) = true) ->
   forall j, k < j < ndivs tr ->
     PrimFloat.ltb (candidate_step tr j) half = false) /\
  ddwn tr ofactor = (odwn tr * long_to_double ofactor)%float.
Proof.
  intros Hn minw half ofactor k.
  destruct (select_ofactor_spec tr minw Hn)
    as (Hk & Hsel & Hpass & Hfail & Hlater).
  fold k in Hk, Hsel, Hpass, Hfail, Hlater.
  repeat apply conj; try lia; try assumption; try reflexivity.
  - intros Hhalf j Hj Hnum. apply leb_false_ltb; try assumption.
    apply (Hpass j). lia.
  - intros Hmono j Hj. apply leb_ltb_false. apply (Hlater Hmono j). lia.
Qed.

(** C7.  In the second pass, for a line [ln] inside the sampled range,
    the lines [ln+1 .. ln'] that are added to its [propto_k] are exactly
    the run of directly following lines that belong to the same isotope
    and whose wavenumber differs by less than the oversampled spacing
    [odwn] from [owns.v[iown]], the oversampled wavenumber nearest to
    line [ln]: each line of the run meets both conditions, and the run
    ends at the last line of the list or at the first line that is of
    another isotope or is too far.  The spacing is [owns.d/owns.o].  The
    index [iown] is the truncated grid position
    [(wavn - wns.i)/odwn] of the line or the one after it, the one whose
    wavenumber is nearer to the line (the lower one when both are as
    near).  The culling test and the profile are applied afterwards, to
    the sum. *)
Theorem coadd_same_bin tr r temp w ofactor kmax ln st :
  0 <= ln < n_l tr ->
  out_of_range tr (line_wavn tr ln) = false ->
  let i := zget (isoid (ds_lt tr)) ln in
  let iown := closest_iown tr (line_wavn tr ln) in
  let propto_k0 :=
    line_strength exp SIGCTE EXPCTE tr r temp ln (line_wavn tr ln) i in
  let res := coadd exp SIGCTE EXPCTE (Z.to_nat (n_l tr - 1 - ln)) tr r temp
                   i iown ln (nadd st) propto_k0 in
  let ln' := fst (fst res) in
  let propto_k := snd res in
  let body := line_body exp SIGCTE EXPCTE tr r temp w ofactor kmax ln st in
  let i0 :=
    double_to_int ((line_wavn tr ln - samp_i (wns tr)) / odwn tr)%float in
  let dist := fun k =>
    fabs (line_wavn tr ln - fget (samp_v (owns tr)) k)%float in
  odwn tr = (samp_d (owns tr) / long_to_double (samp_o (owns tr)))%float /\
  (PrimFloat.ltb (dist (i0 + 1)) (dist i0) = true -> iown = i0 + 1) /\
  (PrimFloat.ltb (dist (i0 + 1)) (dist i0) = false -> iown = i0) /\
  (is_num (dist i0) -> is_num (dist (i0 + 1)) ->
   PrimFloat.leb (dist iown) (dist i0) = true /\
   PrimFloat.leb (dist iown) (dist (i0 + 1)) = true) /\
  ln <= ln' <= n_l tr - 1 /\
  (forall k, ln <= k < ln' ->
     zget (isoid (ds_lt tr)) (k + 1) = i /\
     PrimFloat.ltb (fabs (line_wavn tr (k + 1) - fget (samp_v (owns tr)) iown))
                   (odwn tr) = true) /\
  (ln' = n_l tr - 1 \/
   zget (isoid (ds_lt tr)) (ln' + 1) <> i \/
   PrimFloat.ltb (fabs (line_wavn tr (ln' + 1) - fget (samp_v (owns tr)) iown))
                 (odwn tr) = false) /\
  propto_k = merged_strength tr r temp i ln ln' propto_k0 /\
  fst body = ln' /\
  nadd (snd body) = nadd st + (ln' - ln) /\
  (PrimFloat.ltb propto_k (ethresh (ds_ex tr) * kmax) = true ->
   ktmp (snd body) = ktmp st /\ nskip (snd body) = nskip st + 1) /\
  (PrimFloat.ltb propto_k (ethresh (ds_ex tr) * kmax) = false ->
   ktmp (snd body)
   = add_profile tr w ofactor (dnwn tr ofactor) i iown
       (double_to_int ((line_wavn tr ln - samp_i (wns tr)) / ddwn tr ofactor))
       (p_idop (snd body)) propto_k (ktmp st) /\
   neval (snd body) = neval st + 1).
Proof.
  intros Hln Hin i iown propto_k0 res ln' propto_k body i0 dist.
  assert (Hnear :
    (PrimFloat.ltb (dist (i0 + 1)) (dist i0) = true -> iown = i0 + 1) /\
    (PrimFloat.ltb (dist (i0 + 1)) (dist i0) = false -> iown = i0) /\
    (is_num (dist i0) -> is_num (dist (i0 + 1)) ->
     PrimFloat.leb (dist iown) (dist i0) = true /\
     PrimFloat.leb (dist iown) (dist (i0 + 1)) = true)).
  { subst iown. unfold closest_iown. fold i0. fold (dist (i0 + 1)) (dist i0).
    destruct (PrimFloat.ltb (dist (i0 + 1)) (dist i0)) eqn:E.
    - repeat apply conj; try reflexivity; try discriminate.
      intros _ Hn1. split; [apply ltb_leb; exact E|exact Hn1].
    - repeat apply conj; try reflexivity; try discriminate.
      intros Hn0 Hn1. split; [exact Hn0|].
      apply ltb_false_leb; assumption. }
  destruct Hnear as (Hup & Hlow & Hnearest).
  split; [reflexivity|]. split; [exact Hup|]. split; [exact Hlow|].
  split; [exact Hnearest|]. clear Hup Hlow Hnearest.
  pose proof (coadd_spec (Z.to_nat (n_l tr - 1 - ln)) tr r temp i iown ln
                (nadd st) propto_k0) as H.
  cbv zeta in H. fold res in H. fold ln' in H. fold propto_k in H.
  destruct H as (Hr & Hn & Hall & Hstop & Hpk).
  assert (Hbody : body =
    (ln', if PrimFloat.ltb propto_k (ethresh (ds_ex tr) * kmax)
          then mk_pass2 (ktmp st) (p_idop st) (snd (fst res)) (nskip st + 1)
                        (neval st)
          else
            let idwn := double_to_int
                          ((line_wavn tr ln - samp_i (wns tr)) / ddwn tr ofactor) in
            let idop_ :=
              if PrimFloat.leb one_tenth
                   (fget (alphad w) i * line_wavn tr ln / fget (alphal w) i)
              then set (p_idop st) i
                     (WidthGrid.binsearchapprox (aDop (ds_op tr))
                        (fget (alphad w) i * line_wavn tr ln) 0 (nDop (ds_op tr)))
              else p_idop st in
            mk_pass2
              (add_profile tr w ofactor (dnwn tr ofactor) i iown idwn idop_
                           propto_k (ktmp st))
              idop_ (snd (fst res)) (nskip st) (neval st + 1))).
  { subst body. unfold line_body. rewrite Hin.
    fold i. fold iown. fold propto_k0. fold res.
    subst ln' propto_k. destruct res as [[a b] c]. cbn [fst snd].
    destruct (PrimFloat.ltb c _); reflexivity. }
  rewrite Hbody. cbn [fst snd].
  repeat apply conj; try lia.
  - intros k Hk. apply Hall in Hk. destruct Hk as [Hg Hb]. split; [|exact Hb].
    unfold next_is_same_isotope in Hg.
    apply andb_true_iff in Hg. destruct Hg as [_ Hg]. lia.
  - destruct (Z.eq_dec ln' (n_l tr - 1)) as [He|Hne]; [left; exact He|].
    right. destruct Hstop as [Hg|Hb]; [lia| |right; exact Hb].
    left. unfold next_is_same_isotope in Hg.
    apply andb_false_iff in Hg. destruct Hg as [Hg|Hg]; lia.
  - exact Hpk.
  - destruct (PrimFloat.ltb propto_k _); cbn [nadd]; lia.
  - intros H. rewrite H. split; reflexivity.
  - intros H. rewrite H. split; reflexivity.
Qed.

(** *** The followed run of [interpolmolext] against the plain one *)

Lemma bind_Returns {A B} (m : run A) (f : A -> run B) (y : B) :
  bind m f = Returns y -> exists x, m = Returns x /\ f x = Returns y.
Proof.
  destruct m as [x| |]; cbn [bind]; intros H; try discriminate.
  exists x. split; [reflexivity|exact H].
Qed.

Lemma rd_Returns {A} (d : A) (a : list A) (i : Z) (x : A) :
  rd a i = Returns x -> 0 <= i < Z.of_nat (length a) /\ get d a i = x.
Proof.
  unfold rd, get.
  destruct (Z.leb_spec 0 i), (Z.ltb_spec i (Z.of_nat (length a)));
    cbn [andb]; try discriminate.
  destruct (nth_error a (Z.to_nat i)) eqn:E; [|discriminate].
  intros [= ->]. split; [lia|].
  destruct (Z.ltb_spec i 0); [lia|]. apply nth_error_nth. exact E.
Qed.

Lemma set_get_same {A} (d : A) (k : list A) (r : Z) :
  set k r (get d k r) = k.
Proof.
  unfold set, get. destruct (Z.ltb_spec r 0); [reflexivity|].
  apply list_insert_id'. intros Hlt. rewrite nth_lookup.
  destruct (lookup_lt_is_Some_2 k (Z.to_nat r) Hlt) as [x Hx].
  rewrite Hx. reflexivity.
Qed.

Lemma set_set {A} (k : list A) (r : Z) (a b : A) :
  set (set k r a) r b = set k r b.
Proof.
  unfold set. destruct (Z.ltb_spec r 0); [reflexivity|].
  apply list_insert_insert_eq.
Qed.

(** What one round of the inner loop does to the row. *)
Definition cell_update (tr : transit) (r : Z) (temp : float) (itemp : Z)
    (i : Z) (row : list float) (m : Z) : list float :=
  set row i
      (fget row i +
       fget2 (molec_d (ds_mol tr))
             (valueinarray (mol_ID (ds_mol tr)) (zget (molID (ds_op tr)) m)
                           (nmol (ds_mol tr))) r
       * interpol_ext tr r temp itemp m i)%float.

Lemma interpol_cell_run_agrees tr r temp itemp k i m k' :
  interpol_cell_run valueinarray tr r temp itemp k i m = Returns k' ->
  0 <= r < Z.of_nat (length k) /\
  k' = set k r (cell_update tr r temp itemp i (get [] k r) m).
Proof.
  unfold interpol_cell_run. intros H.
  apply bind_Returns in H. destruct H as (om & Hom & H).
  apply (rd_Returns []) in Hom. destruct Hom as [_ Hom].
  apply bind_Returns in H. destruct H as (o0 & Ho0 & H).
  apply (rd_Returns []) in Ho0. destruct Ho0 as [_ Ho0].
  apply bind_Returns in H. destruct H as (o0r & Ho0r & H).
  apply (rd_Returns []) in Ho0r. destruct Ho0r as [_ Ho0r].
  apply bind_Returns in H. destruct H as (a & Ha & H).
  apply (rd_Returns 0%float) in Ha. destruct Ha as [_ Ha].
  apply bind_Returns in H. destruct H as (t1 & Ht1 & H).
  apply (rd_Returns 0%float) in Ht1. destruct Ht1 as [_ Ht1].
  apply bind_Returns in H. destruct H as (o1 & Ho1 & H).
  apply (rd_Returns []) in Ho1. destruct Ho1 as [_ Ho1].
  apply bind_Returns in H. destruct H as (o1r & Ho1r & H).
  apply (rd_Returns []) in Ho1r. destruct Ho1r as [_ Ho1r].
  apply bind_Returns in H. destruct H as (b & Hb & H).
  apply (rd_Returns 0%float) in Hb. destruct Hb as [_ Hb].
  apply bind_Returns in H. destruct H as (t0 & Ht0 & H).
  apply (rd_Returns 0%float) in Ht0. destruct Ht0 as [_ Ht0].
  apply bind_Returns in H. destruct H as (g & Hg & H).
  apply (rd_Returns 0) in Hg. destruct Hg as [_ Hg].
  apply bind_Returns in H. destruct H as (d & Hd & H).
  apply (rd_Returns []) in Hd. destruct Hd as [_ Hd].
  apply bind_Returns in H. destruct H as (dr & Hdr & H).
  apply (rd_Returns 0%float) in Hdr. destruct Hdr as [_ Hdr].
  apply bind_Returns in H. destruct H as (row & Hrow & H).
  apply (rd_Returns []) in Hrow. destruct Hrow as [Hr Hrow].
  apply bind_Returns in H. destruct H as (old & Hold & H).
  apply (rd_Returns 0%float) in Hold. destruct Hold as [_ Hold].
  injection H as <-. split; [exact Hr|].
  unfold cell_update, interpol_ext, fget2, fget, zget.
  subst om o0 o0r a t1 o1 o1r b t0 g d dr row old. reflexivity.
Qed.

Lemma interpol_inner_run_agrees tr r temp itemp i ms k k' :
  run_fold (fun k m => interpol_cell_run valueinarray tr r temp itemp k i m) ms k
  = Returns k' ->
  k' = set k r (fold_left (cell_update tr r temp itemp i) ms (get [] k r)).
Proof.
  revert k. induction ms as [|m ms IH]; intros k H; cbn [run_fold] in H.
  - injection H as <-. cbn [fold_left]. symmetry. apply set_get_same.
  - apply bind_Returns in H. destruct H as (k1 & Hk1 & H).
    apply interpol_cell_run_agrees in Hk1. destruct Hk1 as [Hr ->].
    apply IH in H. rewrite H. cbn [fold_left].
    rewrite ArrayFacts.get_set_eq by exact Hr. apply set_set.
Qed.

Lemma cell_updates_nil tr r temp itemp i ms :
  fold_left (cell_update tr r temp itemp i) ms [] = [].
Proof.
  induction ms as [|m ms IH]; cbn [fold_left]; [reflexivity|].
  unfold cell_update at 2. unfold set.
  destruct (i <? 0); cbn [list_insert insert]; exact IH.
Qed.

Lemma get_set_through {A} (k : list (list A)) (r : Z)
    (F : list A -> list A) :
  F [] = [] -> get [] (set k r (F (get [] k r))) r = F (get [] k r).
Proof.
  intros HF.
  destruct (Z.lt_ge_cases r 0) as [Hneg|Hpos];
    [|destruct (Z.lt_ge_cases r (Z.of_nat (length k))) as [Hin|Hout]].
  - unfold set, get. destruct (Z.ltb_spec r 0); [|lia]. exact (eq_sym HF).
  - apply ArrayFacts.get_set_eq. lia.
  - assert (Hg : get [] k r = []).
    { unfold get. destruct (Z.ltb_spec r 0); [reflexivity|].
      apply nth_overflow. lia. }
    rewrite Hg, HF. unfold set. destruct (Z.ltb_spec r 0); [lia|].
    rewrite list_insert_ge by lia. exact Hg.
Qed.

Lemma interpol_rows_run_agrees tr r temp itemp k k' :
  interpol_rows_run valueinarray tr r temp itemp k = Returns k' ->
  k' = set k r (interpol_row valueinarray tr r temp itemp (get [] k r)).
Proof.
  unfold interpol_rows_run, interpol_row.
  change (fun (row : list float) (i : Z) =>
            fold_left
              (fun (row0 : list float) (m : Z) =>
                 let ext := interpol_ext tr r temp itemp m i in
                 let imol_ :=
                   valueinarray (mol_ID (ds_mol tr)) (zget (molID (ds_op tr)) m)
                                (nmol (ds_mol tr)) in
                 set row0 i
                   (fget row0 i + fget2 (molec_d (ds_mol tr)) imol_ r * ext)%float)
              (zrange 0 (Nmol (ds_op tr))) row)
    with (fun (row : list float) (i : Z) =>
            fold_left (cell_update tr r temp itemp i)
                      (zrange 0 (Nmol (ds_op tr))) row).
  generalize (zrange 0 (Nwave (ds_op tr))) as l. intros l.
  revert k. induction l as [|i l IH]; intros k H; cbn [run_fold] in H.
  - injection H as <-. cbn [fold_left]. symmetry. apply set_get_same.
  - apply bind_Returns in H. destruct H as (k1 & Hk1 & H).
    apply interpol_inner_run_agrees in Hk1. subst k1.
    apply IH in H. rewrite H. cbn [fold_left].
    rewrite (get_set_through k r
               (fold_left (cell_update tr r temp itemp i)
                          (zrange 0 (Nmol (ds_op tr)))))
      by apply cell_updates_nil.
    apply set_set.
Qed.

(** A run that returns leaves what the plain [interpolmolext] computes. *)
Lemma interpolmolext_run_agrees tr r kiso res :
  interpolmolext_run valueinarray tr r kiso = Returns res ->
  res = interpolmolext valueinarray tr r kiso /\
  0 <= r < Z.of_nat (length (computed (ds_ex tr))).
Proof.
  unfold interpolmolext_run, interpolmolext, interpol_itemp, layer_temp.
  intros H.
  apply bind_Returns in H. destruct H as (t & Ht & H).
  apply (rd_Returns 0%float) in Ht. destruct Ht as [_ Ht].
  apply bind_Returns in H. destruct H as (g & Hg & H).
  apply (rd_Returns 0%float) in Hg. destruct Hg as [_ Hg].
  apply bind_Returns in H. destruct H as (k' & Hk & H).
  apply interpol_rows_run_agrees in Hk.
  destruct (Z.leb_spec 0 r), (Z.ltb_spec r (Z.of_nat (length (computed (ds_ex tr)))));
    cbn [andb] in H; try discriminate.
  injection H as <-. split; [|lia].
  unfold fget. subst t g k'. reflexivity.
Qed.


End MolExtFacts.

(** The scan on the example layer: both candidates resolve its lines. *)
Lemma ofactor_selection_witness :
  1 <= ndivs tr_ex /\
  select_ofactor tr_ex (minwidth (layer_widths 1 1 1 1 1 tr_ex 0)) = 2.
Proof.
  split; [vm_compute; discriminate|].
  pose proof (ofactor_selection 1 1 1 1 1 tr_ex 0
                ltac:(vm_compute; discriminate)) as H.
  cbv zeta in H. destruct H as (_ & Hsel & _).
  rewrite Hsel. vm_compute. reflexivity.
Defined.

(** A water layer at 1000 K sampled every 1 cm-1 from 4000 cm-1 with an
    oversampling of 2, in CGS units: Boltzmann's constant 1.380658e-16,
    the atomic mass unit 1.66053886e-24, the speed of light 2.99792458e10,
    a molecular mass of 18, a collision radius of 1.6e-8 and a mass
    density of 1e-6. *)
Definition KB_cgs : float := 0x1.3e5ba9cd9fbd6p-53%float.
Definition AMU_cgs : float := 0x1.00f4b8a920627p-79%float.
Definition SQRTLN2_cgs : float := 0x1.aa4499161cd47p-1%float.
Definition LS_cgs : float := 29979245800%float.
Definition PI_cgs : float := 0x1.921fb54442d18p+1%float.

Definition tr_coarse : transit :=
  mk_tr (mk_samp 3 1%float 4000%float 1 [4000; 4001; 4002]%float)
        (mk_samp 5 1%float 4000%float 2
                 [4000; 4000.5; 4001; 4001.5; 4002]%float)
        [1000]%float 1%float
        2 [1; 2]
        (mk_iso 1 [0] [18]%float [1]%float [[1]%float])
        (mk_mol 1 [101] [0x1.12e0be826d695p-26]%float [18]%float
                [[0x1.0c6f7a0b5ed8dp-20]%float])
        (mk_ex 0%float [false])
        (mk_op [[[0.25; 0.5; 0.25]%float]] [[1]] [0.0078125]%float
               [0.0001220703125]%float 1 1
               [500; 1500]%float 2 [101] 1 3
               [[[[1; 1; 1]%float]; [[3; 3; 3]%float]]])
        (mk_lt [0x1.0624dd2f1a9fcp-12]%float 1%float [0] [1]%float 1%float [0]%float)
        1.

(** The lines of that layer are narrower than its grid: the minimum
    width is the Doppler width, near 0.0107, the second candidate has the
    step [2 * 0.5 = 1] and fails at once, and the first candidate, 1, is
    taken although its own step, 0.5, is not below half the minimum
    width: no candidate is. *)
Lemma ofactor_selection_counterexample :
  let minw :=
    minwidth (layer_widths KB_cgs AMU_cgs SQRTLN2_cgs LS_cgs PI_cgs tr_coarse 0) in
  PrimFloat.ltb 0.0078125%float minw = true /\
  PrimFloat.ltb minw 0.015625%float = true /\
  select_ofactor tr_coarse minw = 1 /\
  candidate_step tr_coarse 0 = 0.5%float /\
  ~ (forall (KB AMU SQRTLN2 LS PI : float) (tr : transit) (r : Z),
       1 <= ndivs tr ->
       let minw := minwidth (layer_widths KB AMU SQRTLN2 LS PI tr r) in
       PrimFloat.ltb
         (long_to_double (select_ofactor tr minw) *
          (dwn tr / long_to_double (samp_o (owns tr))))%float
         (0.5 * minw)%float = true).
Proof.
  repeat apply conj; try (vm_compute; reflexivity).
  intros H.
  specialize (H KB_cgs AMU_cgs SQRTLN2_cgs LS_cgs PI_cgs tr_coarse 0
                ltac:(vm_compute; discriminate)).
  vm_compute in H. discriminate H.
Qed.

(** Co-adding on the example layer: line 1 joins line 0, line 2 does
    not. *)
Lemma coadd_same_bin_witness :
  fst (line_body exp_series 1 1 tr_ex 0 100%float
         (layer_widths 1 1 1 1 1 tr_ex 0) 2 0%float 0
         (mk_pass2 (repeat 0%float 5) [0] 0 0 0)) = 1.
Proof.
  pose proof (coadd_same_bin exp_series 1 1 tr_ex 0 100%float
                (layer_widths 1 1 1 1 1 tr_ex 0) 2 0%float 0
                (mk_pass2 (repeat 0%float 5) [0] 0 0 0)
                ltac:(vm_compute; split; [discriminate|reflexivity])
                ltac:(vm_compute; reflexivity)) as H.
  cbv zeta in H. destruct H as (_ & _ & _ & _ & _ & _ & _ & _ & Hfst & _).
  rewrite Hfst. vm_compute. reflexivity.
Defined.

(** Both routines on the example layer. *)
Definition interpolmolext_run_ex :=
  interpolmolext_run valueinarray_none tr_ex 0 [[0; 0; 0]%float].

Lemma interpolmolext_run_ex_row :
  interpolmolext_run_ex = Returns (0, [[2; 2; 2]%float], mk_ex 0%float [true]).
Proof. vm_compute. reflexivity. Qed.

Lemma computemolext_ex_returns : exists a, computemolext_ex = Returns a.
Proof. eexists. vm_compute. reflexivity. Qed.


(** The example layer at 150 K, the last temperature of its opacity
    grid. *)
Definition with_atm_t (tr : transit) (t : list float) : transit :=
  mk_tr (wns tr) (owns tr) t (atm_tfct tr) (ndivs tr) (odivs tr)
        (ds_iso tr) (ds_mol tr) (ds_ex tr) (ds_op tr) (ds_lt tr) (n_l tr).

Definition tr_hot : transit := with_atm_t tr_ex [150]%float.


(** *** Further properties of the layer computation *)

Section MolExtMore.

Variable exp : float -> float.
Variable downsample : list float -> list float -> Z -> Z -> list float.
Variable valueinarray : list Z -> Z -> Z -> Z.
Variables KB AMU SQRTLN2 LS PI SIGCTE EXPCTE : float.

Lemma in_zrange a b x : In x (zrange a b) <-> a <= x < b.
Proof.
  unfold zrange. rewrite in_map_iff. split.
  - intros (k & <- & Hk). apply in_seq in Hk. lia.
  - intros Hx. exists (Z.to_nat (x - a)). split; [lia|]. apply in_seq. lia.
Qed.

Lemma fold_left_id {A B} (f : A -> B -> A) (l : list B) (a : A) :
  (forall x b, In b l -> f x b = x) -> fold_left f l a = a.
Proof.
  revert a. induction l as [|b l IH]; intros a H; cbn [fold_left]; [reflexivity|].
  rewrite H by (left; reflexivity). apply IH. intros x b' Hb. apply H. right. exact Hb.
Qed.

(** When no line lies inside the sampled wavenumbers the second loop
    leaves its state as it found it. *)
Lemma pass2_loop_out_of_range fuel tr r temp w ofactor kmax ln st :
  (forall k, 0 <= k < n_l tr -> out_of_range tr (line_wavn tr k) = true) ->
  0 <= ln ->
  pass2_loop exp SIGCTE EXPCTE fuel tr r temp w ofactor kmax ln st = st.
Proof.
  intros Hout. revert ln st. induction fuel as [|fuel IH]; intros ln st Hln;
    cbn [pass2_loop]; [reflexivity|].
  destruct (Z.ltb_spec ln (n_l tr)); [|reflexivity].
  unfold line_body. rewrite Hout by lia. apply IH. lia.
Qed.


(** Each round of the second loop accounts for the lines it consumes:
    the tallies of co-added, skipped and evaluated lines grow by no more
    than the number of lines passed, and none of them shrinks. *)
Lemma line_body_tallies tr r temp w ofactor kmax ln st :
  0 <= ln < n_l tr ->
  let body := line_body exp SIGCTE EXPCTE tr r temp w ofactor kmax ln st in
  ln <= fst body <= n_l tr - 1 /\
  nadd st <= nadd (snd body) /\ nskip st <= nskip (snd body) /\
  neval st <= neval (snd body) /\
  nadd (snd body) + nskip (snd body) + neval (snd body)
  <= nadd st + nskip st + neval st + (fst body + 1 - ln).
Proof.
  intros Hln body. subst body. unfold line_body.
  destruct (out_of_range tr (line_wavn tr ln)); [cbn [fst snd]; lia|].
  pose proof (coadd_spec exp SIGCTE EXPCTE (Z.to_nat (n_l tr - 1 - ln)) tr r temp
                (zget (isoid (ds_lt tr)) ln)
                (closest_iown tr (line_wavn tr ln)) ln (nadd st)
                (line_strength exp SIGCTE EXPCTE tr r temp ln (line_wavn tr ln)
                               (zget (isoid (ds_lt tr)) ln))) as H.
  cbv zeta in H. destruct H as (Hr & Hn & _).
  destruct (coadd _ _ _ _ _ _ _ _ _ _ _ _) as [[ln' nadd'] pk'].
  cbn [fst snd] in Hr, Hn.
  destruct (PrimFloat.ltb pk' _); cbn [fst snd nadd nskip neval]; lia.
Qed.

(** The three tallies that [computemolext] prints as shares of the line
    list never add up to more than the number of lines. *)
Theorem pass2_tallies_bounded tr r temp w ofactor kmax ktmp0 idop0 :
  0 <= n_l tr ->
  let st := pass2_loop exp SIGCTE EXPCTE (Z.to_nat (n_l tr)) tr r temp w ofactor
                       kmax 0 (mk_pass2 ktmp0 idop0 0 0 0) in
  0 <= nadd st /\ 0 <= nskip st /\ 0 <= neval st /\
  nadd st + nskip st + neval st <= n_l tr.
Proof.
  intros Hn st.
  assert (Hgen : forall fuel ln s0,
            0 <= ln ->
            let s := pass2_loop exp SIGCTE EXPCTE fuel tr r temp w ofactor kmax ln s0 in
            nadd s0 <= nadd s /\ nskip s0 <= nskip s /\ neval s0 <= neval s /\
            nadd s + nskip s + neval s
            <= nadd s0 + nskip s0 + neval s0 + Z.max 0 (n_l tr - ln)).
  { induction fuel as [|fuel IH]; intros ln s0 Hln; cbn [pass2_loop];
      [cbv zeta; lia|].
    destruct (Z.ltb_spec ln (n_l tr)); [|cbv zeta; lia].
    pose proof (line_body_tallies tr r temp w ofactor kmax ln s0 ltac:(lia)) as Hb.
    cbv zeta in Hb.
    destruct (line_body _ _ _ _ _ _ _ _ _ _ _) as [ln' s1].
    cbn [fst snd] in Hb.
    specialize (IH (ln' + 1) s1 ltac:(lia)). cbv zeta in IH |- *. lia. }
  specialize (Hgen (Z.to_nat (n_l tr)) 0 (mk_pass2 ktmp0 idop0 0 0 0) ltac:(lia)).
  cbv zeta in Hgen. fold st in Hgen. cbn [nadd nskip neval] in Hgen. lia.
Qed.

End MolExtMore.

(** *** Culling, the profile window and the rows of the grid *)

(** A threshold of zero times anything is not above a non-negative
    number. *)
Lemma zero_threshold_not_above (p k : float) :
  PrimFloat.leb 0%float p = true -> PrimFloat.ltb p (0 * k)%float = false.
Proof.
  rewrite FloatAxioms.leb_spec, FloatAxioms.ltb_spec, FloatAxioms.mul_spec.
  change (Prim2SF 0%float) with (S754_zero false).
  unfold SF64mul, SFmul, SFleb, SFltb.
  destruct (Prim2SF p) as [[]|[]| |[] ? ?], (Prim2SF k) as [[]|[]| |[] ? ?];
    simpl; try discriminate; reflexivity.
Qed.

Section MolExtCull.

Variable exp : float -> float.
Variables SIGCTE EXPCTE : float.

(** With [ethresh = 0] a line inside the sampled range whose co-added
    strength is not negative is never skipped: its profile is evaluated. *)
Theorem ethresh_zero_keeps_line tr r temp w ofactor kmax ln st :
  ethresh (ds_ex tr) = 0%float ->
  out_of_range tr (line_wavn tr ln) = false ->
  let i := zget (isoid (ds_lt tr)) ln in
  let propto_k :=
    snd (coadd exp SIGCTE EXPCTE (Z.to_nat (n_l tr - 1 - ln)) tr r temp i
               (closest_iown tr (line_wavn tr ln)) ln (nadd st)
               (line_strength exp SIGCTE EXPCTE tr r temp ln (line_wavn tr ln) i)) in
  PrimFloat.leb 0%float propto_k = true ->
  let body := line_body exp SIGCTE EXPCTE tr r temp w ofactor kmax ln st in
  nskip (snd body) = nskip st /\ neval (snd body) = neval st + 1.
Proof.
  intros He Hin i propto_k Hpos body. subst body. unfold line_body.
  rewrite Hin. fold i. subst propto_k.
  destruct (coadd _ _ _ _ _ _ _ _ _ _ _ _) as [[ln' nadd'] pk'].
  cbn [snd] in Hpos. rewrite He, (zero_threshold_not_above _ _ Hpos).
  cbn [snd nskip neval]. split; reflexivity.
Qed.

End MolExtCull.

(** The window of [ktmp] that [add_profile] updates and the offset
    between its indices and those of the profile: [minj], [maxj] (both
    clipped) and [offset]. *)
Definition profile_window (tr : transit) (w : widths) (ofactor dnwn_ : Z)
    (i iown idwn : Z) (idop_ : list Z) : Z * Z * Z :=
  let psize := zget2 (profsize (ds_op tr)) (zget idop_ i) (zget (ilor w) i) in
  let subw := iown - idwn * ofactor in
  let offset := ofactor * idwn - psize + subw in
  let minj := idwn - Z.quot (psize - subw) ofactor in
  let maxj := idwn + Z.quot (psize + subw) ofactor in
  (if minj <? 0 then 0 else minj, if maxj >? dnwn_ then dnwn_ else maxj, offset).

Lemma fold_set_frame {A} (d : A) (f : list A -> Z -> A) (l : list Z)
    (a : list A) (j : Z) :
  ~ In j l ->
  get d (fold_left (fun k x => set k x (f k x)) l a) j = get d a j /\
  length (fold_left (fun k x => set k x (f k x)) l a) = length a.
Proof.
  revert a. induction l as [|x l IH]; intros a Hj; cbn [fold_left];
    [split; reflexivity|].
  destruct (IH (set a x (f a x))) as [H1 H2].
  { intros Hin. apply Hj. right. exact Hin. }
  rewrite H1, H2, ArrayFacts.length_set. split; [|reflexivity].
  apply ArrayFacts.get_set_ne. intros ->. apply Hj. left. reflexivity.
Qed.

(** [add_profile] stays inside its arrays.  With an oversampling factor
    of at least 1 and a sub-sampling offset [subw] no larger in size than
    the half size [psize] of the profile, every index [j] of [ktmp] it
    updates has [0 <= j < dnwn] and reads the profile at an index between
    0 and [2*psize], that is inside a profile of [2*psize + 1] entries;
    the other entries of [ktmp] and its length are unchanged. *)
Theorem add_profile_in_bounds tr w ofactor dnwn_ i iown idwn idop_ propto_k
    (ktmp_ : list float) :
  1 <= ofactor ->
  let psize := zget2 (profsize (ds_op tr)) (zget idop_ i) (zget (ilor w) i) in
  let subw := iown - idwn * ofactor in
  - psize <= subw <= psize ->
  let win := profile_window tr w ofactor dnwn_ i iown idwn idop_ in
  let minj := fst (fst win) in
  let maxj := snd (fst win) in
  let offset := snd win in
  let ktmp' := add_profile tr w ofactor dnwn_ i iown idwn idop_ propto_k ktmp_ in
  (forall j, minj <= j < maxj ->
     0 <= j < dnwn_ /\ 0 <= ofactor * j - offset <= 2 * psize) /\
  (forall j, ~ (minj <= j < maxj) -> fget ktmp' j = fget ktmp_ j) /\
  length ktmp' = length ktmp_.
Proof.
  intros Hof psize subw Hsub win minj maxj offset ktmp'.
  assert (Hq1 : 0 <= Z.quot (psize - subw) ofactor /\
                ofactor * Z.quot (psize - subw) ofactor <= psize - subw).
  { rewrite Z.quot_div_nonneg by lia.
    split; [apply Z.div_pos; lia|apply Z.mul_div_le; lia]. }
  assert (Hq2 : 0 <= Z.quot (psize + subw) ofactor /\
                ofactor * Z.quot (psize + subw) ofactor <= psize + subw).
  { rewrite Z.quot_div_nonneg by lia.
    split; [apply Z.div_pos; lia|apply Z.mul_div_le; lia]. }
  subst minj maxj offset win. unfold profile_window. fold psize subw.
  cbn [fst snd].
  set (q1 := Z.quot (psize - subw) ofactor) in *.
  set (q2 := Z.quot (psize + subw) ofactor) in *.
  repeat apply conj.
  - intros j Hj.
    destruct (Z.ltb_spec (idwn - q1) 0), (Z.gtb_spec (idwn + q2) dnwn_); nia.
  - intros j Hj. subst ktmp'. unfold add_profile. fold psize subw q1 q2.
    apply (fold_set_frame 0%float). rewrite in_zrange. exact Hj.
  - subst ktmp'. unfold add_profile. fold psize subw q1 q2.
    apply (fold_set_frame 0%float _ _ _ (-1)). rewrite in_zrange.
    destruct (Z.ltb_spec (idwn - q1) 0); lia.
Qed.

Section MolExtRows.

Variable exp : float -> float.
Variable downsample : list float -> list float -> Z -> Z -> list float.
Variable valueinarray : list Z -> Z -> Z -> Z.
Variables KB AMU SQRTLN2 LS PI SIGCTE EXPCTE : float.

(** What the molecules add to element [i] of a row. *)
Definition interpol_add (tr : transit) (r : Z) (temp : float) (itemp i : Z)
    (x : float) : float :=
  fold_left
    (fun acc m =>
       (acc + fget2 (molec_d (ds_mol tr))
                    (valueinarray (mol_ID (ds_mol tr)) (zget (molID (ds_op tr)) m)
                                  (nmol (ds_mol tr))) r
              * interpol_ext tr r temp itemp m i)%float)
    (zrange 0 (Nmol (ds_op tr))) x.

Lemma interpol_inner tr r temp itemp (i : Z) (ms : list Z) (row : list float) :
  0 <= i < Z.of_nat (length row) ->
  let row' :=
    fold_left
      (fun row m =>
         set row i (fget row i +
                    fget2 (molec_d (ds_mol tr))
                          (valueinarray (mol_ID (ds_mol tr))
                                        (zget (molID (ds_op tr)) m)
                                        (nmol (ds_mol tr))) r
                    * interpol_ext tr r temp itemp m i)%float)
      ms row in
  length row' = length row /\
  (forall j, j <> i -> fget row' j = fget row j) /\
  fget row' i =
    fold_left
      (fun acc m =>
         (acc + fget2 (molec_d (ds_mol tr))
                      (valueinarray (mol_ID (ds_mol tr))
                                    (zget (molID (ds_op tr)) m)
                                    (nmol (ds_mol tr))) r
                * interpol_ext tr r temp itemp m i)%float)
      ms (fget row i).
Proof.
  revert row. induction ms as [|m ms IH]; intros row Hi; cbn [fold_left].
  - cbv zeta. repeat apply conj; reflexivity.
  - specialize (IH (set row i
                      (fget row i + fget2 (molec_d (ds_mol tr))
                          (valueinarray (mol_ID (ds_mol tr))
                             (zget (molID (ds_op tr)) m) (nmol (ds_mol tr))) r
                        * interpol_ext tr r temp itemp m i)%float)).
    rewrite ArrayFacts.length_set in IH. specialize (IH Hi).
    cbv zeta in IH |- *. destruct IH as (Hl & Hne & Heq).
    repeat apply conj.
    + exact Hl.
    + intros j Hj. rewrite (Hne j Hj). apply ArrayFacts.get_set_ne. congruence.
    + rewrite Heq. f_equal. unfold fget. apply ArrayFacts.get_set_eq. exact Hi.
Qed.

Lemma fold_set_outside {A} (g : list A -> Z -> A) (i : Z) (ms : list Z)
    (row : list A) :
  Z.of_nat (length row) <= i ->
  fold_left (fun row m => set row i (g row m)) ms row = row.
Proof.
  intros Hi. induction ms as [|m ms IHms]; cbn [fold_left]; [reflexivity|].
  unfold set at 2. destruct (Z.ltb_spec i 0); [exact IHms|].
  rewrite list_insert_ge by lia. exact IHms.
Qed.

Lemma interpol_row_spec tr r temp itemp (row : list float) a n :
  0 <= a ->
  let row' :=
    fold_left
      (fun row i =>
         fold_left
           (fun row m =>
              set row i (fget row i +
                         fget2 (molec_d (ds_mol tr))
                               (valueinarray (mol_ID (ds_mol tr))
                                             (zget (molID (ds_op tr)) m)
                                             (nmol (ds_mol tr))) r
                         * interpol_ext tr r temp itemp m i)%float)
           (zrange 0 (Nmol (ds_op tr))) row)
      (zrange a (a + Z.of_nat n)) row in
  length row' = length row /\
  forall j, 0 <= j < Z.of_nat (length row) ->
    fget row' j = if (a <=? j) && (j <? a + Z.of_nat n)
                  then interpol_add tr r temp itemp j (fget row j)
                  else fget row j.
Proof.
  revert a row. induction n as [|n IH]; intros a row Ha.
  - rewrite (zrange_nil a (a + Z.of_nat 0)) by lia. cbn [fold_left]. cbv zeta.
    split; [reflexivity|].
    intros j Hj. destruct (Z.leb_spec a j), (Z.ltb_spec j (a + Z.of_nat 0));
      try reflexivity; lia.
  - rewrite (zrange_cons a (a + Z.of_nat (S n))) by lia. cbn [fold_left].
    replace (a + Z.of_nat (S n)) with (a + 1 + Z.of_nat n) by lia.
    set (row1 := fold_left _ (zrange 0 (Nmol (ds_op tr))) row).
    destruct (Z.lt_ge_cases a (Z.of_nat (length row))) as [Hin|Hout].
    + pose proof (interpol_inner tr r temp itemp a (zrange 0 (Nmol (ds_op tr)))
                    row ltac:(lia)) as H1.
      cbv zeta in H1. fold row1 in H1. destruct H1 as (Hl1 & Hne1 & Heq1).
      specialize (IH (a + 1) row1 ltac:(lia)). cbv zeta in IH |- *.
      destruct IH as (Hl & Hget). rewrite Hl1 in Hl, Hget.
      split; [exact Hl|]. intros j Hj. rewrite (Hget j Hj).
      destruct (Z.eq_dec j a) as [->|Hne].
      * destruct (Z.leb_spec (a + 1) a); [lia|]. cbn [andb].
        destruct (Z.leb_spec a a); [|lia].
        destruct (Z.ltb_spec a (a + 1 + Z.of_nat n)); [|lia]. cbn [andb].
        rewrite Heq1. reflexivity.
      * rewrite (Hne1 j Hne).
        destruct (Z.leb_spec (a + 1) j), (Z.leb_spec a j),
                 (Z.ltb_spec j (a + 1 + Z.of_nat n)); cbn [andb];
          try reflexivity; lia.
    + assert (Hrow1 : row1 = row).
      { subst row1.
        apply (fold_set_outside
                 (fun row m =>
                    (fget row a + fget2 (molec_d (ds_mol tr))
                       (valueinarray (mol_ID (ds_mol tr))
                          (zget (molID (ds_op tr)) m) (nmol (ds_mol tr))) r
                     * interpol_ext tr r temp itemp m a)%float)).
        exact Hout. }
      rewrite Hrow1. specialize (IH (a + 1) row ltac:(lia)).
      cbv zeta in IH |- *. destruct IH as (Hl & Hget).
      split; [exact Hl|]. intros j Hj. rewrite (Hget j Hj).
      destruct (Z.leb_spec (a + 1) j), (Z.leb_spec a j),
               (Z.ltb_spec j (a + 1 + Z.of_nat n)); cbn [andb];
        try reflexivity; lia.
Qed.


End MolExtRows.

(** *** Examples for the further properties *)

(** [tr] with another line list. *)
Definition with_lines (tr : transit) (lt : line_transition) (n : Z) : transit :=
  mk_tr (wns tr) (owns tr) (atm_t tr) (atm_tfct tr) (ndivs tr) (odivs tr)
        (ds_iso tr) (ds_mol tr) (ds_ex tr) (ds_op tr) lt n.

(** The example layer with three lines at wavenumber 1, below the
    sampled range that starts at 10. *)
Definition tr_far : transit :=
  with_lines tr_ex
    (mk_lt [1; 1; 1]%float 1%float [0; 0; 0] [1; 1; 1]%float 1%float
           [0; 0; 0]%float) 3.

Lemma tr_far_out_of_range k :
  0 <= k < n_l tr_far -> out_of_range tr_far (line_wavn tr_far k) = true.
Proof.
  intros Hk. change (n_l tr_far) with 3 in Hk.
  assert (Hc : k = 0 \/ k = 1 \/ k = 2) by lia.
  destruct Hc as [->|[->| ->]]; vm_compute; reflexivity.
Qed.


Lemma pass2_tallies_bounded_witness :
  let st := pass2_loop exp_series 1 1 3 tr_ex 0 100%float
                       (layer_widths 1 1 1 1 1 tr_ex 0) 2 0%float 0
                       (mk_pass2 (repeat 0%float 3) [0] 0 0 0) in
  0 <= nadd st /\ 0 <= nskip st /\ 0 <= neval st /\
  nadd st + nskip st + neval st <= 3.
Proof.
  exact (pass2_tallies_bounded exp_series 1 1 tr_ex 0 100%float
           (layer_widths 1 1 1 1 1 tr_ex 0) 2 0%float (repeat 0%float 3) [0]
           ltac:(vm_compute; discriminate)).
Defined.

Lemma ethresh_zero_keeps_line_witness :
  let body := line_body exp_series 1 1 tr_ex 0 100%float
                        (layer_widths 1 1 1 1 1 tr_ex 0) 2 0%float 0
                        (mk_pass2 (repeat 0%float 3) [0] 0 0 0) in
  nskip (snd body) = 0 /\ neval (snd body) = 0 + 1.
Proof.
  exact (ethresh_zero_keeps_line exp_series 1 1 tr_ex 0 100%float
           (layer_widths 1 1 1 1 1 tr_ex 0) 2 0%float 0
           (mk_pass2 (repeat 0%float 3) [0] 0 0 0)
           ltac:(reflexivity) ltac:(vm_compute; reflexivity)
           ltac:(vm_compute; reflexivity)).
Defined.

Lemma add_profile_in_bounds_witness :
  let ktmp' := add_profile tr_ex (layer_widths 1 1 1 1 1 tr_ex 0) 2 3 0 1 0 [0]
                           1%float [0; 0; 0]%float in
  (forall j, 0 <= j < 1 -> 0 <= j < 3 /\ 0 <= 2 * j - 0 <= 2 * 1) /\
  (forall j, ~ (0 <= j < 1) -> fget ktmp' j = fget [0; 0; 0]%float j) /\
  length ktmp' = 3%nat.
Proof.
  exact (add_profile_in_bounds tr_ex (layer_widths 1 1 1 1 1 tr_ex 0) 2 3 0 1 0
           [0] 1%float [0; 0; 0]%float
           ltac:(lia) ltac:(vm_compute; split; discriminate)).
Defined.


(** *** The smallest width and the largest line strength *)

Lemma SFeqb_leb_refl x : SFeqb x x = SFleb x x.
Proof. unfold SFeqb, SFleb. destruct x as [[]|[]| |[] ? ?]; sf_split. Qed.

Lemma is_nan_false_num (x : float) :
  PrimFloat.is_nan x = false <-> is_num x.
Proof.
  unfold PrimFloat.is_nan, is_num.
  rewrite FloatAxioms.eqb_spec, FloatAxioms.leb_spec, SFeqb_leb_refl.
  destruct (SFleb (Prim2SF x) (Prim2SF x)); cbn [negb]; split; congruence.
Qed.

Lemma is_nan_true_not_num (x : float) :
  PrimFloat.is_nan x = true -> ~ is_num x.
Proof.
  intros H Hn. apply is_nan_false_num in Hn. congruence.
Qed.

Lemma fmin_num a b : is_num a -> is_num (fmin a b).
Proof.
  intros Ha. unfold fmin.
  destruct (PrimFloat.is_nan a) eqn:Ea;
    [exfalso; exact (is_nan_true_not_num a Ea Ha)|].
  destruct (PrimFloat.is_nan b) eqn:Eb; [exact Ha|].
  destruct (PrimFloat.ltb b a) eqn:E; [|exact Ha].
  apply is_nan_false_num. exact Eb.
Qed.

Lemma fmin_leb_l a b : is_num a -> PrimFloat.leb (fmin a b) a = true.
Proof.
  intros Ha. unfold fmin.
  destruct (PrimFloat.is_nan a) eqn:Ea;
    [exfalso; exact (is_nan_true_not_num a Ea Ha)|].
  destruct (PrimFloat.is_nan b) eqn:Eb; [exact Ha|].
  destruct (PrimFloat.ltb b a) eqn:E; [|exact Ha].
  apply ltb_leb. exact E.
Qed.

Lemma fmin_leb_r a b : is_num b -> PrimFloat.leb (fmin a b) b = true.
Proof.
  intros Hb. unfold fmin.
  destruct (PrimFloat.is_nan a) eqn:Ea; [exact Hb|].
  destruct (PrimFloat.is_nan b) eqn:Eb;
    [exfalso; exact (is_nan_true_not_num b Eb Hb)|].
  destruct (PrimFloat.ltb b a) eqn:E; [exact Hb|].
  apply ltb_false_leb; [exact Hb|apply is_nan_false_num; exact Ea|exact E].
Qed.

Lemma fmax_num a b : is_num a -> is_num (fmax a b).
Proof.
  intros Ha. unfold fmax.
  destruct (PrimFloat.is_nan a) eqn:Ea;
    [exfalso; exact (is_nan_true_not_num a Ea Ha)|].
  destruct (PrimFloat.is_nan b) eqn:Eb; [exact Ha|].
  destruct (PrimFloat.ltb a b) eqn:E; [|exact Ha].
  apply is_nan_false_num. exact Eb.
Qed.

Lemma fmax_leb_l a b : is_num a -> PrimFloat.leb a (fmax a b) = true.
Proof.
  intros Ha. unfold fmax.
  destruct (PrimFloat.is_nan a) eqn:Ea;
    [exfalso; exact (is_nan_true_not_num a Ea Ha)|].
  destruct (PrimFloat.is_nan b) eqn:Eb; [exact Ha|].
  destruct (PrimFloat.ltb a b) eqn:E; [|exact Ha].
  apply ltb_leb. exact E.
Qed.

Lemma fmax_leb_r a b : is_num b -> PrimFloat.leb b (fmax a b) = true.
Proof.
  intros Hb. unfold fmax.
  destruct (PrimFloat.is_nan a) eqn:Ea; [exact Hb|].
  destruct (PrimFloat.is_nan b) eqn:Eb;
    [exfalso; exact (is_nan_true_not_num b Eb Hb)|].
  destruct (PrimFloat.ltb a b) eqn:E; [exact Hb|].
  apply ltb_false_leb; [apply is_nan_false_num; exact Ea|exact Hb|exact E].
Qed.

Lemma positive_not_zero (x : float) :
  PrimFloat.ltb 0%float x = true -> PrimFloat.eqb x 0%float = false.
Proof.
  rewrite FloatAxioms.ltb_spec, FloatAxioms.eqb_spec.
  change (Prim2SF 0%float) with (S754_zero false).
  unfold SFltb, SFeqb.
  destruct (Prim2SF x) as [[]|[]| |[] ? ?]; simpl; congruence.
Qed.

Lemma zrange_last (m : nat) :
  zrange 0 (Z.of_nat (S m)) = zrange 0 (Z.of_nat m) ++ [Z.of_nat m].
Proof.
  unfold zrange. rewrite !Z.sub_0_r, !Nat2Z.id, seq_S, map_app.
  reflexivity.
Qed.

Lemma zrange_to_nat (n : Z) : zrange 0 n = zrange 0 (Z.of_nat (Z.to_nat n)).
Proof. unfold zrange. f_equal. f_equal. lia. Qed.

Section MolExtWidths.

Variables KB AMU SQRTLN2 LS PI : float.

(** The widths of isotope [i] in layer [r]: Lorentz, Doppler (divided by
    the wavenumber) and the larger of the two at the first wavenumber. *)
Definition iso_alphal (tr : transit) (r i : Z) : float :=
  (alphal_sum tr r i *
   (PrimFloat.sqrt (2 * KB * layer_temp tr r / PI / AMU) / (AMU * LS)))%float.

Definition iso_alphad (tr : transit) (r i : Z) : float :=
  (PrimFloat.sqrt (2 * KB * layer_temp tr r / AMU) * SQRTLN2 / LS /
   PrimFloat.sqrt (fget (isof_m (ds_iso tr)) i))%float.

Definition iso_width (tr : transit) (r i : Z) : float :=
  fmax (iso_alphal tr r i)
       (iso_alphad tr r i * fget (samp_v (wns tr)) 0)%float.

Lemma layer_widths_prefix tr r (m : nat) :
  Z.of_nat m <= n_i (ds_iso tr) ->
  let niso := Z.to_nat (n_i (ds_iso tr)) in
  let w :=
    fold_left
      (widths_step tr r
         (PrimFloat.sqrt (2 * KB * layer_temp tr r / AMU) * SQRTLN2 / LS)%float
         (PrimFloat.sqrt (2 * KB * layer_temp tr r / PI / AMU) / (AMU * LS))%float)
      (zrange 0 (Z.of_nat m))
      (mk_widths (repeat 0%float niso) (repeat 0%float niso) (repeat 0 niso)
                 (repeat 0 niso) 0%float 1e5%float) in
  length (alphal w) = niso /\ length (alphad w) = niso /\
  is_num (minwidth w) /\ PrimFloat.leb (minwidth w) 1e5%float = true /\
  forall i, 0 <= i < Z.of_nat m ->
    fget (alphal w) i = iso_alphal tr r i /\
    fget (alphad w) i = iso_alphad tr r i /\
    (is_num (iso_width tr r i) ->
     PrimFloat.leb (minwidth w) (iso_width tr r i) = true).
Proof.
  intros Hm niso. induction m as [|m IH].
  - cbn [Z.of_nat]. rewrite zrange_nil by lia. cbn [fold_left]. cbv zeta.
    cbn [alphal alphad minwidth]. rewrite !repeat_length.
    repeat apply conj; try reflexivity. intros i Hi. lia.
  - rewrite zrange_last, fold_left_app. cbn [fold_left].
    specialize (IH ltac:(lia)). cbv zeta in IH |- *.
    set (w := fold_left _ (zrange 0 (Z.of_nat m)) _) in *.
    destruct IH as (Hla & Hld & Hnum & Hle & Hall).
    unfold widths_step. cbn [alphal alphad minwidth].
    rewrite !ArrayFacts.length_set.
    fold (iso_alphal tr r (Z.of_nat m)). fold (iso_alphad tr r (Z.of_nat m)).
    fold (iso_width tr r (Z.of_nat m)).
    repeat apply conj.
    + exact Hla.
    + exact Hld.
    + apply fmin_num. exact Hnum.
    + apply (leb_trans _ (minwidth w)); [apply fmin_leb_l; exact Hnum|exact Hle].
    + intros i Hi. destruct (Z.eq_dec i (Z.of_nat m)) as [->|Hne].
      * repeat apply conj.
        -- apply ArrayFacts.get_set_eq. rewrite Hla. lia.
        -- apply ArrayFacts.get_set_eq. rewrite Hld. lia.
        -- intros Hw. apply fmin_leb_r. exact Hw.
      * destruct (Hall i ltac:(lia)) as (Ha & Hd & Hw).
        repeat apply conj.
        -- unfold fget. rewrite ArrayFacts.get_set_ne by congruence. exact Ha.
        -- unfold fget. rewrite ArrayFacts.get_set_ne by congruence. exact Hd.
        -- intros Hn. apply (leb_trans _ (minwidth w));
             [apply fmin_leb_l; exact Hnum|apply Hw; exact Hn].
Qed.

(** The width that picks the oversampling factor.  [layer_widths] stores
    the Lorentz and the Doppler width of every isotope, and its
    [minwidth] is a number that is at most 1e5 and at most the width of
    every isotope whose width is a number: a running minimum that starts
    at 1e5. *)
Theorem layer_widths_minwidth tr r :
  let w := layer_widths KB AMU SQRTLN2 LS PI tr r in
  is_num (minwidth w) /\ PrimFloat.leb (minwidth w) 1e5%float = true /\
  forall i, 0 <= i < n_i (ds_iso tr) ->
    fget (alphal w) i = iso_alphal tr r i /\
    fget (alphad w) i = iso_alphad tr r i /\
    (is_num (iso_width tr r i) ->
     PrimFloat.leb (minwidth w) (iso_width tr r i) = true).
Proof.
  intros w. subst w. unfold layer_widths.
  rewrite (zrange_to_nat (n_i (ds_iso tr))).
  destruct (Z.le_gt_cases 0 (n_i (ds_iso tr))) as [Hpos|Hneg].
  - pose proof (layer_widths_prefix tr r (Z.to_nat (n_i (ds_iso tr)))
                  ltac:(lia)) as H.
    cbv zeta in H. destruct H as (_ & _ & Hnum & Hle & Hall).
    repeat apply conj; try assumption.
    intros i Hi. apply Hall. lia.
  - replace (Z.to_nat (n_i (ds_iso tr))) with O by lia.
    cbn [Z.of_nat]. rewrite zrange_nil by lia. cbn [fold_left minwidth].
    repeat apply conj; try reflexivity. intros i Hi. lia.
Qed.

End MolExtWidths.

Section MolExtKmax.

Variable exp : float -> float.
Variables SIGCTE EXPCTE : float.

(** The strength of line [k] as both passes compute it. *)
Definition strength (tr : transit) (r : Z) (temp : float) (k : Z) : float :=
  line_strength exp SIGCTE EXPCTE tr r temp k (line_wavn tr k)
                (zget (isoid (ds_lt tr)) k).

Lemma kmax_prefix tr r temp (m : nat) :
  (forall k, 0 <= k < Z.of_nat m ->
     out_of_range tr (line_wavn tr k) = false ->
     PrimFloat.ltb 0%float (strength tr r temp k) = true) ->
  let st := fold_left (kmax_step exp SIGCTE EXPCTE tr r temp)
                      (zrange 0 (Z.of_nat m)) (0%float, None) in
  (st = (0%float, None) /\
   forall k, 0 <= k < Z.of_nat m -> out_of_range tr (line_wavn tr k) = true) \/
  (exists kmin,
     snd st = Some kmin /\
     PrimFloat.ltb 0%float (fst st) = true /\ is_num kmin /\
     PrimFloat.leb kmin (fst st) = true /\
     forall k, 0 <= k < Z.of_nat m ->
       out_of_range tr (line_wavn tr k) = false ->
       PrimFloat.leb (strength tr r temp k) (fst st) = true /\
       PrimFloat.leb kmin (strength tr r temp k) = true).
Proof.
  induction m as [|m IH]; intros Hpos.
  - cbn [Z.of_nat]. rewrite zrange_nil by lia. cbn [fold_left]. cbv zeta.
    left. split; [reflexivity|]. intros k Hk. lia.
  - rewrite zrange_last, fold_left_app. cbn [fold_left].
    specialize (IH ltac:(intros k Hk; apply Hpos; lia)).
    cbv zeta in IH |- *.
    set (st := fold_left _ (zrange 0 (Z.of_nat m)) _) in *.
    unfold kmax_step.
    fold (strength tr r temp (Z.of_nat m)).
    destruct (out_of_range tr (line_wavn tr (Z.of_nat m))) eqn:Eout.
    + destruct IH as [[Hst Hall]|(kmin & Hkm & Hk & Hn & Hle & Hall)].
      * left. split; [exact Hst|]. intros k Hk.
        destruct (Z.eq_dec k (Z.of_nat m)) as [->|Hne]; [exact Eout|].
        apply Hall. lia.
      * right. exists kmin. repeat apply conj; try assumption.
        intros k Hk0 Hin.
        destruct (Z.eq_dec k (Z.of_nat m)) as [->|Hne]; [congruence|].
        apply Hall; [lia|exact Hin].
    + pose proof (Hpos (Z.of_nat m) ltac:(lia) Eout) as Hp.
      set (p := strength tr r temp (Z.of_nat m)) in *.
      assert (Hpn : is_num p) by (apply (leb_is_num_r 0%float), ltb_leb; exact Hp).
      right. destruct IH as [[Hst Hall]|(kmin & Hkm & Hk & Hn & Hle & Hall)].
      * rewrite Hst. cbn [fst snd].
        change (PrimFloat.eqb 0%float 0%float) with true. cbn [fst snd].
        exists p. repeat apply conj; try assumption; try reflexivity.
        intros k Hk0 Hin.
        destruct (Z.eq_dec k (Z.of_nat m)) as [->|Hne]; [split; exact Hpn|].
        rewrite Hall in Hin by lia. discriminate.
      * rewrite (positive_not_zero _ Hk), Hkm. cbn [fst snd option_map].
        assert (Hkn : is_num (fst st))
          by (apply (leb_is_num_r 0%float), ltb_leb; exact Hk).
        exists (fmin kmin p). repeat apply conj.
        -- reflexivity.
        -- apply (ltb_leb_trans _ (fst st)); [exact Hk|].
           apply fmax_leb_l. exact Hkn.
        -- apply fmin_num. exact Hn.
        -- apply (leb_trans _ kmin); [apply fmin_leb_l; exact Hn|].
           apply (leb_trans _ (fst st)); [exact Hle|].
           apply fmax_leb_l. exact Hkn.
        -- intros k Hk0 Hin.
           destruct (Z.eq_dec k (Z.of_nat m)) as [->|Hne].
           ++ split; [apply fmax_leb_r; exact Hpn|apply fmin_leb_r; exact Hpn].
           ++ destruct (Hall k ltac:(lia) Hin) as [H1 H2]. split.
              ** apply (leb_trans _ (fst st)); [exact H1|].
                 apply fmax_leb_l. exact Hkn.
              ** apply (leb_trans _ kmin); [|exact H2].
                 apply fmin_leb_l. exact Hn.
Qed.

(** The first pass.  With no line inside the sampled range [kmax] stays
    0 and [kmin] is never assigned.  When every line inside the range
    has a strength above zero and there is one, [kmin] has a value,
    [kmin <= kmax], and [kmax] is at least and [kmin] at most the
    strength of each line inside the range. *)
Theorem kmax_kmin_bounds tr r temp :
  (forall k, 0 <= k < n_l tr ->
     out_of_range tr (line_wavn tr k) = false ->
     PrimFloat.ltb 0%float (strength tr r temp k) = true) ->
  let kk := kmax_kmin exp SIGCTE EXPCTE tr r temp in
  ((forall k, 0 <= k < n_l tr -> out_of_range tr (line_wavn tr k) = true) ->
   kk = (0%float, None)) /\
  ((exists k, 0 <= k < n_l tr /\ out_of_range tr (line_wavn tr k) = false) ->
   exists kmin,
     snd kk = Some kmin /\ PrimFloat.leb kmin (fst kk) = true /\
     forall k, 0 <= k < n_l tr ->
       out_of_range tr (line_wavn tr k) = false ->
       PrimFloat.leb (strength tr r temp k) (fst kk) = true /\
       PrimFloat.leb kmin (strength tr r temp k) = true).
Proof.
  intros Hpos kk. subst kk. unfold kmax_kmin.
  rewrite (zrange_to_nat (n_l tr)).
  pose proof (kmax_prefix tr r temp (Z.to_nat (n_l tr))
                ltac:(intros k Hk; apply Hpos; lia)) as H.
  cbv zeta in H.
  set (st := fold_left _ (zrange 0 (Z.of_nat (Z.to_nat (n_l tr)))) _) in *.
  destruct H as [[Hst Hall]|(kmin & Hkm & Hk & Hn & Hle & Hall)].
  - split; [intros _; exact Hst|].
    intros (k & Hk & Hin). rewrite Hall in Hin by lia. discriminate.
  - split.
    + intros Hout. exfalso.
      assert (Hfold : st = (0%float, None)).
      { subst st. apply fold_left_id. intros x k Hk0.
        apply in_zrange in Hk0. unfold kmax_step.
        rewrite Hout by lia. reflexivity. }
      rewrite Hfold in Hk. cbn [fst] in Hk. discriminate Hk.
    + intros _. exists kmin. repeat apply conj; try assumption.
      intros k Hk0 Hin. apply Hall; [lia|exact Hin].
Qed.

End MolExtKmax.

Lemma kmax_kmin_bounds_witness :
  let kk := kmax_kmin exp_series 1 1 tr_ex 0 100%float in
  exists kmin,
    snd kk = Some kmin /\ PrimFloat.leb kmin (fst kk) = true /\
    forall k, 0 <= k < 3 ->
      out_of_range tr_ex (line_wavn tr_ex k) = false ->
      PrimFloat.leb (strength exp_series 1 1 tr_ex 0 100%float k) (fst kk) = true /\
      PrimFloat.leb kmin (strength exp_series 1 1 tr_ex 0 100%float k) = true.
Proof.
  refine (proj2 (kmax_kmin_bounds exp_series 1 1 tr_ex 0 100%float _) _).
  - intros k Hk _. change (n_l tr_ex) with 3 in Hk.
    assert (Hc : k = 0 \/ k = 1 \/ k = 2) by lia.
    destruct Hc as [->|[->| ->]]; vm_compute; reflexivity.
  - exists 0. split; [vm_compute; split; [discriminate|reflexivity]|].
    vm_compute. reflexivity.
Defined.

End Extinction.

(** ** Persistence layer: [savefile_extinct] and [restfile_extinct] *)

Module Persist.

Abbreviation byte := Init.Byte.byte.

(** The two routines move object representations between memory and a
    file, so memory is modelled as bytes here: the grid [e[0]] is one
    block of [nrad*nwav] doubles of [sizeof(PREC_RES)] bytes each, laid
    out by [extwn] with row pointers [e[i] = e[0] + i*nwn], and the flag
    array is a block of [nrad] objects of [sizeof(_Bool)] bytes. *)
Definition sizeof_PREC_RES : nat := 8.
Definition sizeof_Bool : nat := 1.
Definition sizeof_char : nat := 1.

(** The bytes of [e[i][j]] in the block [e0] of a grid with rows of
    [nwav] elements. *)
Definition cell (e0 : list byte) (nwav : nat) (i j : nat) : list byte :=
  take sizeof_PREC_RES (drop (sizeof_PREC_RES * (i * nwav + j)) e0).

(** The file system: the contents of the files, and which paths [fopen]
    can open for writing and for reading. *)
Record fsys := mkfsys {
  content : gmap string (list byte);
  may_write : string -> bool;
  may_read : string -> bool
}.

(** [fopen(filename, mode)] with mode w: the file is created or emptied.
    [None] is the [NULL] result. *)
Definition fopen_w (fs : fsys) (filename : string) : option fsys :=
  if may_write fs filename then
    Some (mkfsys (<[filename := []]> (content fs)) (may_write fs) (may_read fs))
  else None.

(** [fopen(filename, mode)] with mode r: the stream is what is left to
    read. *)
Definition fopen_r (fs : fsys) (filename : string) : option (list byte) :=
  if may_read fs filename then content fs !! filename else None.

(** [fwrite(ptr, size, count, fp)] on the stream of [filename] (the
    device takes every byte). *)
Definition fwrite (ptr : list byte) (size count : nat) (filename : string)
    (fs : fsys) : fsys :=
  let old := default [] (content fs !! filename) in
  mkfsys (<[filename := old ++ take (size * count) ptr]> (content fs))
         (may_write fs) (may_read fs).

(** [fread(ptr, size, count, fp)]: the number of whole items read, the
    buffer and the rest of the stream.  The bytes of a last, partial item
    are copied as well. *)
Definition fread (ptr : list byte) (size count : nat) (fp : list byte)
  : nat * list byte * list byte :=
  let got := take (size * count) fp in
  (Nat.div (length got) size,
   take (length ptr) (got ++ drop (length got) ptr),
   drop (size * count) fp).

(** [strncmp(a, b, n)]: zero or the difference of the first pair of bytes
    that differ, looking no further than a NUL or [n] bytes. *)
Fixpoint strncmp (a b : list byte) (n : nat) : Z :=
  match n with
  | O => 0
  | S n' =>
      let x := hd Byte.x00 a in
      let y := hd Byte.x00 b in
      if negb (Strings.Byte.eqb x y) then
        Z.of_N (Strings.Byte.to_N x) - Z.of_N (Strings.Byte.to_N y)
      else if Strings.Byte.eqb x Byte.x00 then 0
      else strncmp (tl a) (tl b) n'
  end.

(** The magic tag, and the string literal (with its NUL) the source
    compares against. *)
Definition mn : list byte := [Byte.x40; Byte.x45; Byte.x40; Byte.x53; Byte.x40].
Definition mn_literal : list byte := mn ++ [Byte.x00].

Example mn_text : String.list_byte_of_string "@E@S@" = mn.
Proof. reflexivity. Qed.

(** What the routines report through [transiterror] and [transitprint]. *)
Inductive report : Type :=
| Warn_cannot_write
| Saved (computed nrad : Z)
| Warn_cannot_read
| Warn_not_valid
| Restored (from : Z).

(** The loop [for (i=0; i<nrad; i++) if (c[i]) break;] *)
Fixpoint first_computed (c : list byte) (nrad : nat) (i : Z) : Z :=
  match nrad with
  | O => i
  | S n =>
      match c with
      | [] => i
      | b :: c' =>
          if negb (Strings.Byte.eqb b Byte.x00) then i
          else first_computed c' n (i + 1)
      end
  end.

Definition savefile_extinct (filename : string) (e0 c : list byte)
    (nrad nwav : Z) (fs : fsys) : report * fsys :=
  match fopen_w fs filename with
  | None => (Warn_cannot_write, fs)
  | Some fs =>
      let fs := fwrite mn sizeof_char 5 filename fs in
      let fs := fwrite e0 sizeof_PREC_RES (Z.to_nat (nrad * nwav)) filename fs in
      let fs := fwrite c sizeof_Bool (Z.to_nat nrad) filename fs in
      let i := first_computed c (Z.to_nat nrad) 0 in
      (Saved (nrad - i) nrad, fs)
  end.

Definition restfile_extinct (filename : string) (e0 c : list byte)
    (nrad nwav : Z) (fs : fsys) : report * list byte * list byte :=
  match fopen_r fs filename with
  | None => (Warn_cannot_read, e0, c)
  | Some fp =>
      let '(n, tag, fp) := fread (repeat Byte.x00 5) sizeof_char 5 fp in
      if negb (Nat.eqb n 5) || negb (strncmp tag mn_literal 5 =? 0) then
        (Warn_not_valid, e0, c)
      else
        let '(_, e0, fp) := fread e0 sizeof_PREC_RES (Z.to_nat (nrad * nwav)) fp in
        let '(_, c, fp) := fread c sizeof_Bool (Z.to_nat nrad) fp in
        let i := first_computed c (Z.to_nat nrad) 0 in
        (Restored i, e0, c)
  end.

(** A file system with no file in which every path can be opened. *)
Definition fs_empty : fsys := mkfsys ∅ (fun _ => true) (fun _ => true).

Definition b1 : byte := Byte.x01.
Definition b0 : byte := Byte.x00.

Example save_restore_ex :
  let e0 := [b1; b0; b0; b0; b0; b0; b0; b0; b0; b1; b0; b0; b0; b0; b0; b0] in
  let c := [b0; b1] in
  let fs := snd (savefile_extinct "ex.dat" e0 c 2 1 fs_empty) in
  content fs !! "ex.dat"%string = Some (mn ++ e0 ++ c) /\
  restfile_extinct "ex.dat" (repeat b0 16) (repeat b0 2) 2 1 fs
    = (Restored 1, e0, c).
Proof. vm_compute. split; reflexivity. Qed.

(** *** Properties *)

Lemma to_N_inj (x y : byte) :
  Strings.Byte.to_N x = Strings.Byte.to_N y -> x = y.
Proof.
  intros H. pose proof (Strings.Byte.of_to_N x) as Hx.
  rewrite H, Strings.Byte.of_to_N in Hx. congruence.
Qed.

Lemma strncmp_step (x y : byte) (a b : list byte) (n : nat) :
  y <> Byte.x00 ->
  strncmp (x :: a) (y :: b) (S n) = 0 -> x = y /\ strncmp a b n = 0.
Proof.
  intros Hy. cbn [strncmp hd tl].
  destruct (Strings.Byte.eqb x y) eqn:E; cbn [negb].
  - apply Strings.Byte.byte_dec_bl in E. subst y.
    destruct (Strings.Byte.eqb x Byte.x00) eqn:E0.
    + apply Strings.Byte.byte_dec_bl in E0. contradiction.
    + auto.
  - intros H. apply Strings.Byte.eqb_false in E. exfalso. apply E.
    apply to_N_inj. lia.
Qed.

Lemma strncmp_mn (tag : list byte) :
  length tag = 5%nat -> strncmp tag mn_literal 5 = 0 -> tag = mn.
Proof.
  intros Hlen H.
  destruct tag as [|t0 [|t1 [|t2 [|t3 [|t4 [|? ?]]]]]]; try discriminate Hlen.
  unfold mn_literal, mn in H. cbn [app] in H.
  apply strncmp_step in H; [|discriminate]. destruct H as [-> H].
  apply strncmp_step in H; [|discriminate]. destruct H as [-> H].
  apply strncmp_step in H; [|discriminate]. destruct H as [-> H].
  apply strncmp_step in H; [|discriminate]. destruct H as [-> H].
  apply strncmp_step in H; [|discriminate]. destruct H as [-> H].
  reflexivity.
Qed.

Lemma strncmp_mn_refl : strncmp mn mn_literal 5 = 0.
Proof. vm_compute. reflexivity. Qed.

(** Reading exactly the items that head the stream into a buffer of
    their size. *)
Lemma fread_exact (ptr got rest : list byte) (size count : nat) :
  size <> 0%nat ->
  length got = (size * count)%nat ->
  length ptr = length got ->
  fread ptr size count (got ++ rest) = (count, got, rest).
Proof.
  intros Hs Hg Hp. unfold fread.
  rewrite take_app_length' by lia.
  rewrite drop_app_length' by lia.
  rewrite (drop_ge ptr (length got)) by lia.
  rewrite app_nil_r, Hp, firstn_all.
  rewrite Hg, Nat.mul_comm, Nat.div_mul by assumption.
  reflexivity.
Qed.

Lemma fread_unchanged_shape (ptr fp : list byte) (size count : nat) :
  length (snd (fst (fread ptr size count fp))) = length ptr.
Proof.
  unfold fread. cbn [fst snd].
  rewrite length_take, length_app, length_drop. lia.
Qed.

(** The contents of the file that a successful [savefile_extinct]
    leaves. *)
Lemma savefile_extinct_content fs filename (e0 c : list byte) (nrad nwav : Z) :
  may_write fs filename = true ->
  length e0 = (sizeof_PREC_RES * Z.to_nat (nrad * nwav))%nat ->
  length c = (sizeof_Bool * Z.to_nat nrad)%nat ->
  let fs' := snd (savefile_extinct filename e0 c nrad nwav fs) in
  content fs' !! filename = Some (mn ++ e0 ++ c) /\
  may_read fs' = may_read fs.
Proof.
  intros Hw He Hc. unfold savefile_extinct, fopen_w. rewrite Hw.
  cbn [snd]. unfold fwrite. cbn [content may_read may_write].
  rewrite !lookup_insert_eq. cbn [default].
  rewrite <- He, <- Hc, !firstn_all.
  split; [|reflexivity].
  replace (take (sizeof_char * 5) mn) with mn by reflexivity.
  unfold id. cbn [app]. rewrite <- app_assoc. reflexivity.
Qed.

(** C1.  When both files can be opened, [savefile_extinct] followed by
    [restfile_extinct] with the same dimensions puts the saved grid block
    and flag block, byte for byte, into whatever buffers of that size it
    is handed.  The file holds the five bytes of the tag, then the
    [nrad*nwav] doubles of the grid with [e[i][j]] at offset
    [5 + 8*(i*nwav + j)] (row-major), then the [nrad] one-byte flags. *)
Theorem save_restore_roundtrip fs filename (e0 c e0' c' : list byte)
    (nrad nwav : Z) :
  0 <= nrad -> 0 <= nwav ->
  length e0 = (sizeof_PREC_RES * Z.to_nat (nrad * nwav))%nat ->
  length c = (sizeof_Bool * Z.to_nat nrad)%nat ->
  length e0' = length e0 -> length c' = length c ->
  may_write fs filename = true -> may_read fs filename = true ->
  let fs' := snd (savefile_extinct filename e0 c nrad nwav fs) in
  exists file,
    content fs' !! filename = Some file /\
    file = mn ++ e0 ++ c /\
    length mn = 5%nat /\
    (forall i j : nat, (i < Z.to_nat nrad)%nat -> (j < Z.to_nat nwav)%nat ->
       take sizeof_PREC_RES
            (drop (5 + sizeof_PREC_RES * (i * Z.to_nat nwav + j)) file)
       = cell e0 (Z.to_nat nwav) i j /\
       length (cell e0 (Z.to_nat nwav) i j) = sizeof_PREC_RES) /\
    (forall i : nat, (i < Z.to_nat nrad)%nat ->
       file !! (5 + sizeof_PREC_RES * Z.to_nat (nrad * nwav) + i)%nat = c !! i) /\
    exists from,
      restfile_extinct filename e0' c' nrad nwav fs' = (Restored from, e0, c).
Proof.
  intros Hr Hv He Hc He' Hc' Hw Hrd fs'.
  destruct (savefile_extinct_content fs filename e0 c nrad nwav Hw He Hc)
    as [Hfile Hmr].
  fold fs' in Hfile, Hmr.
  assert (Hmul : Z.to_nat (nrad * nwav) = (Z.to_nat nrad * Z.to_nat nwav)%nat)
    by (apply Z2Nat.inj_mul; assumption).
  exists (mn ++ e0 ++ c). split; [assumption|]. split; [reflexivity|].
  split; [reflexivity|]. split; [|split].
  - intros i j Hi Hj. unfold cell.
    assert (Hin : (sizeof_PREC_RES * (i * Z.to_nat nwav + j) + sizeof_PREC_RES
                   <= length e0)%nat).
    { rewrite He, Hmul. unfold sizeof_PREC_RES. nia. }
    split.
    + rewrite drop_app_ge by (cbn [length mn]; lia).
      replace (5 + sizeof_PREC_RES * (i * Z.to_nat nwav + j) - length mn)%nat
        with (sizeof_PREC_RES * (i * Z.to_nat nwav + j))%nat
        by (cbn [length mn]; lia).
      rewrite drop_app_le by lia.
      rewrite take_app_le by (rewrite length_drop; lia).
      reflexivity.
    + rewrite length_take, length_drop. lia.
  - intros i Hi.
    rewrite lookup_app_r by (cbn [length mn]; lia).
    rewrite lookup_app_r by (cbn [length mn]; lia).
    f_equal. cbn [length mn]. lia.
  - unfold restfile_extinct, fopen_r. rewrite Hmr, Hrd, Hfile.
    rewrite (fread_exact _ mn (e0 ++ c) sizeof_char 5)
      by (first [discriminate | reflexivity]).
    rewrite strncmp_mn_refl. cbn [Nat.eqb negb orb Z.eqb].
    rewrite (fread_exact e0' e0 c sizeof_PREC_RES)
      by (first [discriminate | assumption]).
    pose proof (fread_exact c' c [] sizeof_Bool (Z.to_nat nrad)
                  ltac:(discriminate) Hc Hc') as Hf.
    rewrite app_nil_r in Hf. rewrite Hf.
    eexists. reflexivity.
Qed.

(** The round trip on a grid of two layers by one wavenumber. *)
Lemma save_restore_roundtrip_witness :
  exists from,
    restfile_extinct "ex.dat" (repeat b0 16) (repeat b0 2) 2 1
      (snd (savefile_extinct "ex.dat"
              [b1; b0; b0; b0; b0; b0; b0; b0; b0; b1; b0; b0; b0; b0; b0; b0]
              [b0; b1] 2 1 fs_empty))
    = (Restored from,
       [b1; b0; b0; b0; b0; b0; b0; b0; b0; b1; b0; b0; b0; b0; b0; b0],
       [b0; b1]).
Proof.
  destruct (save_restore_roundtrip fs_empty "ex.dat"
              [b1; b0; b0; b0; b0; b0; b0; b0; b0; b1; b0; b0; b0; b0; b0; b0]
              [b0; b1] (repeat b0 16) (repeat b0 2) 2 1)
    as (file & _ & _ & _ & _ & _ & H);
    try reflexivity; try (vm_compute; discriminate).
  exact H.
Defined.

(** C8.  When the file cannot be opened for reading, or its first five
    bytes are not the tag (a file of fewer than five bytes included),
    [restfile_extinct] returns with a warning only and hands back the
    grid block and the flag block as they were. *)
Theorem restore_rejects_bad_file fs filename (e0 c : list byte) (nrad nwav : Z) :
  match fopen_r fs filename with
  | None => True
  | Some file => take 5 file <> mn
  end ->
  restfile_extinct filename e0 c nrad nwav fs
  = (match fopen_r fs filename with
     | None => Warn_cannot_read
     | Some _ => Warn_not_valid
     end, e0, c).
Proof.
  intros H. unfold restfile_extinct.
  destruct (fopen_r fs filename) as [file|]; [|reflexivity].
  unfold fread at 1. change (sizeof_char * 5)%nat with 5%nat.
  change sizeof_char with 1%nat. rewrite Nat.div_1_r.
  destruct (Nat.eqb_spec (length (take 5 file)) 5) as [E|E];
    [|reflexivity].
  cbn [negb orb].
  assert (Htag : take (length (repeat Byte.x00 5))
                   (take 5 file ++ drop (length (take 5 file)) (repeat Byte.x00 5))
                 = take 5 file).
  { rewrite E. cbn [repeat length drop]. rewrite app_nil_r.
    apply take_ge. lia. }
  rewrite Htag.
  destruct (Z.eqb_spec (strncmp (take 5 file) mn_literal 5) 0) as [E0|E0];
    [|reflexivity].
  exfalso. apply H. apply strncmp_mn; assumption.
Qed.

(** A file of three bytes and a missing file. *)
Lemma restore_rejects_bad_file_witness :
  restfile_extinct "bad.dat" [b1; b0] [b1] 1 1
    (mkfsys {[ "bad.dat"%string := [Byte.x40; Byte.x45; Byte.x40] ]}
            (fun _ => true) (fun _ => true))
  = (Warn_not_valid, [b1; b0], [b1]) /\
  restfile_extinct "none.dat" [b1; b0] [b1] 1 1 fs_empty
  = (Warn_cannot_read, [b1; b0], [b1]).
Proof.
  split.
  - pose proof (restore_rejects_bad_file
                  (mkfsys {[ "bad.dat"%string := [Byte.x40; Byte.x45; Byte.x40] ]}
                          (fun _ => true) (fun _ => true))
                  "bad.dat" [b1; b0] [b1] 1 1) as H.
    vm_compute in H. vm_compute. apply H. discriminate.
  - pose proof (restore_rejects_bad_file fs_empty "none.dat" [b1; b0] [b1] 1 1)
      as H.
    vm_compute in H. vm_compute. apply H. exact I.
Defined.

(** *** Short files and files of other dimensions *)

(** What [fread] leaves in a buffer of exactly [count] items: the bytes
    the stream has, then the old contents. *)
Lemma fread_lookup (ptr fp : list byte) (size count k : nat) :
  length ptr = (size * count)%nat -> (k < length ptr)%nat ->
  snd (fst (fread ptr size count fp)) !! k
  = if (k <? length fp)%nat then fp !! k else ptr !! k.
Proof.
  intros Hp Hk. unfold fread. cbn [fst snd].
  rewrite lookup_take_lt by exact Hk.
  destruct (Nat.ltb_spec k (length fp)) as [Hin|Hout].
  - rewrite lookup_app_l by (rewrite length_take; lia).
    apply lookup_take_lt. lia.
  - rewrite length_take_ge by lia.
    rewrite lookup_app_r by (rewrite length_take_ge; lia).
    rewrite length_take_ge by lia. rewrite lookup_drop. f_equal. lia.
Qed.

(** The loop that looks for the first flag set stops at the first byte
    that is not zero, or at the end. *)
Lemma first_computed_spec (c : list byte) (nrad : nat) (i0 : Z) :
  (nrad <= length c)%nat ->
  let i := first_computed c nrad i0 in
  i0 <= i <= i0 + Z.of_nat nrad /\
  (forall k : nat, Z.of_nat k < i - i0 -> c !! k = Some Byte.x00) /\
  (i < i0 + Z.of_nat nrad ->
   exists b, c !! Z.to_nat (i - i0) = Some b /\ b <> Byte.x00).
Proof.
  revert c i0. induction nrad as [|n IH]; intros c i0 Hlen.
  - destruct c; cbn [first_computed]; cbv zeta; repeat apply conj; intros; lia.
  - destruct c as [|b c']; [cbn [length] in Hlen; lia|]. cbn [first_computed].
    destruct (Strings.Byte.eqb b Byte.x00) eqn:E; cbn [negb].
    + apply Strings.Byte.byte_dec_bl in E. subst b.
      specialize (IH c' (i0 + 1) ltac:(cbn [length] in Hlen; lia)).
      cbv zeta in IH |- *. destruct IH as (Hr & Hz & Hnz).
      repeat apply conj; try lia.
      * intros [|k] Hk; [reflexivity|]. cbn [lookup list_lookup].
        apply Hz. lia.
      * intros Hlt. destruct (Hnz ltac:(lia)) as (b & Hb & Hne).
        exists b. split; [|exact Hne].
        replace (Z.to_nat (first_computed c' n (i0 + 1) - i0))
          with (S (Z.to_nat (first_computed c' n (i0 + 1) - (i0 + 1)))) by lia.
        exact Hb.
    + cbv zeta. repeat apply conj; try lia.
      intros _. exists b. rewrite Z.sub_diag. split; [reflexivity|].
        intros ->. discriminate E.
Qed.

(** After the tag nothing is checked.  Whatever follows the tag in the
    file, [restfile_extinct] reports a restored file: each byte of the
    grid block and then of the flag block is taken from the file as far
    as the file goes and keeps its old value beyond that; the radius it
    reports is the index of the first flag that is then not zero, or
    [nrad] if there is none. *)
Theorem restfile_extinct_short_file fs filename (body e0 c : list byte)
    (nrad nwav : Z) :
  fopen_r fs filename = Some (mn ++ body) ->
  length e0 = (sizeof_PREC_RES * Z.to_nat (nrad * nwav))%nat ->
  length c = (sizeof_Bool * Z.to_nat nrad)%nat ->
  exists from e0' c',
    restfile_extinct filename e0 c nrad nwav fs = (Restored from, e0', c') /\
    length e0' = length e0 /\ length c' = length c /\
    (forall k : nat, (k < length e0)%nat ->
       e0' !! k = if (k <? length body)%nat then body !! k else e0 !! k) /\
    (forall k : nat, (k < length c)%nat ->
       c' !! k = if (length e0 + k <? length body)%nat
                 then body !! (length e0 + k)%nat else c !! k) /\
    0 <= from <= Z.max 0 nrad /\
    (forall k : nat, Z.of_nat k < from -> c' !! k = Some Byte.x00) /\
    (from < nrad -> exists b, c' !! Z.to_nat from = Some b /\ b <> Byte.x00).
Proof.
  intros Hopen He Hc. unfold restfile_extinct. rewrite Hopen.
  rewrite (fread_exact _ mn body sizeof_char 5)
    by (first [discriminate | reflexivity]).
  rewrite strncmp_mn_refl. cbn [Nat.eqb negb orb Z.eqb].
  destruct (fread e0 sizeof_PREC_RES (Z.to_nat (nrad * nwav)) body)
    as [[n1 e0'] fp1] eqn:E1.
  destruct (fread c sizeof_Bool (Z.to_nat nrad) fp1) as [[n2 c'] fp2] eqn:E2.
  assert (He0' : e0' = snd (fst (fread e0 sizeof_PREC_RES
                                       (Z.to_nat (nrad * nwav)) body)))
    by (rewrite E1; reflexivity).
  assert (Hfp1 : fp1 = drop (length e0) body)
    by (unfold fread in E1; rewrite He; congruence).
  assert (Hc' : c' = snd (fst (fread c sizeof_Bool (Z.to_nat nrad) fp1)))
    by (rewrite E2; reflexivity).
  assert (Hlc : length c' = length c)
    by (rewrite Hc'; apply fread_unchanged_shape).
  exists (first_computed c' (Z.to_nat nrad) 0), e0', c'.
  pose proof (first_computed_spec c' (Z.to_nat nrad) 0
                ltac:(rewrite Hlc, Hc; unfold sizeof_Bool; lia)) as Hfc.
  cbv zeta in Hfc. destruct Hfc as (Hr & Hz & Hnz).
  repeat apply conj; try lia.
  - reflexivity.
  - rewrite He0'. apply fread_unchanged_shape.
  - intros k Hk. rewrite He0'. apply fread_lookup; assumption.
  - intros k Hk. rewrite Hc', (fread_lookup c fp1 _ _ k Hc Hk), Hfp1.
    rewrite length_drop, lookup_drop.
    destruct (Nat.ltb_spec k (length body - length e0)),
             (Nat.ltb_spec (length e0 + k) (length body));
      try reflexivity; lia.
  - intros k Hk. apply Hz. lia.
  - intros Hlt. destruct (Hnz ltac:(lia)) as (b & Hb & Hne).
    exists b. rewrite Z.sub_0_r in Hb. split; assumption.
Qed.

(** A file that ends inside the grid. *)
Definition fs_cut : fsys :=
  mkfsys {[ "cut.dat"%string := mn ++ repeat b1 8 ]}
         (fun _ => true) (fun _ => true).

Lemma fs_cut_open : fopen_r fs_cut "cut.dat" = Some (mn ++ repeat b1 8).
Proof. vm_compute. reflexivity. Qed.

(** The first eight bytes are restored, the rest of the grid and the
    flags stay. *)
Lemma restfile_extinct_short_file_witness :
  exists from e0' c',
    restfile_extinct "cut.dat"
      [b0; b0; b0; b0; b0; b0; b0; b0; b1; b1; b1; b1; b1; b1; b1; b1]
      [b0; b1] 2 1 fs_cut
    = (Restored from, e0', c') /\
    e0' !! 0%nat = Some b1 /\ e0' !! 8%nat = Some b1 /\
    c' !! 0%nat = Some b0 /\ c' !! 1%nat = Some b1.
Proof.
  destruct (restfile_extinct_short_file fs_cut "cut.dat" (repeat b1 8)
              [b0; b0; b0; b0; b0; b0; b0; b0; b1; b1; b1; b1; b1; b1; b1; b1]
              [b0; b1] 2 1 fs_cut_open eq_refl eq_refl)
    as (from & e0' & c' & Hres & _ & _ & He & Hc & _).
  exists from, e0', c'. split; [exact Hres|].
  repeat apply conj.
  - apply (He 0%nat). simpl. lia.
  - apply (He 8%nat). simpl. lia.
  - apply (Hc 0%nat). simpl. lia.
  - apply (Hc 1%nat). simpl. lia.
Defined.

(** No dimension is stored and none is checked.  A grid saved with
    [nwav] wavenumbers per layer and restored into a grid with fewer,
    [nwav' < nwav], is reported as restored; the flags are then not the
    saved flags but the grid bytes that follow the first
    [8 * nrad * nwav'] ones. *)
Theorem restfile_extinct_other_dimension fs filename
    (e0 c e0' c' : list byte) (nrad nwav nwav' : Z) :
  0 < nrad -> 0 <= nwav' < nwav ->
  length e0 = (sizeof_PREC_RES * Z.to_nat (nrad * nwav))%nat ->
  length c = (sizeof_Bool * Z.to_nat nrad)%nat ->
  length e0' = (sizeof_PREC_RES * Z.to_nat (nrad * nwav'))%nat ->
  length c' = (sizeof_Bool * Z.to_nat nrad)%nat ->
  may_write fs filename = true -> may_read fs filename = true ->
  let fs' := snd (savefile_extinct filename e0 c nrad nwav fs) in
  exists from e1 c1,
    restfile_extinct filename e0' c' nrad nwav' fs' = (Restored from, e1, c1) /\
    e1 = take (length e0') e0 /\
    c1 = take (length c') (drop (length e0') e0).
Proof.
  intros Hr Hv He Hc He' Hc' Hw Hrd fs'.
  destruct (savefile_extinct_content fs filename e0 c nrad nwav Hw He Hc)
    as [Hfile Hmr].
  fold fs' in Hfile, Hmr.
  assert (Hlen : (length e0' + length c' <= length e0)%nat).
  { rewrite He, He', Hc'. unfold sizeof_PREC_RES, sizeof_Bool.
    rewrite !Z2Nat.inj_mul by lia. nia. }
  unfold restfile_extinct, fopen_r. rewrite Hmr, Hrd, Hfile.
  rewrite (fread_exact _ mn (e0 ++ c) sizeof_char 5)
    by (first [discriminate | reflexivity]).
  rewrite strncmp_mn_refl. cbn [Nat.eqb negb orb Z.eqb].
  assert (Hsplit : e0 ++ c
                   = take (length e0') e0
                     ++ (take (length c') (drop (length e0') e0)
                         ++ (drop (length c') (drop (length e0') e0) ++ c))).
  { rewrite (app_assoc (take (length c') _)), take_drop, app_assoc, take_drop.
    reflexivity. }
  rewrite Hsplit.
  rewrite (fread_exact e0' (take (length e0') e0) _ sizeof_PREC_RES)
    by (first [discriminate
              | rewrite length_take_le by lia; first [exact He' | reflexivity]]).
  rewrite (fread_exact c' (take (length c') (drop (length e0') e0)) _ sizeof_Bool)
    by (first [discriminate
              | rewrite length_take_le by (rewrite length_drop; lia);
                first [exact Hc' | reflexivity]]).
  eexists _, _, _. repeat apply conj; reflexivity.
Qed.

(** Two layers of two wavenumbers saved, restored as two layers of one:
    the flags come out of the grid. *)
Lemma restfile_extinct_other_dimension_witness :
  exists from e1 c1,
    restfile_extinct "ex.dat" (repeat b0 16) (repeat b0 2) 2 1
      (snd (savefile_extinct "ex.dat" (repeat b1 32) [b0; b0] 2 2 fs_empty))
    = (Restored from, e1, c1) /\
    e1 = repeat b1 16 /\ c1 = [b1; b1].
Proof.
  exact (restfile_extinct_other_dimension fs_empty "ex.dat" (repeat b1 32)
           [b0; b0] (repeat b0 16) (repeat b0 2) 2 2 1
           ltac:(lia) ltac:(lia) eq_refl eq_refl eq_refl eq_refl
           eq_refl eq_refl).
Defined.

(** *** [restextinct]

    The routine reads a header of three numbers, checks it against the
    dimensions it is given, allocates the grid and reads the grid and the
    flags.  [PREC_NREC] is [long]. *)

Definition sizeof_PREC_NREC : nat := 8.
Definition sizeof_short : nat := 2.
Definition sizeof_pointer : nat := 8.

(** [i++] on a [short]: the sum is computed in [int] and converted back,
    which reduces it modulo 2^16. *)
Definition wrap16 (z : Z) : Z := wrap 16 z.

(** The extinction structure as the call leaves it: the row pointers
    [ex->e] (for each layer [NULL] or the offset of the row in the grid
    block, in elements), the grid block [ex->e[0]], the block that
    [ex->computed] points to, the bytes that [fread] stored past the end
    of that block, and what is left of the stream.  [None] is a pointer
    that was not assigned. *)
Record restored := mk_restored {
  e_rows : option (list (option Z));
  e_block : option (list byte);
  e_computed : list byte;
  e_past : list byte;
  rest : list byte
}.

(** The call returns a code, or the row loop stores before [ex->e] with
    an index that has wrapped to -32768 and, the index staying below
    [nrad], does not end. *)
Inductive rest_outcome : Type :=
| Returned (code : Z) (st : restored)
| Overrun.

(** [for(i=1; i<nrad; i++) ex->e[i] = ex->e[0] + i*nwn;] with the
    [short] index [i]; [fuel] bounds the number of tests of [i<nrad].
    [None] is a store outside [ex->e]. *)
Fixpoint row_pointers (fuel : nat) (i nrad nwn : Z) (rows : list (option Z))
  : option (list (option Z)) :=
  match fuel with
  | O => Some rows
  | S fuel =>
      if i <? nrad then
        if (0 <=? i) && (i <? Z.of_nat (length rows)) then
          row_pointers fuel (wrap16 (i + 1)) nrad nwn (set rows i (Some (i * nwn)))
        else None
      else Some rows
  end.

Section RestExtinct.

(** The value of the object representation of a [long] and of a [short],
    and whether [calloc(count, size)] finds the memory for a count that
    is not negative.  As a [size_t] a negative count is at least 2^63,
    and that many objects of eight bytes cannot be allocated. *)
Variable long_of_bytes : list byte -> Z.
Variable short_of_bytes : list byte -> Z.
Variable calloc_ok : Z -> nat -> bool.

Definition calloc (count : Z) (size : nat) : bool :=
  (0 <=? count) && calloc_ok count size.

(** The flags are read as [nrad] objects of [sizeof(PREC_RES)] bytes
    into [ex->computed], whatever the size of that block is: the bytes
    that do not fit are stored past its end, and the value returned does
    not depend on them.  With [nrad = 0] the pointer [ex->e[0]] is stored
    past a block of no row pointers; it is the grid block all the same. *)
Definition restextinct (in_ : list byte) (nrad niso nwn : Z)
    (computed_ : list byte) : rest_outcome :=
  let '(rn, nr, in1) :=
    fread (repeat Byte.x00 sizeof_PREC_NREC) sizeof_PREC_NREC 1 in_ in
  if negb (Nat.eqb rn 1)
  then Returned (-1) (mk_restored None None computed_ [] in1)
  else
  let '(rn, i, in2) := fread (repeat Byte.x00 sizeof_short) sizeof_short 1 in1 in
  if negb (Nat.eqb rn 1)
  then Returned (-1) (mk_restored None None computed_ [] in2)
  else
  let '(rn, nw, in3) :=
    fread (repeat Byte.x00 sizeof_PREC_NREC) sizeof_PREC_NREC 1 in2 in
  if negb (Nat.eqb rn 1)
  then Returned (-1) (mk_restored None None computed_ [] in3)
  else
  if negb (long_of_bytes nr =? nrad) || negb (long_of_bytes nw =? nwn) ||
     negb (short_of_bytes i =? niso) ||
     (niso >? 10000) || (nrad >? 10000000) || (nwn >? 10000000)
  then Returned (-2) (mk_restored None None computed_ [] in3)
  else if negb (calloc nrad sizeof_pointer)
  then Returned (-3) (mk_restored None None computed_ [] in3)
  else
    let rows := repeat None (Z.to_nat nrad) in
    if negb (calloc (wrap64 (nrad * nwn)) sizeof_PREC_RES)
    then Returned (-3) (mk_restored (Some rows) None computed_ [] in3)
    else
      let rows := set rows 0 (Some 0) in
      let count := wrap64 (nwn * nrad) in
      let '(rn, e0, in4) :=
        fread (repeat Byte.x00 (sizeof_PREC_RES * Z.to_nat (wrap64 (nrad * nwn))))
              sizeof_PREC_RES (Z.to_nat count) in3 in
      if negb (Z.of_nat rn =? count)
      then Returned (-1) (mk_restored (Some rows) (Some e0) computed_ [] in4)
      else
        let past :=
          drop (length computed_) (take (sizeof_PREC_RES * Z.to_nat nrad) in4) in
        let '(rn, c, in5) := fread computed_ sizeof_PREC_RES (Z.to_nat nrad) in4 in
        if negb (Z.of_nat rn =? nrad)
        then Returned (-1) (mk_restored (Some rows) (Some e0) c past in5)
        else
          match row_pointers (Z.to_nat nrad) 1 nrad nwn rows with
          | None => Overrun
          | Some rows => Returned 0 (mk_restored (Some rows) (Some e0) c past in5)
          end.

End RestExtinct.

(** Little-endian two's complement, for the examples. *)
Definition le_unsigned (bs : list byte) : Z :=
  fold_right (fun b acc => Z.of_N (Strings.Byte.to_N b) + 256 * acc) 0 bs.
Definition le_long (bs : list byte) : Z := wrap64 (le_unsigned bs).
Definition le_short (bs : list byte) : Z := wrap16 (le_unsigned bs).
Definition calloc_always (count : Z) (size : nat) : bool := true.

(** One layer of two wavenumbers for one isotope: the header, the grid
    and eight bytes for the flag. *)
Definition rest_file : list byte :=
  [b1; b0; b0; b0; b0; b0; b0; b0] ++ [b1; b0] ++
  [Byte.x02; b0; b0; b0; b0; b0; b0; b0] ++
  repeat Byte.x07 16 ++ [b1; b0; b0; b0; b0; b0; b0; b0].

Example restextinct_ex :
  restextinct le_long le_short calloc_always rest_file 1 1 2 (repeat b0 8)
  = Returned 0 (mk_restored (Some [Some 0]) (Some (repeat Byte.x07 16))
                            [b1; b0; b0; b0; b0; b0; b0; b0] [] []).
Proof. vm_compute. reflexivity. Qed.

(** Reading one object of [n] bytes. *)
Lemma fread_one_full (n : nat) (fp : list byte) :
  n <> 0%nat -> (n <= length fp)%nat ->
  fread (repeat Byte.x00 n) n 1 fp = (1%nat, take n fp, drop n fp).
Proof.
  intros Hn Hlen.
  rewrite <- (take_drop n fp) at 1.
  apply fread_exact; [exact Hn| |].
  - rewrite length_take_le by lia. lia.
  - rewrite repeat_length, length_take_le by lia. reflexivity.
Qed.

Lemma fread_count (ptr fp : list byte) (size count : nat) :
  size <> 0%nat ->
  fst (fst (fread ptr size count fp)) = count ->
  (size * count <= length fp)%nat.
Proof.
  intros Hs. unfold fread. cbn [fst]. intros H.
  destruct (Nat.le_gt_cases (size * count) (length fp)) as [Hle|Hgt];
    [exact Hle|].
  rewrite length_take_ge in H by lia.
  assert (Hlt : (length fp / size < count)%nat)
    by (apply Nat.Div0.div_lt_upper_bound; lia).
  lia.
Qed.

Lemma fread_full (ptr fp : list byte) (size count : nat) :
  size <> 0%nat -> (size * count <= length fp)%nat ->
  (size * count <= length ptr)%nat ->
  fread ptr size count fp
  = (count, take (size * count) fp ++ drop (size * count) ptr,
     drop (size * count) fp).
Proof.
  intros Hs Hf Hp. unfold fread.
  rewrite length_take_le by lia.
  rewrite Nat.mul_comm, Nat.div_mul by exact Hs.
  rewrite (Nat.mul_comm count size).
  f_equal. f_equal. apply take_ge.
  rewrite length_app, length_take_le, length_drop by lia. lia.
Qed.

Lemma wrap16_next (i : Z) : 0 <= i < 32767 -> wrap16 (i + 1) = i + 1.
Proof.
  intros Hi. unfold wrap16. apply Profile.wrap_id; [lia|].
  change (2 ^ (16 - 1)) with 32768. lia.
Qed.

(** Up to 32767 layers the loop gives every layer its row. *)
Lemma row_pointers_ok (fuel : nat) (i nrad nwn : Z) (rows : list (option Z)) :
  nrad <= 32767 -> 1 <= i <= nrad -> Z.of_nat (length rows) = nrad ->
  nrad - i + 1 <= Z.of_nat fuel ->
  exists rows',
    row_pointers fuel i nrad nwn rows = Some rows' /\
    length rows' = length rows /\
    (forall k, i <= k < nrad -> get None rows' k = Some (k * nwn)) /\
    (forall k, k < i -> get None rows' k = get None rows k).
Proof.
  revert i rows. induction fuel as [|fuel IH]; intros i rows Hn Hi Hlen Hfuel.
  - lia.
  - cbn [row_pointers]. destruct (Z.ltb_spec i nrad) as [Hlt|Hge].
    + destruct (Z.leb_spec 0 i); [|lia].
      destruct (Z.ltb_spec i (Z.of_nat (length rows))); [|lia]. cbn [andb].
      rewrite wrap16_next by lia.
      destruct (IH (i + 1) (set rows i (Some (i * nwn))) Hn ltac:(lia)
                   ltac:(rewrite ArrayFacts.length_set; exact Hlen) ltac:(lia))
        as (rows' & Hrun & Hl & Hset & Hkeep).
      exists rows'. rewrite ArrayFacts.length_set in Hl.
      repeat apply conj; try assumption.
      * intros k Hk. destruct (Z.eq_dec k i) as [->|Hne].
        -- rewrite Hkeep by lia. apply ArrayFacts.get_set_eq. lia.
        -- apply Hset. lia.
      * intros k Hk. rewrite Hkeep by lia.
        apply ArrayFacts.get_set_ne. lia.
    + exists rows. repeat apply conj; try reflexivity. intros k Hk. lia.
Qed.

(** With more layers the index wraps to -32768, still below [nrad], and
    the next store is outside [ex->e]. *)
Lemma row_pointers_wraps (n fuel : nat) (i nrad nwn : Z)
    (rows : list (option Z)) :
  32767 < nrad -> 1 <= i -> i = 32767 - Z.of_nat n ->
  32769 - i <= Z.of_nat fuel ->
  row_pointers fuel i nrad nwn rows = None.
Proof.
  revert fuel i rows. induction n as [|n IH]; intros fuel i rows Hn Hi Hin Hfuel.
  - assert (Hlast : i = 32767) by lia. clear Hin. subst i.
    destruct fuel as [|[|fuel]]; try (exfalso; lia).
    cbn [row_pointers]. destruct (Z.ltb_spec 32767 nrad); [|lia].
    destruct ((0 <=? 32767) && (32767 <? Z.of_nat (length rows)));
      [|reflexivity].
    change (wrap16 (32767 + 1)) with (-32768).
    destruct (Z.ltb_spec (-32768) nrad); [|lia]. reflexivity.
  - destruct fuel as [|fuel]; [exfalso; lia|].
    cbn [row_pointers]. destruct (Z.ltb_spec i nrad); [|lia].
    destruct ((0 <=? i) && (i <? Z.of_nat (length rows))); [|reflexivity].
    rewrite wrap16_next by lia.
    apply IH; lia.
Qed.

Section RestExtinctFacts.

Variable long_of_bytes : list byte -> Z.
Variable short_of_bytes : list byte -> Z.
Variable calloc_ok : Z -> nat -> bool.

(** The header of the stream is complete, holds the dimensions the call
    is given, and those are within the limits of the routine. *)
Definition header_matches (in_ : list byte) (nrad niso nwn : Z) : bool :=
  (18 <=? length in_)%nat &&
  (long_of_bytes (take 8 in_) =? nrad) &&
  (short_of_bytes (take 2 (drop 8 in_)) =? niso) &&
  (long_of_bytes (take 8 (drop 10 in_)) =? nwn) &&
  (niso <=? 10000) && (nrad <=? 10000000) && (nwn <=? 10000000).

Lemma restextinct_header (in_ : list byte) (nrad niso nwn : Z)
    (computed_ : list byte) :
  (18 <= length in_)%nat ->
  restextinct long_of_bytes short_of_bytes calloc_ok in_ nrad niso nwn computed_
  = let in3 := drop 18 in_ in
    if negb (header_matches in_ nrad niso nwn)
    then Returned (-2) (mk_restored None None computed_ [] in3)
    else if negb (calloc calloc_ok nrad sizeof_pointer)
    then Returned (-3) (mk_restored None None computed_ [] in3)
    else
      let rows := repeat None (Z.to_nat nrad) in
      if negb (calloc calloc_ok (wrap64 (nrad * nwn)) sizeof_PREC_RES)
      then Returned (-3) (mk_restored (Some rows) None computed_ [] in3)
      else
        let rows := set rows 0 (Some 0) in
        let count := wrap64 (nwn * nrad) in
        let '(rn, e0, in4) :=
          fread (repeat Byte.x00 (sizeof_PREC_RES * Z.to_nat (wrap64 (nrad * nwn))))
                sizeof_PREC_RES (Z.to_nat count) in3 in
        if negb (Z.of_nat rn =? count)
        then Returned (-1) (mk_restored (Some rows) (Some e0) computed_ [] in4)
        else
          let past :=
            drop (length computed_)
                 (take (sizeof_PREC_RES * Z.to_nat nrad) in4) in
          let '(rn, c, in5) := fread computed_ sizeof_PREC_RES (Z.to_nat nrad) in4 in
          if negb (Z.of_nat rn =? nrad)
          then Returned (-1) (mk_restored (Some rows) (Some e0) c past in5)
          else
            match row_pointers (Z.to_nat nrad) 1 nrad nwn rows with
            | None => Overrun
            | Some rows =>
                Returned 0 (mk_restored (Some rows) (Some e0) c past in5)
            end.
Proof.
  intros Hlen. unfold restextinct, header_matches.
  unfold sizeof_PREC_NREC, sizeof_short.
  rewrite (fread_one_full 8 in_) by lia. cbn [Nat.eqb negb].
  rewrite (fread_one_full 2 (drop 8 in_)) by (rewrite ?length_drop; lia).
  cbn [Nat.eqb negb].
  rewrite (fread_one_full 8 (drop 2 (drop 8 in_)))
    by (rewrite ?length_drop; lia).
  cbn [Nat.eqb negb].
  rewrite !drop_drop. change (8 + 2)%nat with 10%nat.
  change (10 + 8)%nat with 18%nat.
  destruct (Nat.leb_spec 18 (length in_)); [|lia]. cbn [andb].
  destruct (long_of_bytes (take 8 in_) =? nrad); cbn [negb orb andb];
    [|reflexivity].
  destruct (long_of_bytes (take 8 (drop 10 in_)) =? nwn); cbn [negb orb andb];
    [|rewrite ?andb_false_r; reflexivity].
  destruct (short_of_bytes (take 2 (drop 8 in_)) =? niso); cbn [negb orb andb];
    [|reflexivity].
  rewrite !Z.gtb_ltb, !Z.leb_antisym.
  destruct (10000 <? niso); cbn [negb orb andb]; [reflexivity|].
  destruct (10000000 <? nrad); cbn [negb orb andb]; [reflexivity|].
  destruct (10000000 <? nwn); cbn [negb orb andb]; reflexivity.
Qed.

Lemma restextinct_short (in_ : list byte) (nrad niso nwn : Z)
    (computed_ : list byte) :
  (length in_ < 18)%nat ->
  exists rest',
    restextinct long_of_bytes short_of_bytes calloc_ok in_ nrad niso nwn computed_
    = Returned (-1) (mk_restored None None computed_ [] rest').
Proof.
  intros Hshort.
  unfold restextinct, sizeof_PREC_NREC, sizeof_short.
  destruct (Nat.le_gt_cases 8 (length in_)) as [H8|H8].
  - rewrite (fread_one_full 8 in_) by lia. cbn [Nat.eqb negb].
    destruct (Nat.le_gt_cases 10 (length in_)) as [H10|H10].
    + rewrite (fread_one_full 2 (drop 8 in_)) by (rewrite ?length_drop; lia).
      cbn [Nat.eqb negb].
      destruct (fread (repeat Byte.x00 8) 8 1 (drop 2 (drop 8 in_)))
        as [[rn nw] in3] eqn:E.
      assert (Hrn : rn <> 1%nat).
      { intros ->. pose proof (fread_count _ _ 8 1 ltac:(lia)
                                 ltac:(rewrite E; reflexivity)) as Hc.
        rewrite !length_drop in Hc. lia. }
      destruct (Nat.eqb_spec rn 1); [contradiction|]. cbn [negb].
      eexists. reflexivity.
    + destruct (fread (repeat Byte.x00 2) 2 1 (drop 8 in_))
        as [[rn i] in2] eqn:E.
      assert (Hrn : rn <> 1%nat).
      { intros ->. pose proof (fread_count _ _ 2 1 ltac:(lia)
                                 ltac:(rewrite E; reflexivity)) as Hc.
        rewrite !length_drop in Hc. lia. }
      destruct (Nat.eqb_spec rn 1); [contradiction|]. cbn [negb].
      eexists. reflexivity.
  - destruct (fread (repeat Byte.x00 8) 8 1 in_) as [[rn nr] in1] eqn:E.
    assert (Hrn : rn <> 1%nat).
    { intros ->. pose proof (fread_count _ _ 8 1 ltac:(lia)
                               ltac:(rewrite E; reflexivity)) as Hc.
      lia. }
    destruct (Nat.eqb_spec rn 1); [contradiction|]. cbn [negb].
    eexists. reflexivity.
Qed.

(** What is rejected before anything is allocated.  A stream that is
    shorter than the header of 18 bytes gives -1; a complete header that
    does not hold the dimensions of the call, or dimensions beyond the
    limits, gives -2.  In both cases nothing is allocated and the flags
    are untouched. *)
Theorem restextinct_bad_header (in_ : list byte) (nrad niso nwn : Z)
    (computed_ : list byte) :
  header_matches in_ nrad niso nwn = false ->
  exists rest',
    restextinct long_of_bytes short_of_bytes calloc_ok in_ nrad niso nwn computed_
    = Returned (if (length in_ <? 18)%nat then -1 else -2)
               (mk_restored None None computed_ [] rest').
Proof.
  intros Hbad. destruct (Nat.ltb_spec (length in_) 18) as [Hshort|Hlong].
  - exact (restextinct_short in_ nrad niso nwn computed_ Hshort).
  - rewrite restextinct_header by lia. cbv zeta. rewrite Hbad. cbn [negb].
    eexists. reflexivity.
Qed.

Lemma fread_enough (ptr fp : list byte) (size count : nat) :
  size <> 0%nat -> (size * count <= length fp)%nat ->
  fread ptr size count fp
  = (count,
     take (length ptr) (take (size * count) fp ++ drop (size * count) ptr),
     drop (size * count) fp).
Proof.
  intros Hs Hf. unfold fread.
  rewrite length_take_le by lia.
  rewrite Nat.mul_comm, Nat.div_mul by exact Hs.
  rewrite (Nat.mul_comm count size). reflexivity.
Qed.

(** A complete stream, whatever the size of the flag block. *)
Lemma restextinct_complete (in_ : list byte) (nrad niso nwn : Z)
    (computed_ : list byte) :
  header_matches in_ nrad niso nwn = true ->
  0 <= nrad <= 32767 -> 0 <= nwn ->
  calloc_ok nrad sizeof_pointer = true ->
  calloc_ok (nrad * nwn) sizeof_PREC_RES = true ->
  let body := drop 18 in_ in
  let ngrid := (8 * Z.to_nat (nrad * nwn))%nat in
  let nflag := (8 * Z.to_nat nrad)%nat in
  (ngrid + nflag <= length body)%nat ->
  exists rows,
    restextinct long_of_bytes short_of_bytes calloc_ok in_ nrad niso nwn computed_
    = Returned 0
        (mk_restored (Some rows) (Some (take ngrid body))
           (take (length computed_)
                 (take nflag (drop ngrid body) ++ drop nflag computed_))
           (drop (length computed_) (take nflag (drop ngrid body)))
           (drop (ngrid + nflag) body)) /\
    Z.of_nat (length rows) = nrad /\
    forall k, 0 <= k < nrad -> get None rows k = Some (k * nwn).
Proof.
  intros Hhdr Hr Hw Hc1 Hc2 body ngrid nflag Hbody.
  assert (H18 : (18 <= length in_)%nat).
  { unfold header_matches in Hhdr.
    destruct (Nat.leb_spec 18 (length in_)); [assumption|discriminate]. }
  assert (Hlim : nwn <= 10000000).
  { unfold header_matches in Hhdr. rewrite !andb_true_iff in Hhdr.
    destruct Hhdr as (_ & H). apply Z.leb_le. exact H. }
  assert (Hwrap : wrap64 (nrad * nwn) = nrad * nwn).
  { unfold wrap64. apply Profile.wrap_id; [lia|].
    change (2 ^ (64 - 1)) with 9223372036854775808. nia. }
  rewrite restextinct_header by exact H18. cbv zeta.
  rewrite Hhdr. cbn [negb]. unfold calloc.
  destruct (Z.leb_spec 0 nrad); [|lia]. rewrite Hc1. cbn [andb negb].
  rewrite (Z.mul_comm nwn nrad), Hwrap.
  destruct (Z.leb_spec 0 (nrad * nwn)); [|nia]. rewrite Hc2. cbn [andb negb].
  fold body. unfold sizeof_PREC_RES. fold ngrid.
  rewrite (fread_full _ body 8 (Z.to_nat (nrad * nwn)))
    by (first [lia | fold ngrid; lia | rewrite repeat_length; fold ngrid; lia]).
  fold ngrid. rewrite Z2Nat.id by nia. rewrite Z.eqb_refl. cbn [negb].
  fold nflag.
  rewrite (fread_enough computed_ (drop ngrid body) 8 (Z.to_nat nrad))
    by (first [lia | fold nflag; rewrite ?length_drop; lia]).
  fold nflag. rewrite Z2Nat.id by lia. rewrite Z.eqb_refl. cbn [negb].
  rewrite drop_drop, (drop_ge (repeat Byte.x00 ngrid))
    by (rewrite repeat_length; lia).
  rewrite app_nil_r.
  destruct (Z.eq_dec nrad 0) as [Hz|Hnz].
  - subst nrad. cbn [Z.to_nat row_pointers repeat].
    eexists. split; [reflexivity|]. split; [reflexivity|].
    intros k Hk. lia.
  - destruct (row_pointers_ok (Z.to_nat nrad) 1 nrad nwn
                (set (repeat None (Z.to_nat nrad)) 0 (Some 0))
                ltac:(lia) ltac:(lia)
                ltac:(rewrite ArrayFacts.length_set, repeat_length; lia)
                ltac:(lia))
      as (rows & Hrun & Hl & Hset & Hkeep).
    rewrite Hrun. exists rows.
    rewrite ArrayFacts.length_set, repeat_length in Hl.
    repeat apply conj.
    + reflexivity.
    + lia.
    + intros k Hk. destruct (Z.eq_dec k 0) as [->|Hne].
      * rewrite Hkeep by lia. apply ArrayFacts.get_set_eq.
        rewrite repeat_length. lia.
      * apply Hset. lia.
Qed.

(** A complete file is restored.  With a matching header, between 1 and
    32767 layers, memory for the grid, a stream that holds the
    [nrad*nwn] doubles of the grid and then eight bytes for each layer,
    and a flag block of at least [8*nrad] bytes, the call returns 0: the
    grid block holds the grid bytes of the stream, the first [8*nrad]
    bytes of the flag block are the bytes that follow them, nothing is
    stored past the flag block, and the row of layer [k] starts [k*nwn]
    elements into the grid block. *)
Theorem restextinct_restores (in_ : list byte) (nrad niso nwn : Z)
    (computed_ : list byte) :
  header_matches in_ nrad niso nwn = true ->
  1 <= nrad <= 32767 -> 0 <= nwn ->
  calloc_ok nrad sizeof_pointer = true ->
  calloc_ok (nrad * nwn) sizeof_PREC_RES = true ->
  let body := drop 18 in_ in
  let ngrid := (8 * Z.to_nat (nrad * nwn))%nat in
  let nflag := (8 * Z.to_nat nrad)%nat in
  (ngrid + nflag <= length body)%nat ->
  (nflag <= length computed_)%nat ->
  exists rows,
    restextinct long_of_bytes short_of_bytes calloc_ok in_ nrad niso nwn computed_
    = Returned 0 (mk_restored (Some rows) (Some (take ngrid body))
                    (take nflag (drop ngrid body) ++ drop nflag computed_)
                    []
                    (drop (ngrid + nflag) body)) /\
    Z.of_nat (length rows) = nrad /\
    forall k, 0 <= k < nrad -> get None rows k = Some (k * nwn).
Proof.
  intros Hhdr Hr Hw Hc1 Hc2 body ngrid nflag Hbody Hflags.
  destruct (restextinct_complete in_ nrad niso nwn computed_ Hhdr
              ltac:(lia) Hw Hc1 Hc2 Hbody) as (rows & Hret & Hl & Hrows).
  fold body ngrid nflag in Hret.
  exists rows. split; [|split; assumption].
  rewrite Hret.
  assert (Hfb : length (take nflag (drop ngrid body)) = nflag)
    by (rewrite length_take_le; [reflexivity|rewrite length_drop; lia]).
  rewrite (take_ge (take nflag (drop ngrid body) ++ drop nflag computed_))
    by (rewrite length_app, Hfb, length_drop; lia).
  rewrite (drop_ge (take nflag (drop ngrid body))) by lia.
  reflexivity.
Qed.

(** When the call returns 0.  For a number of wavenumbers that is not
    negative, [restextinct] returns 0 exactly when the header matches,
    the number of layers is between 0 and 32767 (the row index is a
    [short]), both allocations succeed and the stream holds the grid and
    then eight bytes for each layer.  The size of the flag block plays
    no part: the bytes of the flags that do not fit into it are stored
    past its end. *)
Theorem restextinct_zero_iff (in_ : list byte) (nrad niso nwn : Z)
    (computed_ : list byte) :
  0 <= nwn ->
  let ngrid := (8 * Z.to_nat (nrad * nwn))%nat in
  let nflag := (8 * Z.to_nat nrad)%nat in
  ((exists st,
      restextinct long_of_bytes short_of_bytes calloc_ok in_ nrad niso nwn
                  computed_ = Returned 0 st) <->
   (header_matches in_ nrad niso nwn = true /\
    0 <= nrad <= 32767 /\
    calloc_ok nrad sizeof_pointer = true /\
    calloc_ok (nrad * nwn) sizeof_PREC_RES = true /\
    (18 + ngrid + nflag <= length in_)%nat)) /\
  (forall st,
     restextinct long_of_bytes short_of_bytes calloc_ok in_ nrad niso nwn
                 computed_ = Returned 0 st ->
     e_past st
     = drop (length computed_) (take nflag (drop (18 + ngrid) in_))).
Proof.
  intros Hw ngrid nflag.
  assert (Hnec : forall st,
    restextinct long_of_bytes short_of_bytes calloc_ok in_ nrad niso nwn
                computed_ = Returned 0 st ->
    (header_matches in_ nrad niso nwn = true /\
     0 <= nrad <= 32767 /\
     calloc_ok nrad sizeof_pointer = true /\
     calloc_ok (nrad * nwn) sizeof_PREC_RES = true /\
     (18 + ngrid + nflag <= length in_)%nat) /\
    e_past st
    = drop (length computed_) (take nflag (drop (18 + ngrid) in_))).
  { intros st Hret.
    destruct (header_matches in_ nrad niso nwn) eqn:Hhdr.
    2:{ destruct (Nat.ltb_spec (length in_) 18) as [Hshort|Hlong].
        - destruct (restextinct_short in_ nrad niso nwn computed_ Hshort)
            as (rest' & Hbad).
          rewrite Hbad in Hret. discriminate.
        - rewrite restextinct_header in Hret by lia. cbv zeta in Hret.
          rewrite Hhdr in Hret. discriminate. }
    assert (H18 : (18 <= length in_)%nat).
    { unfold header_matches in Hhdr.
      destruct (Nat.leb_spec 18 (length in_)); [assumption|discriminate]. }
    assert (Hlim : nrad <= 10000000 /\ nwn <= 10000000).
    { unfold header_matches in Hhdr. rewrite !andb_true_iff in Hhdr.
      destruct Hhdr as ((_ & H1) & H2). split; apply Z.leb_le; assumption. }
    rewrite restextinct_header in Hret by exact H18. cbv zeta in Hret.
    rewrite Hhdr in Hret. cbn [negb] in Hret.
    unfold calloc in Hret.
    destruct (Z.leb_spec 0 nrad) as [Hr0|]; [|discriminate].
    destruct (calloc_ok nrad sizeof_pointer) eqn:Hc1; [|discriminate].
    cbn [andb negb] in Hret.
    assert (Hwrap : wrap64 (nrad * nwn) = nrad * nwn).
    { unfold wrap64. apply Profile.wrap_id; [lia|].
      change (2 ^ (64 - 1)) with 9223372036854775808. nia. }
    rewrite (Z.mul_comm nwn nrad), Hwrap in Hret.
    destruct (Z.leb_spec 0 (nrad * nwn)); [|discriminate].
    destruct (calloc_ok (nrad * nwn) sizeof_PREC_RES) eqn:Hc2; [|discriminate].
    cbn [andb negb] in Hret.
    destruct (fread _ sizeof_PREC_RES (Z.to_nat (nrad * nwn)) (drop 18 in_))
      as [[rn4 e0] in4] eqn:E4.
    destruct (Z.eqb_spec (Z.of_nat rn4) (nrad * nwn)) as [Hrn4|]; [|discriminate].
    cbn [negb] in Hret.
    pose proof (fread_count _ _ sizeof_PREC_RES (Z.to_nat (nrad * nwn))
                  ltac:(discriminate)
                  ltac:(rewrite E4; cbn [fst]; lia)) as Hgrid.
    assert (Hin4 : in4 = drop (sizeof_PREC_RES * Z.to_nat (nrad * nwn))
                              (drop 18 in_))
      by (unfold fread in E4; congruence).
    destruct (fread computed_ sizeof_PREC_RES (Z.to_nat nrad) in4)
      as [[rn5 c] in5] eqn:E5.
    destruct (Z.eqb_spec (Z.of_nat rn5) nrad) as [Hrn5|]; [|discriminate].
    cbn [negb] in Hret.
    pose proof (fread_count _ _ sizeof_PREC_RES (Z.to_nat nrad)
                  ltac:(discriminate)
                  ltac:(rewrite E5; cbn [fst]; lia)) as Hflag.
    rewrite Hin4, !length_drop in Hflag. rewrite length_drop in Hgrid.
    unfold sizeof_PREC_RES in *. fold ngrid in Hgrid, Hflag, Hin4.
    fold nflag in Hflag, Hret.
    destruct (Z.le_gt_cases nrad 32767) as [Hsmall|Hbig].
    - destruct (row_pointers (Z.to_nat nrad) 1 nrad nwn _) as [rows|];
        [|discriminate].
      injection Hret as <-. cbn [e_past].
      split; [repeat apply conj; try reflexivity; lia|].
      rewrite Hin4, drop_drop. reflexivity.
    - exfalso.
      rewrite (row_pointers_wraps (Z.to_nat 32766) (Z.to_nat nrad) 1 nrad nwn)
        in Hret by lia.
      discriminate. }
  split.
  - split.
    + intros (st & Hret). exact (proj1 (Hnec st Hret)).
    + intros (Hhdr & Hr & Hc1 & Hc2 & Hlen).
      destruct (restextinct_complete in_ nrad niso nwn computed_ Hhdr Hr Hw
                  Hc1 Hc2) as (rows & Hret & _).
      { rewrite length_drop. fold ngrid nflag. lia. }
      eexists. exact Hret.
  - intros st Hret. exact (proj2 (Hnec st Hret)).
Qed.

End RestExtinctFacts.

(** A file that stops after three bytes. *)
Lemma restextinct_bad_header_witness :
  exists rest',
    restextinct le_long le_short calloc_always [b1; b0; b0] 1 1 2 [b0]
    = Returned (-1) (mk_restored None None [b0] [] rest').
Proof.
  exact (restextinct_bad_header le_long le_short calloc_always [b1; b0; b0]
           1 1 2 [b0] eq_refl).
Defined.

Lemma restextinct_restores_witness :
  exists rows,
    restextinct le_long le_short calloc_always rest_file 1 1 2 (repeat b0 8)
    = Returned 0 (mk_restored (Some rows) (Some (repeat Byte.x07 16))
                    [b1; b0; b0; b0; b0; b0; b0; b0] [] []) /\
    Z.of_nat (length rows) = 1 /\
    forall k, 0 <= k < 1 -> get None rows k = Some (k * 2).
Proof.
  exact (restextinct_restores le_long le_short calloc_always rest_file 1 1 2
           (repeat b0 8) eq_refl ltac:(lia) ltac:(lia) eq_refl eq_refl
           ltac:(simpl; lia) ltac:(simpl; lia)).
Defined.

(** The same file read into a flag block of one byte: the call returns
    0 and seven bytes go past the block. *)
Lemma restextinct_zero_iff_witness :
  (exists st,
     restextinct le_long le_short calloc_always rest_file 1 1 2 [b0]
     = Returned 0 st) /\
  restextinct le_long le_short calloc_always rest_file 1 1 2 [b0]
  = Returned 0 (mk_restored (Some [Some 0]) (Some (repeat Byte.x07 16))
                            [b1] [b0; b0; b0; b0; b0; b0; b0] []).
Proof.
  split; [|vm_compute; reflexivity].
  refine (proj2 (proj1 (restextinct_zero_iff le_long le_short calloc_always
                          rest_file 1 1 2 [b0] _)) _).
  - lia.
  - repeat apply conj; try reflexivity; simpl; lia.
Defined.

(** *** [extwn] and [freemem_extinction]

    [extwn] checks the dimensions, allocates the grid, the row pointers
    and the flags, and sets the bit [TRPI_EXTWN] of the progress
    indicator; [freemem_extinction] frees them and clears the bit. *)

(** What [extwn] reads of the [transit] structure: [tr->pi],
    [tr->rads.n], [tr->wns.n], [tr->ds.iso->n_i] and
    [tr->ds.th->ethresh]. *)
Record extwn_in := mk_extwn_in {
  t_pi : Z;
  rads_n : Z;
  wns_n : Z;
  iso_n_i : Z;
  th_ethresh : float
}.

(** The structure [tr->ds.ex] that it fills: the threshold, the row
    pointers (offsets into the grid block, in elements), the grid block
    and the flag block ([None] when [calloc] gave [NULL], which is not
    checked for the flags). *)
Record ex_struct := mk_ex_struct {
  x_ethresh : float;
  x_rows : list (option Z);
  x_block : list byte;
  x_computed : option (list byte)
}.

(** The call returns a code with the progress indicator and the
    structure it leaves, or [transitcheckcalled] does not let it go on,
    or it ends in [transiterror(TERR_CRITICAL, ...)], or it stores
    through a pointer to no element, or it hands over to [printone],
    which ends in [exit(EXIT_SUCCESS)]. *)
Inductive extwn_outcome : Type :=
| Ext_returned (code : Z) (pi : Z) (ex : option ex_struct)
| Ext_check_failed
| Ext_critical (msg : string)
| Ext_bad_store
| Ext_printone (pi : Z) (ex : ex_struct).

Section ExtWn.

(** The bit of the progress indicator, whether [transitcheckcalled]
    returns for a progress indicator, and [calloc]. *)
Variable TRPI_EXTWN : Z.
Variable transitcheckcalled : Z -> bool.
Variable calloc_ok : Z -> nat -> bool.

Definition extwn (tr : extwn_in) : extwn_outcome :=
  if negb (transitcheckcalled (t_pi tr)) then Ext_check_failed
  else
    let niso := iso_n_i tr in
    let nrad := wrap32 (rads_n tr) in
    let nwn := wrap32 (wns_n tr) in
    if rads_n tr <? 1 then Ext_returned (-2) (t_pi tr) None
    else if wns_n tr <? 2 then Ext_returned (-3) (t_pi tr) None
    else if niso <? 1 then Ext_returned (-5) (t_pi tr) None
    else if negb (calloc calloc_ok nrad sizeof_pointer) || (nrad <? 1)
    then Ext_bad_store
    else if negb (calloc calloc_ok (wrap32 (nrad * nwn)) sizeof_PREC_RES)
    then Ext_critical "Unable to allocate for the extinction coefficient."
    else
      let block :=
        repeat Byte.x00 (sizeof_PREC_RES * Z.to_nat (wrap32 (nrad * nwn))) in
      let rows :=
        fold_left (fun rows i => set rows i (Some (wrap32 (i * nwn))))
                  (Extinction.zrange 1 nrad)
                  (set (repeat None (Z.to_nat nrad)) 0 (Some 0)) in
      let computed_ :=
        if calloc calloc_ok nrad sizeof_Bool
        then Some (repeat Byte.x00 (sizeof_Bool * Z.to_nat nrad)) else None in
      let ex := mk_ex_struct (th_ethresh tr) rows block computed_ in
      let pi := Z.lor (t_pi tr) TRPI_EXTWN in
      if rads_n tr =? 1 then Ext_printone pi ex
      else Ext_returned 0 pi (Some ex).

(** [freemem_extinction(ex, pi)]: the value returned and [*pi]. *)
Definition freemem_extinction (ex : ex_struct) (pi : Z) : Z * Z :=
  (0, Z.land pi (Z.lnot TRPI_EXTWN)).

Lemma extwn_rows_prefix (nwn : Z) (m : nat) (rows : list (option Z)) :
  let rows' :=
    fold_left (fun rows i => set rows i (Some (wrap32 (i * nwn))))
              (Extinction.zrange 1 (1 + Z.of_nat m)) rows in
  length rows' = length rows /\
  forall k, 0 <= k < Z.of_nat (length rows) ->
    get None rows' k
    = if (1 <=? k) && (k <? 1 + Z.of_nat m) then Some (wrap32 (k * nwn))
      else get None rows k.
Proof.
  induction m as [|m IH].
  - rewrite Extinction.zrange_nil by lia. cbn [fold_left]. cbv zeta.
    split; [reflexivity|]. intros k Hk.
    destruct (Z.leb_spec 1 k), (Z.ltb_spec k (1 + Z.of_nat 0)); cbn [andb];
      try reflexivity; lia.
  - assert (Hsplit : Extinction.zrange 1 (1 + Z.of_nat (S m))
                     = Extinction.zrange 1 (1 + Z.of_nat m) ++ [1 + Z.of_nat m]).
    { unfold Extinction.zrange.
      replace (Z.to_nat (1 + Z.of_nat (S m) - 1)) with (S m) by lia.
      replace (Z.to_nat (1 + Z.of_nat m - 1)) with m by lia.
      rewrite seq_S, map_app. reflexivity. }
    rewrite Hsplit, fold_left_app. cbn [fold_left]. cbv zeta in IH |- *.
    destruct IH as (Hl & Hget). rewrite ArrayFacts.length_set.
    split; [exact Hl|]. intros k Hk.
    destruct (Z.eq_dec k (1 + Z.of_nat m)) as [->|Hne].
    + rewrite ArrayFacts.get_set_eq by (rewrite Hl; lia).
      destruct (Z.leb_spec 1 (1 + Z.of_nat m)); [|lia].
      destruct (Z.ltb_spec (1 + Z.of_nat m) (1 + Z.of_nat (S m))); [|lia].
      reflexivity.
    + rewrite ArrayFacts.get_set_ne by congruence. rewrite (Hget k Hk).
      destruct (Z.leb_spec 1 k), (Z.ltb_spec k (1 + Z.of_nat m)),
               (Z.ltb_spec k (1 + Z.of_nat (S m))); cbn [andb];
        try reflexivity; lia.
Qed.

(** A grid that [extwn] sets up holds every row.  For at least one
    layer, two wavenumbers and one isotope, with [nrad*nwn] within an
    [int] and the memory found, the call sets the bit of the progress
    indicator and leaves the threshold of the hint, a grid block of
    [nrad*nwn] doubles that are all zero bytes, one zero flag byte for
    each layer, and for each layer [i] the row pointer [e[0] + i*nwn],
    whose [nwn] elements lie inside the block.  It returns 0, except
    that with exactly one layer it hands over to [printone] and never
    returns. *)
Theorem extwn_rows_in_block (tr : extwn_in) :
  transitcheckcalled (t_pi tr) = true ->
  1 <= rads_n tr -> 2 <= wns_n tr -> 1 <= iso_n_i tr ->
  rads_n tr * wns_n tr <= INT_MAX ->
  calloc_ok (rads_n tr) sizeof_pointer = true ->
  calloc_ok (rads_n tr * wns_n tr) sizeof_PREC_RES = true ->
  calloc_ok (rads_n tr) sizeof_Bool = true ->
  exists ex,
    extwn tr = (if rads_n tr =? 1
                then Ext_printone (Z.lor (t_pi tr) TRPI_EXTWN) ex
                else Ext_returned 0 (Z.lor (t_pi tr) TRPI_EXTWN) (Some ex)) /\
    x_ethresh ex = th_ethresh tr /\
    x_block ex = repeat Byte.x00 (8 * Z.to_nat (rads_n tr * wns_n tr)) /\
    x_computed ex = Some (repeat Byte.x00 (Z.to_nat (rads_n tr))) /\
    Z.of_nat (length (x_rows ex)) = rads_n tr /\
    forall i, 0 <= i < rads_n tr ->
      get None (x_rows ex) i = Some (i * wns_n tr) /\
      8 * (i * wns_n tr + wns_n tr) <= Z.of_nat (length (x_block ex)).
Proof.
  intros Hchk Hr Hw Hi Hprod Hc1 Hc2 Hc3.
  assert (Emax : INT_MAX = 2147483647) by reflexivity.
  assert (Hrmax : rads_n tr <= INT_MAX) by nia.
  assert (Hwmax : wns_n tr <= INT_MAX) by nia.
  assert (Hwrap : forall z, 0 <= z <= INT_MAX -> wrap32 z = z).
  { intros z Hz. unfold wrap32. apply Profile.wrap_id; [lia|].
    change (2 ^ (32 - 1)) with 2147483648. lia. }
  unfold extwn. rewrite Hchk. cbn [negb].
  rewrite (Hwrap (rads_n tr)), (Hwrap (wns_n tr)) by lia.
  rewrite (Hwrap (rads_n tr * wns_n tr)) by nia.
  destruct (Z.ltb_spec (rads_n tr) 1); [lia|].
  destruct (Z.ltb_spec (wns_n tr) 2); [lia|].
  destruct (Z.ltb_spec (iso_n_i tr) 1); [lia|].
  unfold calloc. rewrite Hc1, Hc2, Hc3.
  destruct (Z.leb_spec 0 (rads_n tr)); [|lia].
  destruct (Z.leb_spec 0 (rads_n tr * wns_n tr)); [|nia].
  cbn [andb negb orb].
  eexists. split; [reflexivity|]. cbn [x_ethresh x_block x_computed x_rows].
  pose proof (extwn_rows_prefix (wns_n tr) (Z.to_nat (rads_n tr - 1))
                (set (repeat None (Z.to_nat (rads_n tr))) 0 (Some 0))) as Hrows.
  cbv zeta in Hrows.
  replace (1 + Z.of_nat (Z.to_nat (rads_n tr - 1))) with (rads_n tr) in Hrows
    by lia.
  destruct Hrows as (Hl & Hget).
  rewrite ArrayFacts.length_set, repeat_length in Hl, Hget.
  repeat apply conj; try reflexivity.
  - unfold sizeof_Bool. rewrite Nat.mul_1_l. reflexivity.
  - rewrite Hl. lia.
  - intros i Hi0. split.
    + rewrite (Hget i ltac:(lia)).
      destruct (Z.leb_spec 1 i), (Z.ltb_spec i (rads_n tr)); cbn [andb];
        try lia.
      * rewrite Hwrap by nia. reflexivity.
      * assert (Hz : i = 0) by lia. subst i.
        apply ArrayFacts.get_set_eq. rewrite repeat_length. lia.
    + rewrite repeat_length. unfold sizeof_PREC_RES. nia.
Qed.

Lemma clear_after_set (pi bit : Z) :
  Z.land (Z.lor pi bit) (Z.lnot bit) = Z.land pi (Z.lnot bit).
Proof.
  apply Z.bits_inj'. intros n Hn.
  rewrite !Z.land_spec, Z.lor_spec, Z.lnot_spec by exact Hn.
  destruct (Z.testbit pi n), (Z.testbit bit n); reflexivity.
Qed.

Lemma clear_unset (pi bit : Z) :
  Z.land pi bit = 0 -> Z.land pi (Z.lnot bit) = pi.
Proof.
  intros H. apply Z.bits_inj'. intros n Hn.
  rewrite Z.land_spec, Z.lnot_spec by exact Hn.
  assert (Hb : Z.testbit (Z.land pi bit) n = false)
    by (rewrite H; apply Z.bits_0).
  rewrite Z.land_spec in Hb.
  destruct (Z.testbit pi n), (Z.testbit bit n); try reflexivity; discriminate.
Qed.

(** [extwn] followed by [freemem_extinction] leaves the progress
    indicator with the bits of [TRPI_EXTWN] cleared, whether or not they
    were set before; it is the indicator from before [extwn] when they
    were not. *)
Theorem extwn_then_freemem (tr : extwn_in) (pi' : Z) (ex : ex_struct) :
  extwn tr = Ext_returned 0 pi' (Some ex) ->
  freemem_extinction ex pi' = (0, Z.land (t_pi tr) (Z.lnot TRPI_EXTWN)) /\
  (Z.land (t_pi tr) TRPI_EXTWN = 0 ->
   freemem_extinction ex pi' = (0, t_pi tr)).
Proof.
  intros Hret.
  assert (Hpi : pi' = Z.lor (t_pi tr) TRPI_EXTWN).
  { unfold extwn in Hret.
    destruct (negb (transitcheckcalled (t_pi tr))); [discriminate|].
    destruct (rads_n tr <? 1); [discriminate|].
    destruct (wns_n tr <? 2); [discriminate|].
    destruct (iso_n_i tr <? 1); [discriminate|].
    destruct (negb (calloc calloc_ok (wrap32 (rads_n tr)) sizeof_pointer)
              || (wrap32 (rads_n tr) <? 1)); [discriminate|].
    destruct (negb (calloc calloc_ok
                      (wrap32 (wrap32 (rads_n tr) * wrap32 (wns_n tr)))
                      sizeof_PREC_RES)); [discriminate|].
    destruct (rads_n tr =? 1); [discriminate|].
    injection Hret as Hp _. symmetry. exact Hp. }
  subst pi'. unfold freemem_extinction. rewrite clear_after_set.
  split; [reflexivity|]. intros Hclear. rewrite clear_unset by exact Hclear.
  reflexivity.
Qed.

End ExtWn.

(** Three layers of two wavenumbers. *)
Definition extwn_in_ex : extwn_in := mk_extwn_in 15 3 2 1 0%float.

Lemma extwn_rows_in_block_witness :
  exists ex,
    extwn 16 (fun _ => true) calloc_always extwn_in_ex
    = Ext_returned 0 31 (Some ex) /\
    x_block ex = repeat Byte.x00 48 /\
    forall i, 0 <= i < 3 ->
      get None (x_rows ex) i = Some (i * 2) /\
      8 * (i * 2 + 2) <= Z.of_nat (length (x_block ex)).
Proof.
  destruct (extwn_rows_in_block 16 (fun _ => true) calloc_always extwn_in_ex
              eq_refl ltac:(simpl; lia) ltac:(simpl; lia) ltac:(simpl; lia)
              ltac:(vm_compute; discriminate) eq_refl eq_refl eq_refl)
    as (ex & Hret & _ & Hblock & _ & _ & Hrows).
  exists ex. repeat apply conj.
  - exact Hret.
  - exact Hblock.
  - exact Hrows.
Defined.

Lemma extwn_then_freemem_witness :
  exists ex,
    extwn 16 (fun _ => true) calloc_always extwn_in_ex
    = Ext_returned 0 31 (Some ex) /\
    freemem_extinction 16 ex 31 = (0, 15).
Proof.
  eexists. split; [vm_compute; reflexivity|].
  refine (proj2 (extwn_then_freemem 16 (fun _ => true) calloc_always
                   extwn_in_ex 31 _ _) _).
  - vm_compute. reflexivity.
  - reflexivity.
Defined.

End Persist.

(** ** Slant-path integration: [totaltau1] and [modulation1] *)

Module SlantPath.

(** The return value of [binsearch] that [totaltau1] answers with an
    optical depth of zero, and the one the model of [binsearch] gives
    below the first element ([totaltau1] treats every negative value
    other than [-5] alike). *)
Definition BINSEARCH_OUTMOST : Z := -5.
Definition BINSEARCH_BELOW : Z := -4.

(** Modelled from the spec: the function [binsearch] of the [pu] helper
    library, which [totaltau1] calls as [binsearch(rad, 0, nrad-1, r0)]
    and checks against [-5] and against negative values.  The design
    document gives what it decides: the radius grid is searched for the
    bin that brackets [r0] ([rad[rs] <= r0 < rad[rs+1]]); a value at or
    beyond the outermost radius [arr[f]] is the case answered with 0,
    and a value below the innermost radius [arr[i]] is the failure. *)
Definition binsearch (arr : list float) (i f : Z) (el : float) : Z :=
  if PrimFloat.ltb el (fget arr i) then BINSEARCH_BELOW
  else if PrimFloat.leb (fget arr f) el then BINSEARCH_OUTMOST
  else WidthGrid.floor_search (Z.to_nat (f - i)) arr el i f.

Section Slant.

(** [binsearch] and [interp_parab] of the [pu] library, GSL's integral
    of the cubic spline through the points [(x_k, y_k)] from [a] to [b],
    and libm's [log] and [exp].  A pointer argument is the array with the
    offset of the pointer. *)
Variable binsearch_ : list float -> Z -> Z -> float -> Z.
Variable interp_parab : list float -> Z -> list float -> Z -> float -> float.
Variable gsl_interp_eval_integ : list float -> list float -> float -> float -> float.
Variable log : float -> float.
Variable exp : float -> float.

Local Open Scope float_scope.

(** The elements [a[from] .. a[from+n-1]]. *)
Definition window (a : list float) (from n : Z) : list float :=
  map (fun k => fget a (from + k)) (Extinction.zrange 0 n).

(** The optical depth of half the path, from the arrays in which the
    sample [rs] holds the interpolated extinction and [r0]; [nrad] counts
    the samples from [rs] on. *)
Definition half_path (rad ex : list float) (rs nrad : Z) (r0 : float) : float :=
  let rad_ := fun k => fget rad (rs + k) in
  let ex_ := fun k => fget ex (rs + k) in
  let dr := rad_ 1%Z - rad_ 0%Z in
  if (nrad >? 2)%Z then
    let Dr := rad_ 2%Z - rad_ 1%Z in
    let cte := dr * (dr + 2 * r0) in
    let s :=
      0 :: map (fun i =>
                  PrimFloat.sqrt
                    (cte + long_to_double (i - 1) * Dr *
                           (2 * (r0 + dr) + long_to_double (i - 1) * Dr)))
               (Extinction.zrange 1 nrad) in
    gsl_interp_eval_integ s (window ex rs nrad) 0 (fget s (nrad - 1))
  else if PrimFloat.eqb (ex_ 1%Z) (ex_ 0%Z) then
    ex_ 0%Z * r0 * PrimFloat.sqrt (rad_ 1%Z * rad_ 1%Z / r0 / r0 - 1)
  else
    let alpha := (ex_ 1%Z - ex_ 0%Z) / dr in
    let rm := rad_ 1%Z in
    if PrimFloat.ltb alpha 0 then
      - alpha * (rm * PrimFloat.sqrt (rm * rm - r0 * r0) -
                 r0 * r0 * log (PrimFloat.sqrt (rm * rm / r0 / r0 - 1) + rm / r0))
      / 2
    else
      alpha * (rm * PrimFloat.sqrt (rm * rm - r0 * r0) +
               r0 * r0 * log (PrimFloat.sqrt (rm * rm / r0 / r0 - 1) + rm / r0))
      / 2.

(** The extinction that replaces sample [rs]: the parabola through the
    samples from [rs] on, or from [rs-1] on in the last bin. *)
Definition ex_at_r0 (rad ex : list float) (rs nrad : Z) (r0 : float) : float :=
  if (nrad =? 2)%Z then interp_parab rad (rs - 1) ex (rs - 1) r0
  else interp_parab rad rs ex rs r0.

(** [totaltau1(b, rad, refr, ex, nrad)]: the value returned and the
    arrays [rad] and [ex] as the call leaves them. *)
Definition totaltau1 (b : float) (rad : list float) (refr : float)
    (ex : list float) (nrad : Z) : outcome (float * list float * list float) :=
  let r0 := b / refr in
  let rs := binsearch_ rad 0 (nrad - 1) r0 in
  if (rs =? -5)%Z then Ok (0, rad, ex)
  else if (rs <? 0)%Z then
    Critical "Closest approach value is outside sampled radius range"
  else
    let nrad := (nrad - rs)%Z in
    let tmpex := fget ex rs in
    let tmprad := fget rad rs in
    let ex1 := set ex rs (ex_at_r0 rad ex rs nrad r0) in
    let rad1 := set rad rs r0 in
    let res := half_path rad1 ex1 rs nrad r0 in
    let ex2 := set ex1 rs tmpex in
    let rad2 := set rad1 rs tmprad in
    Ok (2 * res, rad2, ex2).

(** *** [modulation1] *)

(** The impact-parameter sampling (values in descending order) and the
    geometry of the star. *)
Record ip_samp := mk_ip {
  ip_n : Z;
  ip_v : list float;
  ip_fct : float
}.

Record geometry := mk_geometry {
  starrad : float;
  starradfct : float
}.

(** How [modulation1] can end: with a value, in
    [transiterror(TERR_CRITICAL, ...)], or by reading an element of one
    of its two local arrays that it never wrote. *)
Inductive mod_result : Type :=
| Value (res : float)
| Fatal (msg : string)
| Unwritten (index : Z).

(** The local arrays [rinteg[ipn]] and [ipv[ipn]]: an element is [None]
    until it is written. *)
Record buffers := mk_buffers {
  ipv : list (option float);
  rinteg : list (option float)
}.

Definition oget (a : list (option float)) (i : Z) : option float :=
  get None a i.

Definition fill_step (tau : list float) (last : Z) (ip : ip_samp)
    (bf : buffers) (i : Z) : buffers :=
  let x := fget (ip_v ip) (last - i) * ip_fct ip in
  mk_buffers (set (ipv bf) i (Some x))
             (set (rinteg bf) i (Some (exp (- fget tau i) * x))).

Definition pad_step (last : Z) (ip : ip_samp) (bf : buffers) (i : Z)
  : buffers :=
  mk_buffers (set (ipv bf) i (Some (fget (ip_v ip) (last - i) * ip_fct ip)))
             (set (rinteg bf) i (Some 0)).

(** The arrays and the number of elements handed to the spline: after
    the loop over the valid samples, [last += 2] clamped to [ipn-1], the
    loop [for (; i < last; i++)] and [last++]. *)
Definition modulation1_buffers (tau : list float) (last : Z) (ip : ip_samp)
  : Z * buffers :=
  let ipn := ip_n ip in
  let bf := mk_buffers (repeat None (Z.to_nat ipn)) (repeat None (Z.to_nat ipn)) in
  let bf := fold_left (fill_step tau last ip) (Extinction.zrange 0 (last + 1)) bf in
  let i := if (0 <=? last)%Z then (last + 1)%Z else 0%Z in
  let last := (last + 2)%Z in
  let last := if (last >? ipn - 1)%Z then (ipn - 1)%Z else last in
  let bf := fold_left (pad_step last ip) (Extinction.zrange i last) bf in
  ((last + 1)%Z, bf).

(** The first [n] elements of a local array, or the first index among
    them that was never written. *)
Fixpoint read_all (a : list (option float)) (i : Z) (n : nat)
  : list float + Z :=
  match n with
  | O => inl []
  | S n =>
      match oget a i with
      | None => inr i
      | Some x =>
          match read_all a (i + 1) n with
          | inl xs => inl (x :: xs)
          | inr j => inr j
          end
      end
  end.

Definition modulation1 (tau : list float) (last : Z) (toomuch : float)
    (ip : ip_samp) (sg : geometry) : mod_result :=
  let srad := starrad sg * starradfct sg in
  let '(last, bf) := modulation1_buffers tau last ip in
  if (last <? 3)%Z then
    Fatal "Condition failed, less than 3 items for radial integration."
  else
    match read_all (ipv bf) 0 (Z.to_nat last),
          read_all (rinteg bf) 0 (Z.to_nat last) with
    | inl xs, inl ys =>
        let res := gsl_interp_eval_integ xs ys (fget xs 0) (fget xs (last - 1)) in
        let res := 2 * res + srad * srad
                   - fget xs (last - 1) * fget xs (last - 1)
                   + exp (- toomuch) * fget xs 0 * fget xs 0 in
        Value (res * (1 / srad / srad))
    | inr j, _ => Unwritten j
    | _, inr j => Unwritten j
    end.

End Slant.

(** Stand-ins for the external functions in the examples: a parabola
    replaced by the sample itself, the trapezoid rule for the spline
    integral, and two terms of the series of [log] and [exp]. *)
Definition interp_first (x : list float) (ox : Z) (y : list float) (oy : Z)
    (xr : float) : float := fget y (oy + 1).

Fixpoint trapezoid (xs ys : list float) : float :=
  match xs, ys with
  | x0 :: ((x1 :: _) as xs'), y0 :: ((y1 :: _) as ys') =>
      ((x1 - x0) * (y0 + y1) / 2 + trapezoid xs' ys')%float
  | _, _ => 0%float
  end.

Definition integ_trapezoid (xs ys : list float) (a b : float) : float :=
  trapezoid xs ys.

Definition log_series (x : float) : float := (x - 1)%float.

(** A coarse [exp]: 0 below -32, else the first terms of the series. *)
Definition exp_coarse (x : float) : float :=
  if PrimFloat.ltb x (-32)%float then 0%float else (1 + x + x * x / 2)%float.

Example totaltau1_inside_ex :
  totaltau1 binsearch interp_first integ_trapezoid log_series
            2.5%float [1; 2; 3; 4]%float 1%float [8; 4; 2; 1]%float 4
  = Ok (2 * half_path integ_trapezoid log_series [1; 2.5; 3; 4]%float
                      [8; 2; 2; 1]%float 1 3 2.5%float,
        [1; 2; 3; 4]%float, [8; 4; 2; 1]%float)%float /\
  PrimFloat.ltb 11%float
    (2 * half_path integ_trapezoid log_series [1; 2.5; 3; 4]%float
                   [8; 2; 2; 1]%float 1 3 2.5%float)%float = true.
Proof. vm_compute. split; reflexivity. Qed.

Example totaltau1_outermost_ex :
  totaltau1 binsearch interp_first integ_trapezoid log_series
            4%float [1; 2; 3; 4]%float 1%float [8; 4; 2; 1]%float 4
  = Ok (0%float, [1; 2; 3; 4]%float, [8; 4; 2; 1]%float).
Proof. vm_compute. reflexivity. Qed.

Example totaltau1_below_ex :
  totaltau1 binsearch interp_first integ_trapezoid log_series
            0.5%float [1; 2; 3; 4]%float 1%float [8; 4; 2; 1]%float 4
  = Critical "Closest approach value is outside sampled radius range".
Proof. vm_compute. reflexivity. Qed.

Example modulation1_too_few_ex :
  modulation1 integ_trapezoid exp_coarse [0; 0]%float 1 64%float
              (mk_ip 2 [4; 3]%float 1%float) (mk_geometry 8%float 1%float)
  = Fatal "Condition failed, less than 3 items for radial integration.".
Proof. vm_compute. reflexivity. Qed.

(** *** Properties *)

Import FloatOrder.

Section SlantFacts.

Variable binsearch_ : list float -> Z -> Z -> float -> Z.
Variable interp_parab : list float -> Z -> list float -> Z -> float -> float.
Variable gsl_interp_eval_integ : list float -> list float -> float -> float -> float.
Variable log : float -> float.
Variable exp : float -> float.

(** C3, amended.  With the closest-approach radius [r0 = b/refr] and an
    ascending radius array: when [r0] is beyond the outermost sampled
    radius, or exactly at it, [totaltau1] returns 0 and raises no error;
    when [r0] is below the innermost sampled radius it ends in the
    critical error about the sampled radius range. *)
Theorem totaltau1_out_of_range (b refr : float) (rad ex : list float) :
  WidthGrid.ascending rad ->
  1 <= Z.of_nat (length rad) ->
  let nrad := Z.of_nat (length rad) in
  let r0 := (b / refr)%float in
  let tau := totaltau1 binsearch interp_parab gsl_interp_eval_integ log
                       b rad refr ex nrad in
  (PrimFloat.ltb (fget rad (nrad - 1)) r0 = true -> tau = Ok (0%float, rad, ex)) /\
  (PrimFloat.eqb r0 (fget rad (nrad - 1)) = true -> tau = Ok (0%float, rad, ex)) /\
  (PrimFloat.ltb r0 (fget rad 0) = true ->
   tau = Critical "Closest approach value is outside sampled radius range").
Proof.
  intros Hasc Hlen nrad r0 tau.
  assert (Hout : PrimFloat.leb (fget rad (nrad - 1)) r0 = true ->
                 tau = Ok (0%float, rad, ex)).
  { intros Hle. subst tau. unfold totaltau1, binsearch. fold r0.
    assert (H0 : PrimFloat.leb (fget rad 0) r0 = true).
    { destruct (Z.eq_dec nrad 1) as [E|E].
      - replace 0 with (nrad - 1) by lia. exact Hle.
      - apply leb_trans with (fget rad (nrad - 1)); [|exact Hle].
        apply WidthGrid.ascending_le; try assumption; unfold nrad; lia. }
    rewrite (leb_ltb_false _ _ H0), Hle. reflexivity. }
  repeat apply conj.
  - intros H. apply Hout. apply ltb_leb. exact H.
  - intros H. apply Hout. apply eqb_leb in H. apply H.
  - intros H. subst tau. unfold totaltau1, binsearch. fold r0.
    rewrite H. reflexivity.
Qed.

(** C9.  Whatever [binsearch], [interp_parab], the spline integral and
    [log] compute: when [totaltau1] returns a value, the arrays [rad] and
    [ex] hold again what they held at the call.  In between, sample [rs]
    of [ex] holds the interpolated extinction and sample [rs] of [rad]
    holds [r0], and the returned value is twice the half-path integral
    over those arrays. *)
Theorem totaltau1_restores (b refr : float) (rad ex : list float) (nrad : Z)
    (res : float) (rad' ex' : list float) :
  totaltau1 binsearch_ interp_parab gsl_interp_eval_integ log b rad refr ex nrad
  = Ok (res, rad', ex') ->
  rad' = rad /\ ex' = ex /\
  let r0 := (b / refr)%float in
  let rs := binsearch_ rad 0 (nrad - 1) r0 in
  (rs <> -5 ->
   res = (2 * half_path gsl_interp_eval_integ log
                (set rad rs r0)
                (set ex rs (ex_at_r0 interp_parab rad ex rs (nrad - rs) r0))
                rs (nrad - rs) r0)%float).
Proof.
  unfold totaltau1. intros H.
  destruct (Z.eqb_spec (binsearch_ rad 0 (nrad - 1) (b / refr)%float) (-5))
    as [E|E].
  - injection H as <- <- <-. repeat apply conj; try reflexivity.
    intros Hne. contradiction.
  - destruct (binsearch_ rad 0 (nrad - 1) (b / refr)%float <? 0);
      [discriminate H|].
    injection H as <- <- <-.
    repeat apply conj.
    + apply (ArrayFacts.set_set_get 0%float).
    + apply (ArrayFacts.set_set_get 0%float).
    + intros _. reflexivity.
Qed.

(** *** The value of [modulation1] *)

Lemma zrange_snoc a b :
  a <= b -> Extinction.zrange a (b + 1) = Extinction.zrange a b ++ [b].
Proof.
  intros H. unfold Extinction.zrange.
  replace (Z.to_nat (b + 1 - a)) with (Z.to_nat (b - a) + 1)%nat by lia.
  rewrite seq_app, map_app. cbn [seq map Nat.add]. f_equal. f_equal. lia.
Qed.

(** After the loop over the samples [0 .. n-1], these hold the impact
    parameter in ascending order and the integrand. *)
Lemma fill_written tau last ip (n : nat) (bf : buffers) j :
  Z.of_nat n <= Z.of_nat (length (ipv bf)) ->
  Z.of_nat n <= Z.of_nat (length (rinteg bf)) ->
  0 <= j < Z.of_nat n ->
  let bf' := fold_left (fill_step exp tau last ip)
                       (Extinction.zrange 0 (Z.of_nat n)) bf in
  oget (ipv bf') j = Some (fget (ip_v ip) (last - j) * ip_fct ip)%float /\
  oget (rinteg bf') j
  = Some (exp (- fget tau j) * (fget (ip_v ip) (last - j) * ip_fct ip))%float.
Proof.
  induction n as [|n IH]; intros Hv Hr Hj; [lia|].
  replace (Z.of_nat (S n)) with (Z.of_nat n + 1) by lia.
  rewrite zrange_snoc by lia. rewrite fold_left_app. cbn [fold_left].
  set (bf1 := fold_left (fill_step exp tau last ip)
                        (Extinction.zrange 0 (Z.of_nat n)) bf) in *.
  assert (Hlen : length (ipv bf1) = length (ipv bf) /\
                 length (rinteg bf1) = length (rinteg bf)).
  { subst bf1. clear. generalize (Extinction.zrange 0 (Z.of_nat n)).
    intros l. revert bf. induction l as [|i l IHl]; intros bf; [split; reflexivity|].
    cbn [fold_left]. destruct (IHl (fill_step exp tau last ip bf i)) as [H1 H2].
    rewrite H1, H2. unfold fill_step. cbn [ipv rinteg].
    rewrite !ArrayFacts.length_set. split; reflexivity. }
  destruct Hlen as [Hl1 Hl2].
  unfold fill_step at 1 2. cbn [ipv rinteg]. unfold oget.
  destruct (Z.eq_dec j (Z.of_nat n)) as [->|Hne].
  - rewrite !ArrayFacts.get_set_eq by lia. split; reflexivity.
  - rewrite !ArrayFacts.get_set_ne by lia. apply IH; lia.
Qed.

Lemma read_all_written a (f : Z -> float) n i :
  (forall j, i <= j < i + Z.of_nat n -> oget a j = Some (f j)) ->
  read_all a i n = inl (map f (Extinction.zrange i (i + Z.of_nat n))).
Proof.
  revert i. induction n as [|n IH]; intros i H.
  - rewrite Extinction.zrange_nil by lia. reflexivity.
  - cbn [read_all]. rewrite (H i) by lia.
    rewrite (IH (i + 1)) by (intros j Hj; apply H; lia).
    rewrite (Extinction.zrange_cons i) by lia. cbn [map].
    replace (i + 1 + Z.of_nat n) with (i + Z.of_nat (S n)) by lia. reflexivity.
Qed.

Lemma fget_map_zrange (f : Z -> float) n j :
  0 <= j < n -> fget (map f (Extinction.zrange 0 n)) j = f j.
Proof.
  intros Hj. unfold fget, get, Extinction.zrange.
  destruct (Z.ltb_spec j 0); [lia|].
  rewrite map_map.
  rewrite nth_indep with (d' := f (0 + Z.of_nat 0))
    by (rewrite length_map, length_seq; lia).
  rewrite (map_nth (fun k => f (0 + Z.of_nat k))).
  rewrite seq_nth by lia. f_equal. lia.
Qed.

(** C4, amended.  [modulation1] ends in the critical error about too few
    items when fewer than three elements remain for the integration.
    When every impact-parameter sample is valid ([last = ipn - 1] with
    [ipn >= 3], so that nothing is padded), it integrates the integrand
    [exp(-tau_i) * b_i] over the impact parameters [b_i = v[last-i]*fct]
    and returns
    [(2*integral + R^2 - b_last^2 + exp(-toomuch)*b_first^2) * (1/R/R)]
    with [R] the star radius, [b_first = b_0] and [b_last = b_(ipn-1)]. *)
Theorem modulation1_combines (tau : list float) (last : Z) (toomuch : float)
    (ip : ip_samp) (sg : geometry) :
  (Z.min (last + 2) (ip_n ip - 1) + 1 < 3 ->
   modulation1 gsl_interp_eval_integ exp tau last toomuch ip sg
   = Fatal "Condition failed, less than 3 items for radial integration.") /\
  (last = ip_n ip - 1 -> 3 <= ip_n ip ->
   let b := fun i => (fget (ip_v ip) (last - i) * ip_fct ip)%float in
   let xs := map b (Extinction.zrange 0 (ip_n ip)) in
   let ys := map (fun i => (exp (- fget tau i) * b i)%float)
                 (Extinction.zrange 0 (ip_n ip)) in
   let srad := (starrad sg * starradfct sg)%float in
   let b_first := b 0 in
   let b_last := b last in
   let integral := gsl_interp_eval_integ xs ys b_first b_last in
   modulation1 gsl_interp_eval_integ exp tau last toomuch ip sg
   = Value ((2 * integral + srad * srad - b_last * b_last
             + exp (- toomuch) * b_first * b_first) * (1 / srad / srad))%float).
Proof.
  split.
  - intros Hc. unfold modulation1, modulation1_buffers.
    destruct (Z.gtb_spec (last + 2) (ip_n ip - 1));
      match goal with |- context [(?c <? 3)] => destruct (Z.ltb_spec c 3) end;
      try lia; reflexivity.
  - intros Hlast Hn b xs ys srad b_first b_last integral.
    unfold modulation1, modulation1_buffers.
    destruct (Z.leb_spec 0 last) as [_|]; [|lia].
    destruct (Z.gtb_spec (last + 2) (ip_n ip - 1)) as [_|]; [|lia].
    rewrite (Extinction.zrange_nil (last + 1)) by lia. cbn [fold_left].
    destruct (Z.ltb_spec (ip_n ip - 1 + 1) 3); [lia|].
    replace (last + 1) with (Z.of_nat (Z.to_nat (ip_n ip))) by lia.
    set (bf := fold_left _ _ _).
    assert (Hw : forall j, 0 <= j < 0 + Z.of_nat (Z.to_nat (ip_n ip)) ->
              oget (ipv bf) j = Some (b j) /\
              oget (rinteg bf) j = Some (exp (- fget tau j) * b j)%float).
    { intros j Hj. subst bf. apply fill_written; cbn [ipv rinteg];
        rewrite ?repeat_length; lia. }
    replace (Z.to_nat (ip_n ip - 1 + 1)) with (Z.to_nat (ip_n ip)) by lia.
    rewrite (read_all_written (ipv bf) b) by (intros j Hj; apply Hw; exact Hj).
    rewrite (read_all_written (rinteg bf)
               (fun j => (exp (- fget tau j) * b j)%float))
      by (intros j Hj; apply Hw; exact Hj).
    replace (0 + Z.of_nat (Z.to_nat (ip_n ip))) with (ip_n ip) by lia.
    fold xs ys.
    replace (ip_n ip - 1 + 1 - 1) with last by lia.
    assert (Hx0 : fget xs 0 = b 0) by (apply fget_map_zrange; lia).
    assert (Hxl : fget xs last = b last) by (apply fget_map_zrange; lia).
    rewrite Hx0, Hxl. reflexivity.
Qed.

(** *** The padding of [modulation1] *)

Lemma fold_fill_other tau last ip l bf j :
  Forall (fun i => i <> j) l ->
  oget (ipv (fold_left (fill_step exp tau last ip) l bf)) j = oget (ipv bf) j /\
  oget (rinteg (fold_left (fill_step exp tau last ip) l bf)) j = oget (rinteg bf) j.
Proof.
  revert bf. induction l as [|i l IH]; intros bf Hall; cbn [fold_left].
  - split; reflexivity.
  - inversion Hall as [|? ? Hi Hl]; subst.
    destruct (IH (fill_step exp tau last ip bf i) Hl) as [H1 H2].
    rewrite H1, H2. unfold fill_step, oget. cbn [ipv rinteg].
    split; apply ArrayFacts.get_set_ne; assumption.
Qed.

Lemma Forall_zrange_ne a b j :
  b <= j -> Forall (fun i => i <> j) (Extinction.zrange a b).
Proof.
  intros Hj. unfold Extinction.zrange. apply List.Forall_forall.
  intros x Hx. apply in_map_iff in Hx. destruct Hx as (k & <- & Hk).
  apply in_seq in Hk. lia.
Qed.

Lemma oget_repeat_None n j : oget (repeat None n) j = None.
Proof.
  unfold oget, get. destruct (j <? 0); [reflexivity|].
  rewrite nth_repeat. reflexivity.
Qed.

Lemma read_all_unwritten a j n i :
  oget a j = None -> i <= j < i + Z.of_nat n ->
  exists k, read_all a i n = inr k.
Proof.
  revert i. induction n as [|n IH]; intros i Hj Hr; [lia|].
  cbn [read_all].
  destruct (oget a i) as [x|] eqn:Ei; [|eexists; reflexivity].
  destruct (IH (i + 1) Hj) as [k Hk].
  - destruct (Z.eq_dec i j) as [->|Hne]; [congruence|lia].
  - rewrite Hk. eexists; reflexivity.
Qed.

(** Where samples remain after the valid ones ([0 <= last < ipn - 1]),
    [modulation1] hands the spline [min(last+2, ipn-1) + 1] elements but
    has written only those before the last one: the zero integrands it
    adds are at most one, the final element of both arrays is unwritten,
    and with three or more elements the routine reads it. *)
Theorem modulation1_padding (tau : list float) (last : Z) (toomuch : float)
    (ip : ip_samp) (sg : geometry) :
  0 <= last -> last < ip_n ip - 1 ->
  let count := fst (modulation1_buffers exp tau last ip) in
  let bf := snd (modulation1_buffers exp tau last ip) in
  count = Z.min (last + 2) (ip_n ip - 1) + 1 /\
  (forall i, last + 1 < i -> oget (rinteg bf) i = None /\ oget (ipv bf) i = None) /\
  oget (rinteg bf) (count - 1) = None /\
  oget (ipv bf) (count - 1) = None /\
  (3 <= count ->
   exists j, modulation1 gsl_interp_eval_integ exp tau last toomuch ip sg
             = Unwritten j).
Proof.
  intros H0 Hlt count bf.
  assert (Hcount : count = Z.min (last + 2) (ip_n ip - 1) + 1).
  { subst count. unfold modulation1_buffers. cbn [fst].
    destruct (Z.gtb_spec (last + 2) (ip_n ip - 1)); lia. }
  assert (Hbeyond : forall i, last + 1 < i ->
            oget (rinteg bf) i = None /\ oget (ipv bf) i = None).
  { intros i Hi. subst bf. unfold modulation1_buffers. cbn [snd].
    destruct (Z.leb_spec 0 last) as [_|]; [|lia].
    set (bf1 := fold_left (fill_step exp tau last ip) _ _).
    assert (Hbf1 : oget (ipv bf1) i = None /\ oget (rinteg bf1) i = None).
    { subst bf1.
      destruct (fold_fill_other tau last ip (Extinction.zrange 0 (last + 1))
                  (mk_buffers (repeat None (Z.to_nat (ip_n ip)))
                              (repeat None (Z.to_nat (ip_n ip)))) i
                  (Forall_zrange_ne 0 (last + 1) i ltac:(lia))) as [H1 H2].
      rewrite H1, H2. cbn [ipv rinteg]. split; apply oget_repeat_None. }
    destruct Hbf1 as [Hv Hr].
    destruct (Z.gtb_spec (last + 2) (ip_n ip - 1)) as [Hc|Hc].
    - rewrite Extinction.zrange_nil by lia. cbn [fold_left]. split; assumption.
    - rewrite (Extinction.zrange_cons (last + 1)) by lia.
      rewrite Extinction.zrange_nil by lia. cbn [fold_left].
      unfold pad_step, oget. cbn [ipv rinteg].
      rewrite !ArrayFacts.get_set_ne by lia. split; assumption. }
  assert (Hlast : last + 1 < count - 1 \/ count - 1 = last + 1 /\
                  ip_n ip - 1 = last + 1) by lia.
  assert (Hend : oget (rinteg bf) (count - 1) = None /\
                 oget (ipv bf) (count - 1) = None).
  { destruct Hlast as [Hl|[Hl Hn]]; [apply Hbeyond; exact Hl|].
    rewrite Hl. subst bf. unfold modulation1_buffers. cbn [snd].
    destruct (Z.leb_spec 0 last) as [_|]; [|lia].
    destruct (Z.gtb_spec (last + 2) (ip_n ip - 1)) as [Hc|Hc]; [|lia].
    rewrite Extinction.zrange_nil by lia. cbn [fold_left].
    destruct (fold_fill_other tau last ip (Extinction.zrange 0 (last + 1))
                (mk_buffers (repeat None (Z.to_nat (ip_n ip)))
                            (repeat None (Z.to_nat (ip_n ip)))) (last + 1)
                (Forall_zrange_ne 0 (last + 1) (last + 1) ltac:(lia)))
      as [H1 H2].
    rewrite H1, H2. cbn [ipv rinteg]. split; apply oget_repeat_None. }
  repeat apply conj; try assumption; try apply Hend.
  intros H3. unfold modulation1.
  fold count bf.
  destruct (modulation1_buffers exp tau last ip) as [c b0] eqn:Eb.
  cbn [fst snd] in count, bf. subst count bf.
  destruct (Z.ltb_spec c 3); [lia|].
  destruct (read_all_unwritten (ipv b0) (c - 1) (Z.to_nat c) 0
              (proj2 Hend) ltac:(lia)) as [k Hk].
  rewrite Hk. eexists; reflexivity.
Qed.

End SlantFacts.

(** The value on three valid samples. *)
Lemma modulation1_combines_witness :
  modulation1 integ_trapezoid exp_coarse [0; 0; 0]%float 2 64%float
              (mk_ip 3 [4; 3; 2]%float 1%float) (mk_geometry 8%float 1%float)
  = Value ((2 * 6 + 8 * 8 - 4 * 4 + 0 * 2 * 2) * (1 / 8 / 8))%float.
Proof.
  destruct (modulation1_combines integ_trapezoid exp_coarse [0; 0; 0]%float 2
              64%float (mk_ip 3 [4; 3; 2]%float 1%float)
              (mk_geometry 8%float 1%float)) as [_ H].
  specialize (H eq_refl ltac:(vm_compute; discriminate)).
  cbv zeta in H. rewrite H. vm_compute. reflexivity.
Defined.

(** C4 as stated fails on a transparent atmosphere: three valid samples
    at the impact parameters 2, 3 and 4 with optical depth 0, a
    saturation depth of 64 (whose [exp(-64)] is negligible, 0 here) and a
    star radius of 8.  Nothing is padded; the integrand is the straight
    line [b], whose integral from 2 to 4 is 6 for the trapezoid rule as
    for a cubic spline; the value is [(12 + 64 - 16)/64 = 0.9375], which
    is [1 - (2/8)^2], and not 1. *)
Lemma modulation1_transparent_counterexample :
  modulation1 integ_trapezoid exp_coarse [0; 0; 0]%float 2 64%float
              (mk_ip 3 [4; 3; 2]%float 1%float) (mk_geometry 8%float 1%float)
  = Value 0.9375%float /\
  integ_trapezoid [2; 3; 4]%float [2; 3; 4]%float 2%float 4%float = 6%float /\
  exp_coarse (- 0)%float = 1%float /\
  exp_coarse (- 64)%float = 0%float /\
  PrimFloat.ltb 0.9375%float 1%float = true.
Proof. vm_compute. repeat apply conj; reflexivity. Qed.

(** An impact parameter beyond the outermost radius 4. *)
Lemma totaltau1_out_of_range_witness :
  totaltau1 binsearch interp_first integ_trapezoid log_series
            5%float [1; 2; 3; 4]%float 1%float [8; 4; 2; 1]%float 4
  = Ok (0%float, [1; 2; 3; 4]%float, [8; 4; 2; 1]%float).
Proof.
  assert (Hasc : WidthGrid.ascending [1; 2; 3; 4]%float).
  { intros i Hi0 Hi. cbn [length] in Hi.
    assert (Hc : i = 0 \/ i = 1 \/ i = 2) by lia.
    destruct Hc as [->|[->| ->]]; vm_compute; reflexivity. }
  destruct (totaltau1_out_of_range interp_first integ_trapezoid log_series
              5%float 1%float [1; 2; 3; 4]%float [8; 4; 2; 1]%float Hasc
              ltac:(vm_compute; discriminate)) as [H _].
  apply H. vm_compute. reflexivity.
Defined.

(** An impact parameter exactly at the outermost radius 4 with a
    refraction index of 1.25: the closest approach 3.2 lies inside the
    last bin and the optical depth is not 0. *)
Lemma totaltau1_out_of_range_counterexample :
  fget [1; 2; 3; 4]%float (4 - 1) = 4%float /\
  exists tau,
    totaltau1 binsearch interp_first integ_trapezoid log_series
              4%float [1; 2; 3; 4]%float 1.25%float [8; 4; 1; 1]%float 4
    = Ok (tau, [1; 2; 3; 4]%float, [8; 4; 1; 1]%float) /\
    PrimFloat.ltb 4%float tau = true.
Proof.
  split; [reflexivity|]. eexists. split; vm_compute; reflexivity.
Qed.

(** A ray through the second bin of four radii. *)
Lemma totaltau1_restores_witness :
  totaltau1 binsearch interp_first integ_trapezoid log_series
            2.5%float [1; 2; 3; 4]%float 1%float [8; 4; 2; 1]%float 4
  = Ok ((2 * half_path integ_trapezoid log_series [1; 2.5; 3; 4]%float
                       [8; 2; 2; 1]%float 1 3 2.5%float)%float,
        [1; 2; 3; 4]%float, [8; 4; 2; 1]%float) /\
  [1; 2; 3; 4]%float = [1; 2; 3; 4]%float /\
  [8; 4; 2; 1]%float = [8; 4; 2; 1]%float.
Proof.
  assert (E : totaltau1 binsearch interp_first integ_trapezoid log_series
                2.5%float [1; 2; 3; 4]%float 1%float [8; 4; 2; 1]%float 4
              = Ok ((2 * half_path integ_trapezoid log_series
                           [1; 2.5; 3; 4]%float [8; 2; 2; 1]%float 1 3
                           2.5%float)%float,
                    [1; 2; 3; 4]%float, [8; 4; 2; 1]%float))
    by (vm_compute; reflexivity).
  split; [exact E|].
  destruct (totaltau1_restores binsearch interp_first integ_trapezoid
              log_series _ _ _ _ _ _ _ _ E) as (H1 & H2 & _).
  split; assumption.
Defined.

(** Two valid samples out of five: four elements go to the spline, the
    fourth unwritten. *)
Lemma modulation1_padding_witness :
  modulation1 integ_trapezoid exp_coarse [0; 0]%float 1 64%float
              (mk_ip 5 [5; 4; 3; 2; 1]%float 1%float)
              (mk_geometry 8%float 1%float)
  = Unwritten 3 /\
  snd (modulation1_buffers exp_coarse [0; 0]%float 1
         (mk_ip 5 [5; 4; 3; 2; 1]%float 1%float))
  = mk_buffers [Some 4; Some 5; Some 4; None; None]%float
               [Some 4; Some 5; Some 0; None; None]%float.
Proof.
  destruct (modulation1_padding integ_trapezoid exp_coarse [0; 0]%float 1
              64%float (mk_ip 5 [5; 4; 3; 2; 1]%float 1%float)
              (mk_geometry 8%float 1%float)
              ltac:(vm_compute; discriminate) ltac:(vm_compute; reflexivity))
    as (_ & _ & _ & _ & H).
  destruct (H ltac:(vm_compute; discriminate)) as [j Hj].
  split; [|vm_compute; reflexivity].
  rewrite Hj. vm_compute in Hj. injection Hj as <-. reflexivity.
Defined.

(** *** The closest approach of a bent ray: the search in [totaltau2] *)

Definition maxiterations : Z := 50.

Section ClosestApproach.

(** [lineinterp] of the [pu] library: the refraction index at a
    radius. *)
Variable lineinterp : float -> list float -> list float -> Z -> float.

(** The loop that opens [totaltau2]:
    [while(1) { r0 = b/lineinterp(r0a,...); if(r0==r0a) break;
                if(i++>maxiterations) transiterror(...); r0a = r0; }]
    started with [i = 0] and [r0a = b].  [fuel] bounds the number of
    rounds; 52 are enough for any input. *)
Fixpoint closest_approach (fuel : nat) (b : float) (rad refr : list float)
    (nrad : Z) (i : Z) (r0a : float) : outcome float :=
  match fuel with
  | O => Critical "Round limit of the model reached"
  | S fuel =>
      let r0 := (b / lineinterp r0a rad refr nrad)%float in
      if PrimFloat.eqb r0 r0a then Ok r0
      else if i >? maxiterations then
        Critical "Maximum iterations reached while looking for r0"
      else closest_approach fuel b rad refr nrad (i + 1) r0
  end.

Definition totaltau2_r0 (b : float) (rad refr : list float) (nrad : Z)
  : outcome float :=
  closest_approach 52 b rad refr nrad 0 b.

(** The successive values of [r0a]: the impact parameter, then
    [b/n(r0a)] of the value before. *)
Definition approach (b : float) (rad refr : list float) (nrad : Z) (k : nat)
  : float :=
  Nat.iter k (fun r0a => (b / lineinterp r0a rad refr nrad)%float) b.

Lemma closest_approach_fails (fuel m : nat) b rad refr nrad :
  (1 <= fuel)%nat -> (fuel + m = 52)%nat ->
  (forall k, (m <= k <= 51)%nat ->
     PrimFloat.eqb (approach b rad refr nrad (S k)) (approach b rad refr nrad k)
     = false) ->
  closest_approach fuel b rad refr nrad (Z.of_nat m) (approach b rad refr nrad m)
  = Critical "Maximum iterations reached while looking for r0".
Proof.
  revert m. induction fuel as [|fuel IH]; intros m Hf Hm Hne; [lia|].
  cbn [closest_approach].
  change (b / lineinterp (approach b rad refr nrad m) rad refr nrad)%float
    with (approach b rad refr nrad (S m)).
  rewrite Hne by lia.
  unfold maxiterations. destruct (Z.gtb_spec (Z.of_nat m) 50) as [Hgt|Hle];
    [reflexivity|].
  replace (Z.of_nat m + 1) with (Z.of_nat (S m)) by lia.
  apply IH; [lia|lia|]. intros k Hk. apply Hne. lia.
Qed.

Lemma closest_approach_stops (fuel m k : nat) b rad refr nrad :
  (fuel + m = 52)%nat -> (m <= k <= 51)%nat ->
  (forall j, (m <= j < k)%nat ->
     PrimFloat.eqb (approach b rad refr nrad (S j)) (approach b rad refr nrad j)
     = false) ->
  PrimFloat.eqb (approach b rad refr nrad (S k)) (approach b rad refr nrad k)
  = true ->
  closest_approach fuel b rad refr nrad (Z.of_nat m) (approach b rad refr nrad m)
  = Ok (approach b rad refr nrad (S k)).
Proof.
  revert m. induction fuel as [|fuel IH]; intros m Hm Hk Hne Heq; [lia|].
  cbn [closest_approach].
  change (b / lineinterp (approach b rad refr nrad m) rad refr nrad)%float
    with (approach b rad refr nrad (S m)).
  destruct (Nat.eq_dec m k) as [->|Hmk].
  - rewrite Heq. reflexivity.
  - rewrite Hne by lia.
    unfold maxiterations. destruct (Z.gtb_spec (Z.of_nat m) 50) as [Hgt|Hle];
      [lia|].
    replace (Z.of_nat m + 1) with (Z.of_nat (S m)) by lia.
    apply IH; [lia|lia| |exact Heq]. intros j Hj. apply Hne. lia.
Qed.

(** The search allows 52 evaluations of the refraction index, two more
    than [maxiterations].  It gives up exactly when each of the first 52
    values differs from the one before it; otherwise it returns the
    first value that equals the one it was computed from. *)
Theorem totaltau2_r0_rounds b rad refr nrad :
  let x := approach b rad refr nrad in
  ((forall k, (k <= 51)%nat -> PrimFloat.eqb (x (S k)) (x k) = false) ->
   totaltau2_r0 b rad refr nrad
   = Critical "Maximum iterations reached while looking for r0") /\
  (forall k, (k <= 51)%nat ->
     (forall j, (j < k)%nat -> PrimFloat.eqb (x (S j)) (x j) = false) ->
     PrimFloat.eqb (x (S k)) (x k) = true ->
     totaltau2_r0 b rad refr nrad = Ok (x (S k))).
Proof.
  intros x. split.
  - intros Hne. unfold totaltau2_r0.
    apply (closest_approach_fails 52 0); [lia|lia|].
    intros k Hk. apply Hne. lia.
  - intros k Hk Hne Heq. unfold totaltau2_r0.
    apply (closest_approach_stops 52 0 k); [lia|lia| |exact Heq].
    intros j Hj. apply Hne. lia.
Qed.

Lemma nan_div (b y : float) :
  Prim2SF b = S754_nan -> Prim2SF (b / y)%float = S754_nan.
Proof.
  intros Hb. rewrite FloatAxioms.div_spec, Hb.
  unfold SF64div, SFdiv. destruct (Prim2SF y) as [[]|[]| |[] ? ?]; reflexivity.
Qed.

Lemma nan_eqb (x y : float) :
  Prim2SF x = S754_nan -> PrimFloat.eqb x y = false.
Proof.
  intros Hx. rewrite FloatAxioms.eqb_spec, Hx. reflexivity.
Qed.

Lemma is_nan_SF (b : float) :
  PrimFloat.is_nan b = true -> Prim2SF b = S754_nan.
Proof.
  unfold PrimFloat.is_nan. rewrite FloatAxioms.eqb_spec.
  destruct (Prim2SF b) as [[]|[]| |[] e m]; try discriminate; try reflexivity.
  - unfold SFeqb, SFcompare. rewrite Z.compare_refl.
    fold (Pos.compare e e). rewrite Pos.compare_refl. discriminate.
  - unfold SFeqb, SFcompare. rewrite Z.compare_refl.
    fold (Pos.compare e e). rewrite Pos.compare_refl. discriminate.
Qed.

(** An impact parameter that is a NaN is never a closest approach: the
    search ends with the error, whatever [lineinterp] answers. *)
Theorem totaltau2_r0_nan b rad refr nrad :
  PrimFloat.is_nan b = true ->
  totaltau2_r0 b rad refr nrad
  = Critical "Maximum iterations reached while looking for r0".
Proof.
  intros Hb. apply is_nan_SF in Hb. unfold totaltau2_r0.
  apply (closest_approach_fails 52 0); [lia|lia|].
  intros k _. apply nan_eqb. cbn [approach Nat.iter]. apply nan_div. exact Hb.
Qed.

End ClosestApproach.

(** A refraction index of 1 everywhere: the first value is the impact
    parameter again. *)
Definition lineinterp_one (x : float) (rad refr : list float) (nrad : Z)
  : float := 1%float.

Lemma totaltau2_r0_rounds_witness :
  totaltau2_r0 lineinterp_one 2%float [1; 2; 3]%float [1; 1; 1]%float 3
  = Ok 2%float.
Proof.
  exact (proj2 (totaltau2_r0_rounds lineinterp_one 2%float [1; 2; 3]%float
                  [1; 1; 1]%float 3)
           0%nat ltac:(lia) ltac:(intros j Hj; lia) eq_refl).
Defined.

Lemma totaltau2_r0_nan_witness :
  totaltau2_r0 lineinterp_one nan [1; 2; 3]%float [1; 1; 1]%float 3
  = Critical "Maximum iterations reached while looking for r0".
Proof.
  exact (totaltau2_r0_nan lineinterp_one nan [1; 2; 3]%float [1; 1; 1]%float 3
           eq_refl).
Defined.

End SlantPath.
